(** * Form engine of the protocol builder (qt_app/ui/protocol_builder_qt.py)

    A shallow embedding of the dynamic form engine of [ProtocolBuilderQt]:
    the per-field widget state, the hidden-field triggers ([_update_hidden]),
    the formula evaluator ([_evaluate_formula], [_recalculate_formulas]),
    the reference-range check ([_check_reference]), the load / collect /
    clear operations, and the value store of [repo.load_protocol_values] /
    [repo.save_protocol].

    Modelling conventions.
    - Text is Stdlib [string] (ASCII).  Python's [\w] is read as ASCII
      letters, digits and underscore; [\s] and [str.strip] as the ASCII
      characters for which [str.isspace] holds (9-13, 28-32).
    - Python floats are modelled by exact rationals [Q]; Python ints by [Z].
      Float rounding error, overflow, infinities, NaN and the sign of a
      negative zero are not represented.  A power with a non-integral
      exponent, which Python evaluates to a float, is outside the modelled
      fragment and yields no result.
    - Qt widgets are represented by the string their [get_str] returns, the
      explicit visibility set on their container, and the out-of-range
      background flag.  Visibility is the flag set by [setVisible]; the
      ancestor-dependent part of Qt's [isVisible] is not modelled.
    - The widget property [template_multi] is never set in this repository,
      so the branches that read it are dead code and are not modelled.
    - An uncaught Python exception is [None] in the [option] monad. *)

From Stdlib Require Import String Ascii List ZArith QArith Qround Bool Lia DecimalString DecimalN.
From Stdlib Require Import Permutation Sorted.
Import ListNotations.

Local Open Scope bool_scope.

(** ** Text utilities *)

Module Text.

Definition char_code (c : ascii) : nat := nat_of_ascii c.

(** [str.isspace] restricted to ASCII. *)
Definition is_space (c : ascii) : bool :=
  let n := char_code c in
  ((9 <=? n) && (n <=? 13))%nat || ((28 <=? n) && (n <=? 32))%nat.

(** Python's [\w] restricted to ASCII. *)
Definition is_word (c : ascii) : bool :=
  let n := char_code c in
  ((48 <=? n) && (n <=? 57))%nat || ((65 <=? n) && (n <=? 90))%nat
  || ((97 <=? n) && (n <=? 122))%nat || (n =? 95)%nat.

Fixpoint lstrip (s : string) : string :=
  match s with
  | EmptyString => EmptyString
  | String c r => if is_space c then lstrip r else s
  end.

Fixpoint rev_str (s : string) (acc : string) : string :=
  match s with
  | EmptyString => acc
  | String c r => rev_str r (String c acc)
  end.

Definition rstrip (s : string) : string :=
  rev_str (lstrip (rev_str s EmptyString)) EmptyString.

(** [str.strip()]. *)
Definition strip (s : string) : string := rstrip (lstrip s).

(** [not s or not s.strip()]. *)
Definition blank (s : string) : bool := String.eqb (strip s) EmptyString.

(** [s.replace(a, b)] for single characters [a] and [b]. *)
Fixpoint replace_char (a b : ascii) (s : string) : string :=
  match s with
  | EmptyString => EmptyString
  | String c r => String (if Ascii.eqb c a then b else c) (replace_char a b r)
  end.

Fixpoint replace_nonempty (old new : string) (fuel : nat) (s : string) : string :=
  match fuel with
  | O => s
  | S k =>
      match s with
      | EmptyString => EmptyString
      | String c r =>
          if String.prefix old s
          then new ++ replace_nonempty old new k
                        (substring (String.length old)
                                   (String.length s - String.length old) s)
          else String c (replace_nonempty old new k r)
      end
  end.

Fixpoint replace_empty (new : string) (s : string) : string :=
  match s with
  | EmptyString => new
  | String c r => new ++ String c (replace_empty new r)
  end.

(** [s.replace(old, new)]: every non-overlapping occurrence, left to right. *)
Definition py_replace (old new s : string) : string :=
  match old with
  | EmptyString => replace_empty new s
  | _ => replace_nonempty old new (String.length s) s
  end.

(** [c in s] for a character. *)
Fixpoint contains_char (c : ascii) (s : string) : bool :=
  match s with
  | EmptyString => false
  | String d r => Ascii.eqb c d || contains_char c r
  end.

End Text.

(** ** [re.findall(r"([\w\s]+)\.([\w\s]+)\.([\w\s]+)", formula)]

    A group [[\w\s]+] is followed either by a literal dot (groups 1 and 2),
    which is not in the class, or by nothing (group 3, greedy), so in every
    successful match each group is the maximal run of class characters
    starting at its position.  A failed attempt moves one character on. *)

Module Refs.
Import Text.

Definition in_class (c : ascii) : bool := is_word c || is_space c.

Fixpoint take_run (s : string) : string * string :=
  match s with
  | String c r =>
      if in_class c then let '(a, b) := take_run r in (String c a, b)
      else (EmptyString, s)
  | EmptyString => (EmptyString, EmptyString)
  end.

Definition dot : ascii := "."%char.

(** One match attempt at the start of [s]: the three groups and the rest. *)
Definition match_at (s : string) : option (string * string * string * string) :=
  match take_run s with
  | (String _ _ as g1, String d1 r1) =>
      if Ascii.eqb d1 dot then
        match take_run r1 with
        | (String _ _ as g2, String d2 r2) =>
            if Ascii.eqb d2 dot then
              match take_run r2 with
              | (String _ _ as g3, r3) => Some (g1, g2, g3, r3)
              | _ => None
              end
            else None
        | _ => None
        end
      else None
  | _ => None
  end.

Fixpoint findall_fuel (fuel : nat) (s : string) : list (string * string * string) :=
  match fuel with
  | O => []
  | S k =>
      match s with
      | EmptyString => []
      | String _ r =>
          match match_at s with
          | Some (g1, g2, g3, rest) => (g1, g2, g3) :: findall_fuel k rest
          | None => findall_fuel k r
          end
      end
  end.

Definition findall (s : string) : list (string * string * string) :=
  findall_fuel (String.length s) s.

End Refs.

(** ** [re.sub(r"\\s*([\\+\\-\\*/])\\s*", r" \\1 ", expression)]

    The pattern is written with doubled backslashes inside a raw string, so
    it matches a literal backslash, any number of [s] characters, one of
    backslash, [+], [*], [/], a second literal backslash and any number of
    [s]; the replacement template is space, backslash, [1], space. *)

Module Sub.

Definition backslash : ascii := ascii_of_nat 92.

Definition in_op_class (c : ascii) : bool :=
  Ascii.eqb c backslash || Ascii.eqb c "+"%char || Ascii.eqb c "*"%char
  || Ascii.eqb c "/"%char.

Fixpoint drop_s (s : string) : string :=
  match s with
  | String c r => if Ascii.eqb c "s"%char then drop_s r else s
  | EmptyString => EmptyString
  end.

Definition sub_match_at (s : string) : option string :=
  match s with
  | String b r =>
      if Ascii.eqb b backslash then
        match drop_s r with
        | String c r2 =>
            if in_op_class c then
              match r2 with
              | String b2 r3 => if Ascii.eqb b2 backslash then Some (drop_s r3) else None
              | EmptyString => None
              end
            else None
        | EmptyString => None
        end
      else None
  | EmptyString => None
  end.

Definition replacement : string :=
  String " "%char (String backslash (String "1"%char (String " "%char EmptyString))).

Fixpoint sub_fuel (fuel : nat) (s : string) : string :=
  match fuel with
  | O => s
  | S k =>
      match s with
      | EmptyString => EmptyString
      | String c r =>
          match sub_match_at s with
          | Some rest => replacement ++ sub_fuel k rest
          | None => String c (sub_fuel k r)
          end
      end
  end.

Definition sub_ops (s : string) : string := sub_fuel (String.length s) s.

End Sub.

(** ** Python arithmetic on the whitelisted characters

    After the whitelist check the expression only contains digits, [.],
    [+ - * / ( )] and spaces.  [eval] then tokenises it (numbers, [+], [-],
    [*], [**], [/], [//], parentheses), parses it with Python's precedence,
    and evaluates with Python's int/float semantics; any syntax or runtime
    error is an exception, caught by [_evaluate_formula]. *)

Module Py.

Inductive pyval := PInt (z : Z) | PFloat (q : Q).

Definition to_q (v : pyval) : Q :=
  match v with PInt z => inject_Z z | PFloat q => q end.

Definition is_zero (v : pyval) : bool := Qeq_bool (to_q v) 0.

Definition py_add (a b : pyval) : pyval :=
  match a, b with PInt x, PInt y => PInt (x + y) | _, _ => PFloat (to_q a + to_q b) end.
Definition py_sub (a b : pyval) : pyval :=
  match a, b with PInt x, PInt y => PInt (x - y) | _, _ => PFloat (to_q a - to_q b) end.
Definition py_mul (a b : pyval) : pyval :=
  match a, b with PInt x, PInt y => PInt (x * y) | _, _ => PFloat (to_q a * to_q b) end.
Definition py_neg (a : pyval) : pyval :=
  match a with PInt x => PInt (- x) | PFloat q => PFloat (- q) end.

(** [a / b]: true division, [ZeroDivisionError] on a zero divisor. *)
Definition py_truediv (a b : pyval) : option pyval :=
  if is_zero b then None else Some (PFloat (to_q a / to_q b)).

(** [a // b]: floor division. *)
Definition py_floordiv (a b : pyval) : option pyval :=
  if is_zero b then None else
  match a, b with
  | PInt x, PInt y => Some (PInt (Z.div x y))
  | _, _ => Some (PFloat (inject_Z (Qfloor (to_q a / to_q b))))
  end.

(** [a ** b].  For a float operand with a non-integral exponent Python
    returns [0.0] for a zero base, a complex number (rejected by [float])
    for a negative base, and an irrational float for a positive base; the
    last case is outside the modelled fragment. *)
Definition py_pow (a b : pyval) : option pyval :=
  match a, b with
  | PInt x, PInt y =>
      if (0 <=? y)%Z then Some (PInt (Z.pow x y))
      else if (x =? 0)%Z then None
      else Some (PFloat (Qpower (inject_Z x) y))
  | _, _ =>
      let e := to_q b in
      let base := to_q a in
      if (Z.modulo (Qnum e) (Zpos (Qden e)) =? 0)%Z then
        let n := Z.div (Qnum e) (Zpos (Qden e)) in
        if Qeq_bool base 0 && (n <? 0)%Z then None
        else Some (PFloat (Qpower base n))
      else if Qeq_bool base 0 then (if Qlt_le_dec 0 e then Some (PFloat 0) else None)
      else None
  end.

Inductive token :=
  | TNum (v : pyval) | TPlus | TMinus | TStar | TPow | TSlash | TDSlash | TLP | TRP.

Definition is_digit (c : ascii) : bool :=
  let n := nat_of_ascii c in ((48 <=? n) && (n <=? 57))%nat.

Definition digit_val (c : ascii) : Z := Z.of_nat (nat_of_ascii c - 48).

Fixpoint take_digits (s : string) : string * string :=
  match s with
  | String c r =>
      if is_digit c then let '(a, b) := take_digits r in (String c a, b)
      else (EmptyString, s)
  | EmptyString => (EmptyString, EmptyString)
  end.

Fixpoint digits_value_acc (acc : Z) (s : string) : Z :=
  match s with
  | String c r => digits_value_acc (10 * acc + digit_val c) r
  | EmptyString => acc
  end.

Definition digits_value (s : string) : Z := digits_value_acc 0 s.

(** A float literal [int_part.frac_part] as an exact rational. *)
Definition float_lit (int_part frac_part : string) : Q :=
  Qmake (digits_value (int_part ++ frac_part)) (Pos.of_nat 1) /
  inject_Z (10 ^ Z.of_nat (String.length frac_part)).

Fixpoint all_zero (s : string) : bool :=
  match s with
  | String c r => Ascii.eqb c "0"%char && all_zero r
  | EmptyString => true
  end.

(** A decimal integer literal: "leading zeros in decimal integer literals
    are not permitted" unless every digit is zero. *)
Definition int_lit (d : string) : option pyval :=
  match d with
  | String c _ =>
      if Ascii.eqb c "0"%char && negb (all_zero d) then None
      else Some (PInt (digits_value d))
  | EmptyString => None
  end.

Fixpoint tokenize_fuel (fuel : nat) (s : string) : option (list token) :=
  match fuel with
  | O => None
  | S k =>
      match s with
      | EmptyString => Some []
      | String c r =>
          if Ascii.eqb c " "%char then tokenize_fuel k r
          else if is_digit c then
            let '(d, r1) := take_digits s in
            match r1 with
            | String p r2 =>
                if Ascii.eqb p "."%char then
                  let '(f, r3) := take_digits r2 in
                  match tokenize_fuel k r3 with
                  | Some ts => Some (TNum (PFloat (float_lit d f)) :: ts)
                  | None => None
                  end
                else
                  match int_lit d, tokenize_fuel k r1 with
                  | Some v, Some ts => Some (TNum v :: ts)
                  | _, _ => None
                  end
            | EmptyString =>
                match int_lit d with
                | Some v => Some [TNum v]
                | None => None
                end
            end
          else if Ascii.eqb c "."%char then
            (* [.5] is a float literal; a dot not followed by a digit is
               attribute access or [...], an error in every case here *)
            let '(f, r1) := take_digits r in
            match f with
            | EmptyString => None
            | _ =>
                match tokenize_fuel k r1 with
                | Some ts => Some (TNum (PFloat (float_lit EmptyString f)) :: ts)
                | None => None
                end
            end
          else if Ascii.eqb c "+"%char then option_map (cons TPlus) (tokenize_fuel k r)
          else if Ascii.eqb c "-"%char then option_map (cons TMinus) (tokenize_fuel k r)
          else if Ascii.eqb c "("%char then option_map (cons TLP) (tokenize_fuel k r)
          else if Ascii.eqb c ")"%char then option_map (cons TRP) (tokenize_fuel k r)
          else if Ascii.eqb c "*"%char then
            match r with
            | String c2 r2 =>
                if Ascii.eqb c2 "*"%char then option_map (cons TPow) (tokenize_fuel k r2)
                else option_map (cons TStar) (tokenize_fuel k r)
            | EmptyString => Some [TStar]
            end
          else if Ascii.eqb c "/"%char then
            match r with
            | String c2 r2 =>
                if Ascii.eqb c2 "/"%char then option_map (cons TDSlash) (tokenize_fuel k r2)
                else option_map (cons TSlash) (tokenize_fuel k r)
            | EmptyString => Some [TSlash]
            end
          else None
      end
  end.

Definition tokenize (s : string) : option (list token) :=
  tokenize_fuel (S (String.length s)) s.

(** Recursive descent with Python's precedence:
    expr := term (('+'|'-') term)*;  term := factor (('*'|'/'|'//') factor)*;
    factor := ('+'|'-') factor | power;  power := atom ['**' factor];
    atom := NUMBER | '(' expr ')'.  An atom followed by '(' is a call of a
    number ([TypeError]); every other shape is a [SyntaxError]. *)
Definition no_call (v : pyval) (ts : list token) : option (pyval * list token) :=
  match ts with
  | TLP :: _ => None
  | _ => Some (v, ts)
  end.

Fixpoint p_expr (fuel : nat) (ts : list token) : option (pyval * list token) :=
  match fuel with
  | O => None
  | S k =>
      match p_term k ts with
      | Some (v, r) => p_expr_tail k v r
      | None => None
      end
  end
with p_expr_tail (fuel : nat) (acc : pyval) (ts : list token) : option (pyval * list token) :=
  match fuel with
  | O => None
  | S k =>
      match ts with
      | TPlus :: r =>
          match p_term k r with
          | Some (v, r') => p_expr_tail k (py_add acc v) r'
          | None => None
          end
      | TMinus :: r =>
          match p_term k r with
          | Some (v, r') => p_expr_tail k (py_sub acc v) r'
          | None => None
          end
      | _ => Some (acc, ts)
      end
  end
with p_term (fuel : nat) (ts : list token) : option (pyval * list token) :=
  match fuel with
  | O => None
  | S k =>
      match p_factor k ts with
      | Some (v, r) => p_term_tail k v r
      | None => None
      end
  end
with p_term_tail (fuel : nat) (acc : pyval) (ts : list token) : option (pyval * list token) :=
  match fuel with
  | O => None
  | S k =>
      match ts with
      | TStar :: r =>
          match p_factor k r with
          | Some (v, r') => p_term_tail k (py_mul acc v) r'
          | None => None
          end
      | TSlash :: r =>
          match p_factor k r with
          | Some (v, r') =>
              match py_truediv acc v with
              | Some w => p_term_tail k w r'
              | None => None
              end
          | None => None
          end
      | TDSlash :: r =>
          match p_factor k r with
          | Some (v, r') =>
              match py_floordiv acc v with
              | Some w => p_term_tail k w r'
              | None => None
              end
          | None => None
          end
      | _ => Some (acc, ts)
      end
  end
with p_factor (fuel : nat) (ts : list token) : option (pyval * list token) :=
  match fuel with
  | O => None
  | S k =>
      match ts with
      | TPlus :: r => p_factor k r
      | TMinus :: r =>
          match p_factor k r with
          | Some (v, r') => Some (py_neg v, r')
          | None => None
          end
      | _ => p_power k ts
      end
  end
with p_power (fuel : nat) (ts : list token) : option (pyval * list token) :=
  match fuel with
  | O => None
  | S k =>
      match p_atom k ts with
      | Some (b, TPow :: r) =>
          match p_factor k r with
          | Some (e, r') =>
              match py_pow b e with
              | Some w => Some (w, r')
              | None => None
              end
          | None => None
          end
      | res => res
      end
  end
with p_atom (fuel : nat) (ts : list token) : option (pyval * list token) :=
  match fuel with
  | O => None
  | S k =>
      match ts with
      | TNum v :: r => no_call v r
      | TLP :: r =>
          match p_expr k r with
          | Some (v, TRP :: r') => no_call v r'
          | _ => None
          end
      | _ => None
      end
  end.

(** [float(eval(expression, {"__builtins__": {}}, allowed_names))] on an
    expression made of whitelisted characters. *)
Definition eval_arith (s : string) : option Q :=
  match tokenize s with
  | Some ts =>
      match p_expr (8 * S (List.length ts)) ts with
      | Some (v, []) => Some (to_q v)
      | _ => None
      end
  | None => None
  end.

End Py.

(** ** Numbers as text: [float(s)], [round(x, p)], [f"{x:.{p}f}"] *)

Module Num.
Import Text.

(** [float(s)] on a stripped string: optional sign, digits with an optional
    fractional part, optional exponent.  The spellings [inf], [nan] and
    digit groups with underscores are not modelled (no result). *)
Definition parse_float (s : string) : option Q :=
  let '(neg, s1) :=
    match s with
    | String c r =>
        if Ascii.eqb c "-"%char then (true, r)
        else if Ascii.eqb c "+"%char then (false, r) else (false, s)
    | EmptyString => (false, s)
    end in
  let '(d, s2) := Py.take_digits s1 in
  let '(f, s3) :=
    match s2 with
    | String c r =>
        if Ascii.eqb c "."%char then Py.take_digits r else (EmptyString, s2)
    | EmptyString => (EmptyString, s2)
    end in
  match d, f with
  | EmptyString, EmptyString => None
  | _, _ =>
      let mant := Py.float_lit d f in
      let signed := if neg then - mant else mant in
      match s3 with
      | EmptyString => Some signed
      | String e r =>
          if Ascii.eqb e "e"%char || Ascii.eqb e "E"%char then
            let '(eneg, r1) :=
              match r with
              | String c r' =>
                  if Ascii.eqb c "-"%char then (true, r')
                  else if Ascii.eqb c "+"%char then (false, r') else (false, r)
              | EmptyString => (false, r)
              end in
            let '(ed, r2) := Py.take_digits r1 in
            match ed, r2 with
            | String _ _, EmptyString =>
                let x := Py.digits_value ed in
                Some (signed * Qpower 10 (if eneg then - x else x)%Z)
            | _, _ => None
            end
          else None
      end
  end.

(** [round(x, p)] for [p >= 0]: the nearest multiple of [10^-p], ties to
    even, returned as the integer [m] with [round(x, p) = m / 10^p]. *)
Definition py_round (q : Q) (p : nat) : Z :=
  let y := q * inject_Z (10 ^ Z.of_nat p) in
  let fl := Qfloor y in
  match Qcompare (y - inject_Z fl) (1 # 2) with
  | Lt => fl
  | Gt => fl + 1
  | Eq => if Z.even fl then fl else fl + 1
  end.

Definition scaled (m : Z) (p : nat) : Q := inject_Z m / inject_Z (10 ^ Z.of_nat p).

Definition round_q (q : Q) (p : nat) : Q := scaled (py_round q p) p.

(** Every character is an ASCII digit. *)
Fixpoint all_digits (s : string) : bool :=
  match s with
  | EmptyString => true
  | String c r => Py.is_digit c && all_digits r
  end.

Fixpoint zeros (n : nat) : string :=
  match n with O => EmptyString | S k => String "0"%char (zeros k) end.

Definition nat_digits (n : N) : string := NilZero.string_of_uint (N.to_uint n).

(** [f"{m / 10^p:.{p}f}"]. *)
Definition format_fixed (m : Z) (p : nat) : string :=
  let ds := nat_digits (Z.abs_N m) in
  let ds := (zeros (S p - String.length ds) ++ ds)%string in
  let n := String.length ds in
  let int_part := substring 0 (n - p) ds in
  let frac := substring (n - p) p ds in
  ((if (m <? 0)%Z then "-" else "") ++ int_part
   ++ (match p with O => "" | _ => "." ++ frac end))%string.

(** [f"{round(x, p):.{p}f}".replace(".", ",")] *)
Definition format_comma (q : Q) (p : nat) : string :=
  replace_char "."%char ","%char (format_fixed (py_round q p) p).

End Num.

(** ** Schema and widget state *)

Module Form.
Import Text.

(** The field types of the [fields.field_type] CHECK constraint:
    строка, текст, число, дата, время, словарь, шаблон, скрытое, формула. *)
Inductive ftype :=
  | FStr | FText | FNum | FDate | FTime | FDict | FTemplate | FHidden | FFormula.

Definition ftype_eqb (a b : ftype) : bool :=
  match a, b with
  | FStr, FStr | FText, FText | FNum, FNum | FDate, FDate | FTime, FTime
  | FDict, FDict | FTemplate, FTemplate | FHidden, FHidden | FFormula, FFormula => true
  | _, _ => false
  end.

(** [FieldMeta], with the names of the enclosing tab and group (used for the
    formula path) and the field's dictionary values (the combo items of a
    словарь or шаблон field). *)
Record FieldMeta := {
  fm_id : Z;
  fm_tab_id : Z;
  fm_tab_name : string;
  fm_group_name : string;
  fm_name : string;
  fm_type : ftype;
  fm_precision : option nat;
  ref_male_min : option Q;
  ref_male_max : option Q;
  ref_female_min : option Q;
  ref_female_max : option Q;
  fm_formula : option string;
  fm_is_hidden : bool;
  fm_trigger_field_id : option Z;
  fm_trigger_value : option string;
  fm_items : list string
}.

(** The widget [_create_field_widget] builds for a field. *)
Inductive widget :=
  | WLineEdit
  | WPlainText
  | WCombo (items : list string)
  | WTemplate (items : list string)
  | WDate
  | WTime.

Definition widget_of (m : FieldMeta) : widget :=
  match fm_type m with
  | FText => WPlainText
  | FDict => WCombo (fm_items m)
  | FTemplate => WTemplate (fm_items m)
  | FDate => WDate
  | FTime => WTime
  | _ => WLineEdit
  end.

(** The mutable part of the bindings: the text of each widget (what
    [get_str] returns), the container visibility, whether the out-of-range
    background is applied, and the [_loading] flag. *)
Record State := {
  value : Z -> string;
  visible : Z -> bool;
  flagged : Z -> bool;
  loading : bool
}.

Definition upd {A} (f : Z -> A) (k : Z) (a : A) : Z -> A :=
  fun x => if Z.eqb x k then a else f x.

Definition set_value (st : State) (k : Z) (v : string) : State :=
  {| value := upd (value st) k v; visible := visible st;
     flagged := flagged st; loading := loading st |}.
Definition set_visible (st : State) (k : Z) (b : bool) : State :=
  {| value := value st; visible := upd (visible st) k b;
     flagged := flagged st; loading := loading st |}.
Definition set_flag (st : State) (k : Z) (b : bool) : State :=
  {| value := value st; visible := visible st;
     flagged := upd (flagged st) k b; loading := loading st |}.
Definition set_loading (st : State) (b : bool) : State :=
  {| value := value st; visible := visible st;
     flagged := flagged st; loading := b |}.

(** Digits of a fixed-width text field. *)
Fixpoint digits_at (s : string) (n : nat) : option Z :=
  match n with
  | O => Some 0%Z
  | S k =>
      match s with
      | String c r =>
          if Py.is_digit c then
            match digits_at r k with
            | Some v => Some (Py.digit_val c * 10 ^ Z.of_nat k + v)%Z
            | None => None
            end
          else None
      | EmptyString => None
      end
  end.

Definition days_in_month (y mo : Z) : Z :=
  if (mo =? 2)%Z then
    (if ((Z.modulo y 4 =? 0) && negb (Z.modulo y 100 =? 0)) || (Z.modulo y 400 =? 0)
     then 29 else 28)%Z
  else if (mo =? 4)%Z || (mo =? 6)%Z || (mo =? 9)%Z || (mo =? 11)%Z then 30%Z
  else 31%Z.

(** [QDate.fromString(value, "dd.MM.yyyy").isValid()] on the zero-padded
    spelling that [toString] produces. *)
Definition valid_date (s : string) : bool :=
  match digits_at s 2, digits_at (substring 3 2 s) 2, digits_at (substring 6 4 s) 4 with
  | Some d, Some mo, Some y =>
      (String.length s =? 10)%nat
      && String.eqb (substring 2 1 s) "." && String.eqb (substring 5 1 s) "."
      && (1 <=? y)%Z && (1 <=? mo)%Z && (mo <=? 12)%Z
      && (1 <=? d)%Z && (d <=? days_in_month y mo)%Z
  | _, _, _ => false
  end.

(** [QTime.fromString(value, "HH:mm").isValid()] on the zero-padded spelling. *)
Definition valid_time (s : string) : bool :=
  match digits_at s 2, digits_at (substring 3 2 s) 2 with
  | Some h, Some mi =>
      (String.length s =? 5)%nat && String.eqb (substring 2 1 s) ":"
      && (h <=? 23)%Z && (mi <=? 59)%Z
  | _, _ => false
  end.

(** [FieldBinding.set_str]: line edits and text areas take the text; a
    словарь combo selects the equal item or, being editable, takes the text
    as typed, so its current text is the value either way; a шаблон field
    writes its text area; a date or time is applied only when it parses. *)
Definition set_str (m : FieldMeta) (v : string) (st : State) : State :=
  match widget_of m with
  | WDate => if valid_date v then set_value st (fm_id m) v else st
  | WTime => if valid_time v then set_value st (fm_id m) v else st
  | _ => set_value st (fm_id m) v
  end.

(** Whether the widget's change signal fires on [set_str]: [setPlainText]
    always emits [textChanged]; the other widgets emit only on a change. *)
Definition emits (m : FieldMeta) (old new : string) : bool :=
  match widget_of m with
  | WPlainText | WTemplate _ => true
  | _ => negb (String.eqb old new)
  end.

(** The widget text a freshly built binding shows: [QDateEdit] starts at
    2000-01-01, [QTimeEdit] at 00:00, every other widget empty. *)
Definition initial_value (m : FieldMeta) : string :=
  match widget_of m with
  | WDate => "01.01.2000"
  | WTime => "00:00"
  | _ => ""
  end.

(** [if meta.is_hidden and meta.trigger_field_id]: registered in
    [hidden_by_trigger] and hidden at build time. *)
Definition registered (m : FieldMeta) : bool :=
  fm_is_hidden m &&
  match fm_trigger_field_id m with Some t => negb (Z.eqb t 0) | None => false end.

Definition obind {A B} (m : option A) (k : A -> option B) : option B :=
  match m with Some a => k a | None => None end.

End Form.

Notation "x <- m ;; k" := (Form.obind m (fun x => k))
  (at level 61, m at next level, right associativity).

(** ** The engine: one open form over a fixed structure *)

Module Engine.
Import Text Form.

Section Engine.

(** [self.fields] / [self.field_meta] in build order (tabs, groups and
    fields by display order), the record's [patient_gender], and Python's
    [str(x)] of a float, used for formula fields without a precision. *)
Variable fields : list FieldMeta.
Variable patient_gender : string.
Variable float_repr : Q -> string.

(** [self.fields.get(fid)] / [fid in self.fields]. *)
Definition find_field (fid : Z) : option FieldMeta :=
  find (fun m => Z.eqb (fm_id m) fid) fields.

Definition in_fields (fid : Z) : bool :=
  match find_field fid with Some _ => true | None => false end.

Definition get_str (st : State) (fid : Z) : string := value st fid.

(** [f"{tab_name.strip()}.{group_name.strip()}.{meta.name.strip()}"] *)
Definition path_key (m : FieldMeta) : string :=
  (strip (fm_tab_name m) ++ "." ++ strip (fm_group_name m) ++ "." ++ strip (fm_name m))%string.

(** [self._field_id_by_path.get(key)]: a later field with the same path
    overwrites an earlier one. *)
Definition field_id_by_path (key : string) : option Z :=
  fold_left (fun acc m => if String.eqb (path_key m) key then Some (fm_id m) else acc)
            fields None.

Fixpoint setdefault_append (acc : list (Z * list Z)) (t h : Z) : list (Z * list Z) :=
  match acc with
  | [] => [(t, [h])]
  | (t', hs) :: r =>
      if Z.eqb t t' then (t', hs ++ [h]) :: r else (t', hs) :: setdefault_append r t h
  end.

(** [self.hidden_by_trigger], built with [setdefault(...).append(...)]. *)
Definition hidden_by_trigger : list (Z * list Z) :=
  fold_left (fun acc m =>
               if registered m then
                 match fm_trigger_field_id m with
                 | Some t => setdefault_append acc t (fm_id m)
                 | None => acc
                 end
               else acc) fields [].

Definition hidden_of (t : Z) : option (list Z) :=
  match find (fun p => Z.eqb (fst p) t) hidden_by_trigger with
  | Some (_, hs) => Some hs
  | None => None
  end.

Definition trigger_keys : list Z := map fst hidden_by_trigger.

(** [_first_choice_text]: the first combo item, stripped. *)
Definition first_choice_text (tm : FieldMeta) : option string :=
  match widget_of tm with
  | WCombo items | WTemplate items =>
      match items with
      | i0 :: _ => Some (strip i0)
      | [] => None
      end
  | _ => None
  end.

(** The visibility [_update_hidden] gives the hidden field [hm] when its
    trigger [tm] holds the stripped text [trigger_val]. *)
Definition show_for (tm : FieldMeta) (trigger_val : string) (hm : FieldMeta) : bool :=
  match first_choice_text tm with
  | Some first =>
      if String.eqb trigger_val "" then false
      else negb (String.eqb trigger_val first)
  | None =>
      (* fallback for legacy behavior *)
      match fm_trigger_value hm with
      | Some tv => negb (String.eqb tv "") && String.eqb trigger_val (strip tv)
      | None => false
      end
  end.

(** [_update_hidden(trigger_field_id)]; the dictionary lookups
    [self.fields[...]] and [self.field_meta[...]] fail with [KeyError]. *)
Definition update_hidden (t : Z) (st : State) : option State :=
  match hidden_of t with
  | None => Some st
  | Some hids =>
      tm <- find_field t;;
      let trigger_val := strip (get_str st t) in
      fold_left (fun acc hid =>
                   st' <- acc;;
                   hm <- find_field hid;;
                   Some (set_visible st' hid (show_for tm trigger_val hm)))
                hids (Some st)
  end.

(** The trigger slot connected in [_load_structure]. *)
Definition is_connected_trigger (fid : Z) : bool :=
  match hidden_of fid with Some _ => in_fields fid | None => false end.

(** [binding.set_str(v)] while [_loading] is set: of the slots connected to
    the widget's change signal only the trigger slot does anything, since
    [_recalculate_formulas] and [_check_reference] return at once. *)
Definition set_str_loading (m : FieldMeta) (v : string) (st : State) : option State :=
  let st1 := set_str m v st in
  if emits m (get_str st (fm_id m)) v && is_connected_trigger (fm_id m)
  then update_hidden (fm_id m) st1
  else Some st1.

(** [_current_ref_range]. *)
Definition current_ref_range (m : FieldMeta) : option Q * option Q :=
  if String.eqb patient_gender "жен" then (ref_female_min m, ref_female_max m)
  else (ref_male_min m, ref_male_max m).

Definition is_num_or_formula (m : FieldMeta) : bool :=
  ftype_eqb (fm_type m) FNum || ftype_eqb (fm_type m) FFormula.

(** [_check_reference(field_id)]. *)
Definition check_reference (fid : Z) (st : State) : option State :=
  if loading st then Some st else
  match find_field fid with
  | None => Some st
  | Some b =>
      if negb (is_num_or_formula b) then Some st else
      let txt := strip (get_str st fid) in
      if String.eqb txt "" then Some (set_flag st fid false) else
      match Num.parse_float (replace_char ","%char "."%char txt) with
      | None => Some st
      | Some v =>
          let res :=
            match fm_precision b with
            | Some p =>
                let val := Num.round_q v p in
                match widget_of b with
                | WLineEdit =>
                    st1 <- set_str_loading b (Num.format_comma v p) (set_loading st true);;
                    Some (val, set_loading st1 false)
                | _ => Some (val, st)
                end
            | None => Some (v, st)
            end in
          vst <- res;;
          let '(val, st2) := vst in
          match current_ref_range b with
          | (Some rmin, Some rmax) =>
              Some (set_flag st2 fid (negb (Qle_bool rmin val && Qle_bool val rmax)))
          | _ => Some st2
          end
      end
  end.

(** *** [_evaluate_formula] *)

Definition ref_key (r : string * string * string) : string :=
  let '(tab_name, group_name, field_name) := r in
  (strip tab_name ++ "." ++ strip group_name ++ "." ++ strip field_name)%string.

Definition ref_field_name (r : string * string * string) : string :=
  let '(_, _, field_name) := r in field_name.

(** The value text read for one binding: [None] (the formula has no
    result) when it is blank, else the text with commas turned into dots. *)
Definition read_value (st : State) (fid : Z) : option string :=
  let raw := get_str st fid in
  if blank raw then None else Some (replace_char ","%char "."%char raw).

(** The field a reference resolves to: the full path first, else the first
    field (in [self.field_meta] order) with the same stripped name. *)
Definition resolve_fid (r : string * string * string) : option Z :=
  match field_id_by_path (ref_key r) with
  | Some fid => if in_fields fid then Some fid else
      option_map fm_id (find (fun m => String.eqb (strip (fm_name m)) (strip (ref_field_name r))
                                       && in_fields (fm_id m)) fields)
  | None =>
      option_map fm_id (find (fun m => String.eqb (strip (fm_name m)) (strip (ref_field_name r))
                                       && in_fields (fm_id m)) fields)
  end.

(** [values[key] = v] on an insertion-ordered dict. *)
Fixpoint dict_set (d : list (string * string)) (k v : string) : list (string * string) :=
  match d with
  | [] => [(k, v)]
  | (k', v') :: r => if String.eqb k k' then (k', v) :: r else (k', v') :: dict_set r k v
  end.

Fixpoint resolve_all (st : State) (refs : list (string * string * string))
         (acc : list (string * string)) : option (list (string * string)) :=
  match refs with
  | [] => Some acc
  | r :: rs =>
      fid <- resolve_fid r;;
      v <- read_value st fid;;
      resolve_all st rs (dict_set acc (ref_key r) v)
  end.

Definition allowed_chars : string := "0123456789.+-*/() ".

Fixpoint all_allowed (s : string) : bool :=
  match s with
  | EmptyString => true
  | String c r => contains_char c allowed_chars && all_allowed r
  end.

(** The expression text after substitution, [re.sub] and the comma
    replacement. *)
Definition substitute (values : list (string * string)) (formula : string) : string :=
  let expression := fold_left (fun e kv => py_replace (fst kv) (snd kv) e) values formula in
  replace_char ","%char "."%char (Sub.sub_ops expression).

Definition evaluate_formula (st : State) (formula : string) : option Q :=
  values <- resolve_all st (Refs.findall formula) [];;
  let expression := substitute values formula in
  if all_allowed expression then Py.eval_arith expression else None.

(** *** [_recalculate_formulas] *)

Definition format_result (m : FieldMeta) (r : Q) : string :=
  match fm_precision m with
  | Some p => Num.format_comma r p
  | None => replace_char "."%char ","%char (float_repr r)
  end.

Definition recalc_field (st : State) (m : FieldMeta) : option State :=
  if negb (ftype_eqb (fm_type m) FFormula) then Some st else
  match fm_formula m with
  | None | Some EmptyString => Some st
  | Some formula =>
      match evaluate_formula st formula with
      | None =>
          st1 <- set_str_loading m "" (set_loading st true);;
          Some (set_loading (set_flag st1 (fm_id m) false) false)
      | Some r =>
          st1 <- set_str_loading m (format_result m r) (set_loading st true);;
          check_reference (fm_id m) (set_loading st1 false)
      end
  end.

Definition recalculate_formulas (st : State) : option State :=
  if loading st then Some st
  else fold_left (fun acc m => st' <- acc;; recalc_field st' m) fields (Some st).

(** *** Triggers after a bulk change, the dependency evaluator, user edits *)

(** [for trigger_id in list(self.hidden_by_trigger.keys()):
       if trigger_id in self.fields: self._update_hidden(trigger_id)] *)
Definition sync_triggers (st : State) : option State :=
  fold_left (fun acc t => st' <- acc;; if in_fields t then update_hidden t st' else Some st')
            trigger_keys (Some st).

(** One full pass of the dependency evaluator: every trigger, then every
    formula (with the range check of each recomputed formula field). *)
Definition evaluator (st : State) : option State :=
  st1 <- sync_triggers st;; recalculate_formulas st1.

(** The slots [_load_structure] connects to a field's change signal, in
    connection order. *)
Definition on_value_change (m : FieldMeta) (st : State) : option State :=
  st1 <- (if is_connected_trigger (fm_id m) then update_hidden (fm_id m) st else Some st);;
  st2 <- (if ftype_eqb (fm_type m) FNum || ftype_eqb (fm_type m) FStr
             || ftype_eqb (fm_type m) FDict
          then recalculate_formulas st1 else Some st1);;
  if is_num_or_formula m then check_reference (fm_id m) st2 else Some st2.

(** The user changes the text of field [fid] to [v]. *)
Definition edit (fid : Z) (v : string) (st : State) : option State :=
  m <- find_field fid;;
  if String.eqb (get_str st fid) v then Some st
  else on_value_change m (set_value st fid v).

(** *** Open, collect, clear *)

(** The widgets right after [_load_structure]. *)
Definition initial_state : State :=
  {| value := fun fid => match find_field fid with Some m => initial_value m | None => EmptyString end;
     visible := fun fid => match find_field fid with Some m => negb (registered m) | None => true end;
     flagged := fun _ => false;
     loading := false |}.

(** [_load_existing_protocol] given the record's saved values ([None] when
    there is no record to open). *)
Definition load_existing_protocol (values : option (list (Z * string))) (st : State)
  : option State :=
  match values with
  | None => Some st
  | Some vs =>
      st1 <- fold_left (fun acc kv =>
                          st' <- acc;;
                          match find_field (fst kv) with
                          | Some m =>
                              if String.eqb (snd kv) "" then Some st'
                              else set_str_loading m (snd kv) st'
                          | None => Some st'
                          end) vs (Some (set_loading st true));;
      sync_triggers (set_loading st1 false)
  end.

(** [build]: structure, saved values, then one formula pass. *)
Definition open_form (values : option (list (Z * string))) : option State :=
  st1 <- load_existing_protocol values initial_state;;
  recalculate_formulas st1.

(** [binding.container.isVisible()]: the container's own [setVisible] flag
    ([visible], set only by [_load_structure] and [_update_hidden]) and
    [shown fid], whether every widget around the container is shown at that
    moment: its tab's page (a [QTabWidget] shows only the current tab's
    page), its group's content (hidden while the [CollapsibleGroupBox] is
    collapsed) and the builder itself. *)
Definition container_visible (shown : Z -> bool) (st : State) (fid : Z) : bool :=
  visible st fid && shown fid.

(** [collect_values], with [shown] the display state described at
    [container_visible]. *)
Definition collect_values (shown : Z -> bool) (st : State) : list (Z * string) :=
  fold_right (fun m out =>
                if fm_is_hidden m && negb (container_visible shown st (fm_id m)) then out
                else (fm_id m, get_str st (fm_id m)) :: out) [] fields.

(** [clear_current_tab] for the tab [tab]. *)
Definition clear_current_tab (tab : Z) (st : State) : option State :=
  st1 <- fold_left (fun acc m =>
                      st' <- acc;;
                      if Z.eqb (fm_tab_id m) tab then set_str_loading m "" st'
                      else Some st') fields (Some (set_loading st true));;
  let st2 := set_loading st1 false in
  st3 <- fold_left (fun acc t =>
                      st' <- acc;;
                      let in_tab := match find_field t with
                                    | Some tm => Z.eqb (fm_tab_id tm) tab
                                    | None => false
                                    end in
                      if in_fields t && in_tab then update_hidden t st' else Some st')
                   trigger_keys (Some st2);;
  recalculate_formulas st3.

End Engine.

(** *** [repo.load_protocol_values] / [repo.save_protocol]

    The [protocol_values] rows of one record, in row order.  [INSERT OR
    REPLACE] removes the row of the same field and appends the new one;
    blank values are skipped and leave an existing row untouched. *)
Definition Store := list (Z * string).

Definition load_protocol_values (rows : Store) : list (Z * string) := rows.

Definition save_protocol (rows : Store) (values : list (Z * string)) : Store :=
  fold_left (fun rs kv =>
               if blank (snd kv) then rs
               else filter (fun r => negb (Z.eqb (fst r) (fst kv))) rs ++ [kv])
            values rows.

End Engine.

(** ** Concrete structures used by the examples *)

Module Examples.
Import Form Engine.
Local Open Scope string_scope.

Definition mk_field (id tab : Z) (tab_name group_name name : string) (t : ftype)
  (precision : option nat) (formula : option string) (is_hidden : bool)
  (trigger : option Z) (trigger_value : option string) (items : list string) : FieldMeta :=
  {| fm_id := id; fm_tab_id := tab; fm_tab_name := tab_name; fm_group_name := group_name;
     fm_name := name; fm_type := t; fm_precision := precision;
     ref_male_min := None; ref_male_max := None; ref_female_min := None; ref_female_max := None;
     fm_formula := formula; fm_is_hidden := is_hidden; fm_trigger_field_id := trigger;
     fm_trigger_value := trigger_value; fm_items := items |}.

(** Body-mass index: Tab1.G1.Weight, Tab1.G1.Height and a formula field. *)
Definition bmi_formula : string := "Tab1.G1.Weight / (Tab1.G1.Height * Tab1.G1.Height)".

Definition bmi_field : FieldMeta :=
  mk_field 3 1 "Tab1" "G1" "BMI" FFormula (Some 2%nat) (Some bmi_formula) false None None [].

Definition bmi_fields : list FieldMeta :=
  [ mk_field 1 1 "Tab1" "G1" "Weight" FNum (Some 1%nat) None false None None [];
    mk_field 2 1 "Tab1" "G1" "Height" FNum (Some 2%nat) None false None None [];
    bmi_field ].

(** A formula calling [sqrt]. *)
Definition root_field : FieldMeta :=
  mk_field 2 1 "Tab1" "G1" "Root" FFormula (Some 2%nat) (Some "sqrt(Tab1.G1.X)")
    false None None [].

Definition sqrt_fields : list FieldMeta :=
  [ mk_field 1 1 "Tab1" "G1" "X" FNum (Some 2%nat) None false None None [];
    root_field ].

(** A choice trigger with options none, A, B and a hidden field wired to it. *)
Definition trigger_fields : list FieldMeta :=
  [ mk_field 1 1 "T" "G" "Trigger" FDict None None false None None ["none"; "A"; "B"];
    mk_field 2 1 "T" "G" "Detail" FStr None None true (Some 1%Z) None [] ].

(** A trigger on tab 1 and the hidden field it governs on tab 2. *)
Definition tab_trigger_fields : list FieldMeta :=
  [ mk_field 1 1 "T1" "G" "Trigger" FDict None None false None None ["none"; "A"];
    mk_field 2 2 "T2" "G" "Detail" FStr None None true (Some 1%Z) None [] ].

(** The display state of the builder with tab [t] current and every group
    expanded: the surroundings of a field's container are shown exactly
    when the field is on tab [t]. *)
Definition on_tab (F : list FieldMeta) (t : Z) (fid : Z) : bool :=
  match find_field F fid with Some m => Z.eqb (fm_tab_id m) t | None => false end.

(** A hidden field whose trigger id names no field of the structure. *)
Definition orphan_fields : list FieldMeta :=
  [ mk_field 1 1 "T" "G" "Plain" FStr None None false None None [];
    mk_field 2 1 "T" "G" "Detail" FStr None None true (Some 99%Z) (Some "yes") [] ].

(** Two tabs; a formula of tab 2 reads a number of tab 1. *)
Definition tab_fields : list FieldMeta :=
  [ mk_field 1 1 "T1" "G" "X" FNum (Some 0%nat) None false None None [];
    mk_field 2 1 "T1" "G" "Day" FDate None None false None None [];
    mk_field 3 2 "T2" "G" "Double" FFormula (Some 0%nat) (Some "T1.G.X * 2")
      false None None [] ].

(** Formulas reading formulas that come later in field order. *)
Definition chain_fields : list FieldMeta :=
  [ mk_field 1 1 "T" "G" "X" FNum (Some 0%nat) None false None None [];
    mk_field 2 1 "T" "G" "F1" FFormula (Some 0%nat) (Some "T.G.F2 * 2") false None None [];
    mk_field 3 1 "T" "G" "F2" FFormula (Some 0%nat) (Some "T.G.F3 + 1") false None None [];
    mk_field 4 1 "T" "G" "F3" FFormula (Some 0%nat) (Some "T.G.X + 1") false None None [] ].

(** A number with the male reference range [3.0, 5.0]. *)
Definition range_fields : list FieldMeta :=
  [ {| fm_id := 1; fm_tab_id := 1; fm_tab_name := "T"; fm_group_name := "G";
       fm_name := "X"; fm_type := FNum; fm_precision := Some 1%nat;
       ref_male_min := Some 3; ref_male_max := Some 5;
       ref_female_min := None; ref_female_max := None;
       fm_formula := None; fm_is_hidden := false; fm_trigger_field_id := None;
       fm_trigger_value := None; fm_items := [] |} ].

(** A formula reading a field that a trigger can hide. *)
Definition hidden_input_fields : list FieldMeta :=
  [ mk_field 1 1 "T" "G" "Trigger" FDict None None false None None ["none"; "A"];
    mk_field 2 1 "T" "G" "H" FNum (Some 0%nat) None true (Some 1%Z) None [];
    mk_field 3 1 "T" "G" "F" FFormula (Some 0%nat) (Some "T.G.H * 2") false None None [] ].

(** A hidden field wired to a free-text field, with the legacy trigger value. *)
Definition legacy_fields : list FieldMeta :=
  [ mk_field 1 1 "T" "G" "Answer" FStr None None false None None [];
    mk_field 2 1 "T" "G" "Detail" FStr None None true (Some 1%Z) (Some "yes") [] ].

(** A single free-text line. *)
Definition line_fields : list FieldMeta :=
  [ mk_field 1 1 "T" "G" "Note" FStr None None false None None [] ].

(** A hidden field whose trigger id is 0, and a plain field. *)
Definition zero_trigger_fields : list FieldMeta :=
  [ mk_field 1 1 "T" "G" "Plain" FStr None None false None None [];
    mk_field 2 1 "T" "G" "Detail" FStr None None true (Some 0%Z) None [] ].

Definition male : string := "муж".

(** A state holding the given texts, every field shown and unflagged. *)
Definition with_values (kvs : list (Z * string)) : State :=
  {| value := fun x => match find (fun kv => Z.eqb (fst kv) x) kvs with
                       | Some kv => snd kv
                       | None => ""
                       end;
     visible := fun _ => true; flagged := fun _ => false; loading := false |}.

(** [str(x)] of a float, only needed where no precision is configured. *)
Definition some_repr (q : Q) : string := Num.format_comma q 6.

End Examples.

(** ** Derived descriptions used in the statements

    These restate, per field, what the engine's operations leave behind;
    the lemmas below prove that the operations agree with them. *)

Module Derived.
Import Text Form Engine.
Local Open Scope string_scope.

Section Derived.
Variable fields : list FieldMeta.
Variable patient_gender : string.
Variable float_repr : Q -> string.

(** A field the formula pass rewrites: a formula field with a non-empty formula. *)
Definition written (m : FieldMeta) : bool :=
  ftype_eqb (fm_type m) FFormula &&
  match fm_formula m with Some (String _ _) => true | _ => false end.

(** The hidden ids registered under key [k] of a [hidden_by_trigger]-shaped list. *)
Definition lk (acc : list (Z * list Z)) (k : Z) : list Z :=
  match find (fun p => Z.eqb (fst p) k) acc with Some (_, hs) => hs | None => [] end.

(** The visibility of field [h] once every connected trigger has been
    applied to the state [st]. *)
Definition sync_vis (st : State) (h : Z) : bool :=
  match find_field fields h with
  | Some hm =>
      if registered hm then
        match fm_trigger_field_id hm with
        | Some t =>
            match find_field fields t with
            | Some tm => show_for tm (strip (value st t)) hm
            | None => visible st h
            end
        | None => visible st h
        end
      else visible st h
  | None => visible st h
  end.

(** The text and the out-of-range flag a number or formula field [m]
    holding [s] has after [_check_reference], given its previous flag. *)
Definition check_outcome (m : FieldMeta) (s : string) (old : bool) : string * bool :=
  let txt := strip s in
  if String.eqb txt "" then (s, false) else
  match Num.parse_float (replace_char ","%char "."%char txt) with
  | None => (s, old)
  | Some v =>
      let '(val, s2) :=
        match fm_precision m with
        | Some p => (Num.round_q v p, Num.format_comma v p)
        | None => (v, s)
        end in
      match current_ref_range patient_gender m with
      | (Some rmin, Some rmax) => (s2, negb (Qle_bool rmin val && Qle_bool val rmax))
      | _ => (s2, old)
      end
  end.

(** The text and flag one recomputation leaves in the formula field [m]
    when the evaluation gave [r]. *)
Definition recalc_outcome (m : FieldMeta) (r : option Q) (old : bool) : string * bool :=
  match r with
  | None => ("", false)
  | Some q => check_outcome m (format_result float_repr m q) old
  end.

(** The hidden fields registered under trigger [k]. *)
Definition trig_is (k : Z) (m : FieldMeta) : bool :=
  registered m && match fm_trigger_field_id m with Some t => Z.eqb t k | None => false end.

(** One step of the formula pass over [self.fields]. *)
Definition recalc_step (acc : option State) (m : FieldMeta) : option State :=
  st' <- acc;; recalc_field fields patient_gender float_repr st' m.

(** One step of the trigger pass over the keys of [hidden_by_trigger]. *)
Definition sync_step (acc : option State) (t : Z) : option State :=
  st' <- acc;; if in_fields fields t then update_hidden fields t st' else Some st'.

(** No formula reads a field the formula pass rewrites. *)
Definition no_chain : Prop :=
  forall m f r fid m', In m fields -> written m = true -> fm_formula m = Some f ->
    In r (Refs.findall f) -> resolve_fid fields r = Some fid ->
    In m' fields -> fm_id m' = fid -> written m' = false.

(** A field no connected trigger can show or hide. *)
Definition untouchable (x : Z) : Prop :=
  forall t, in_fields fields t = true -> ~ In x (lk (hidden_by_trigger fields) t).

(** The range rule for a number or formula field [m] whose text becomes
    [s]: [old] is the out-of-range flag before, [new] the flag after. *)
Definition flag_rule (m : FieldMeta) (s : string) (old new : bool) : Prop :=
  (blank s = true -> new = false) /\
  (blank s = false -> Num.parse_float (replace_char ","%char "."%char (strip s)) = None ->
   new = old) /\
  (forall q, blank s = false ->
   Num.parse_float (replace_char ","%char "."%char (strip s)) = Some q ->
   let q' := match fm_precision m with Some p => Num.round_q q p | None => q end in
   match current_ref_range patient_gender m with
   | (Some rmin, Some rmax) => new = negb (Qle_bool rmin q' && Qle_bool q' rmax)
   | _ => new = old
   end).

(** A decision procedure for [no_chain]. *)
Definition no_chain_b : bool :=
  forallb (fun m =>
    negb (written m) ||
    match fm_formula m with
    | Some f =>
        forallb (fun r =>
          match resolve_fid fields r with
          | Some fid => forallb (fun m' => negb (Z.eqb (fm_id m') fid) || negb (written m')) fields
          | None => true
          end) (Refs.findall f)
    | None => true
    end) fields.

(** One step of the loop of [_load_existing_protocol] over the saved values. *)
Definition load_step (acc : option State) (kv : Z * string) : option State :=
  st' <- acc;;
  match find_field fields (fst kv) with
  | Some m => if String.eqb (snd kv) "" then Some st' else set_str_loading fields m (snd kv) st'
  | None => Some st'
  end.

(** The two loops of [clear_current_tab]. *)
Definition clear_step (tab : Z) (acc : option State) (m : FieldMeta) : option State :=
  st' <- acc;; if Z.eqb (fm_tab_id m) tab then set_str_loading fields m "" st' else Some st'.

Definition clear_trigger_step (tab : Z) (acc : option State) (t : Z) : option State :=
  st' <- acc;;
  let in_tab := match find_field fields t with
                | Some tm => Z.eqb (fm_tab_id tm) tab
                | None => false
                end in
  if in_fields fields t && in_tab then update_hidden fields t st' else Some st'.

(** Whether clearing tab [tab] empties the widget of [m]: a date or time
    edit does not take the empty string. *)
Definition emptied_by (tab : Z) (m : FieldMeta) : bool :=
  Z.eqb (fm_tab_id m) tab &&
  match widget_of m with WDate | WTime => false | _ => true end.

(** The visibility the trigger rule gives field [h] in state [st]: shown
    unless registered under a trigger; a registered field follows its
    trigger, and stays hidden when the trigger names no field. *)
Definition vis_expected (st : State) (h : Z) : bool :=
  match find_field fields h with
  | Some hm =>
      if registered hm then
        match fm_trigger_field_id hm with
        | Some t =>
            match find_field fields t with
            | Some tm => show_for tm (strip (value st t)) hm
            | None => false
            end
        | None => false
        end
      else true
  | None => true
  end.

End Derived.

(** Pointwise equality of two form states. *)
Definition st_eq (s1 s2 : State) : Prop :=
  (forall x, value s1 x = value s2 x) /\ (forall x, visible s1 x = visible s2 x) /\
  (forall x, flagged s1 x = flagged s2 x) /\ loading s1 = loading s2.

(** Whitespace-only values read back as the empty string. *)
Definition normalize (kvs : list (Z * string)) : list (Z * string) :=
  map (fun kv => (fst kv, if blank (snd kv) then "" else snd kv)) kvs.

(** The value column of the [protocol_values] row of field [fid] in the rows
    of one record ([SELECT value ... WHERE field_id = ?]). *)
Definition stored (rows : Store) (fid : Z) : option string :=
  option_map snd (find (fun r => Z.eqb (fst r) fid) rows).

End Derived.

(** ** Display order in the structure tables ([repo.py]) *)

(** The [move_*] and [create_*] functions of [repo.py] over one table, a
    list of rows. A row carries the columns these functions read or write:
    the primary key [id], the parent the listings filter on (nothing for a
    study type, [study_type_id] of a tab, [tab_id] of a group, [field_id] of
    a dictionary value, [(group_id, column_num)] of a field) and the
    nullable [display_order]. The other columns are neither read nor
    written by these functions. *)
Module Repo.
Local Open Scope Z_scope.

Record Row (P : Type) := mkRow { row_id : Z; row_parent : P; row_order : option Z }.
Arguments mkRow {P} _ _ _.
Arguments row_id {P} _.
Arguments row_parent {P} _.
Arguments row_order {P} _.

Definition with_order {P} (r : Row P) (o : option Z) : Row P :=
  mkRow (row_id r) (row_parent r) o.

(** The row order of [ORDER BY display_order, id]: SQLite sorts NULL
    before every integer. *)
Definition key_ltb {P} (r s : Row P) : bool :=
  match row_order r, row_order s with
  | None, None => row_id r <? row_id s
  | None, Some _ => true
  | Some _, None => false
  | Some a, Some b => (a <? b) || ((a =? b) && (row_id r <? row_id s))
  end.

Fixpoint insert_row {P} (r : Row P) (l : list (Row P)) : list (Row P) :=
  match l with
  | [] => [r]
  | s :: t => if key_ltb s r then s :: insert_row r t else r :: l
  end.

Definition order_by {P} (l : list (Row P)) : list (Row P) := fold_right insert_row [] l.

(** [SELECT id, display_order FROM t WHERE ... ORDER BY display_order, id]. *)
Definition select {P} (where_ : Row P -> bool) (rows : list (Row P)) : list (Row P) :=
  order_by (filter where_ rows).

(** [r] comes no later than [s] in that order. *)
Definition key_le {P} (r s : Row P) : Prop := key_ltb s r = false.

(** A strictly smaller, non-NULL display order. *)
Definition ord_lt (a b : option Z) : Prop :=
  match a, b with Some a, Some b => a < b | _, _ => False end.

(** [int(x or 0)] on a nullable integer column. *)
Definition or0 (o : option Z) : Z := match o with Some z => z | None => 0 end.

(** [int(x or 1)]: NULL and 0 both give 1. *)
Definition or1 (o : option Z) : Z :=
  match o with Some z => if z =? 0 then 1 else z | None => 1 end.

(** [UPDATE t SET display_order = ? WHERE id = ?]. *)
Definition set_order {P} (id o : Z) (rows : list (Row P)) : list (Row P) :=
  map (fun r => if row_id r =? id then with_order r (Some o) else r) rows.

(** [ids.index(x)], [None] when [x not in ids]. *)
Fixpoint index_of (x : Z) (l : list Z) : option nat :=
  match l with
  | [] => None
  | y :: t => if y =? x then Some O else option_map S (index_of x t)
  end.

(** The body the [move_*] functions share once the rows to reorder are
    chosen by [where_]: [rows = SELECT ...], [ids = [...]], the membership
    and bounds checks, and the two [UPDATE]s. *)
Definition move_among {P} (where_ : Row P -> bool) (target dir : Z) (rows : list (Row P))
    : list (Row P) :=
  let sel := select where_ rows in
  let ids := map row_id sel in
  match index_of target ids with
  | None => rows
  | Some i =>
      let j := Z.of_nat i + dir in
      if (j <? 0) || (j >=? Z.of_nat (length ids)) then rows else
      match nth_error sel i, nth_error sel (Z.to_nat j) with
      | Some a, Some b =>
          set_order (row_id b) (or0 (row_order a)) (set_order (row_id a) (or0 (row_order b)) rows)
      | _, _ => rows
      end
  end.

(** [move_study_type(study_type_id, direction)]. *)
Definition move_study_type (target dir : Z) (rows : list (Row unit)) : list (Row unit) :=
  move_among (fun _ => true) target dir rows.

(** [move_tab], [move_group] and [move_dictionary_value]: the row's parent
    is read first ([if not row: return]), then its siblings are reordered. *)
Definition move_child (target dir : Z) (rows : list (Row Z)) : list (Row Z) :=
  match find (fun r => row_id r =? target) rows with
  | None => rows
  | Some row => move_among (fun r => row_parent r =? row_parent row) target dir rows
  end.

Definition move_tab := move_child.
Definition move_group := move_child.
Definition move_dictionary_value := move_child.

(** The rows of one group and column: [WHERE group_id = ? AND column_num = ?]
    (a NULL [column_num] equals nothing). *)
Definition in_column (g col : Z) (r : Row (Z * option Z)) : bool :=
  (fst (row_parent r) =? g) &&
  match snd (row_parent r) with Some c => c =? col | None => false end.

(** [move_field(field_id, direction)]. *)
Definition move_field (target dir : Z) (rows : list (Row (Z * option Z)))
    : list (Row (Z * option Z)) :=
  match find (fun r => row_id r =? target) rows with
  | None => rows
  | Some row =>
      move_among (in_column (fst (row_parent row)) (or1 (snd (row_parent row)))) target dir rows
  end.

(** [list_tabs], [list_groups], [list_dictionary_values]: the rows of one
    parent, [ORDER BY display_order, id]. *)
Definition list_children (p : Z) (rows : list (Row Z)) : list (Row Z) :=
  select (fun r => row_parent r =? p) rows.

(** [SELECT COALESCE(MAX(display_order), 0) FROM t WHERE ...]: MAX skips
    NULL and is NULL on no value. *)
Definition max_order {P} (where_ : Row P -> bool) (rows : list (Row P)) : Z :=
  or0 (fold_left (fun acc r =>
                    match row_order r with
                    | Some z => match acc with Some m => Some (Z.max m z) | None => Some z end
                    | None => acc
                    end) (filter where_ rows) None).

(** [create_tab], [create_group], [create_dictionary_value]: a new row of
    parent [p] with [display_order = max + 1]; [new_id] is the id the
    database assigns ([cur.lastrowid]). *)
Definition create_child (p new_id : Z) (rows : list (Row Z)) : list (Row Z) :=
  rows ++ [mkRow new_id p (Some (max_order (fun r => row_parent r =? p) rows + 1))].

Definition create_tab := create_child.
Definition create_group := create_child.
Definition create_dictionary_value := create_child.

(** Example tables. Tabs 1, 2, 3 of study type 10 and tab 4 of study type
    20; a tab of study type 10 whose two neighbours share a display order. *)
Definition example_tabs : list (Row Z) :=
  [mkRow 1 10 (Some 1); mkRow 2 10 (Some 2); mkRow 3 10 (Some 3); mkRow 4 20 (Some 1)].

Definition example_tied_tabs : list (Row Z) :=
  [mkRow 1 10 (Some 1); mkRow 2 10 (Some 1); mkRow 3 10 (Some 2)].

(** Fields of group 5: two in column 1, one in column 2, one with a NULL
    column and one in column 0. *)
Definition example_fields : list (Row (Z * option Z)) :=
  [mkRow 1 (5, Some 1) (Some 1); mkRow 2 (5, Some 1) (Some 2); mkRow 3 (5, Some 2) (Some 1);
   mkRow 4 (5, None) (Some 3); mkRow 5 (5, Some 0) (Some 4)].

Definition example_study_types : list (Row unit) :=
  [mkRow 1 tt (Some 2); mkRow 2 tt (Some 1)].

End Repo.

(** ** Lemmas on the engine *)

Module Facts.
Import Text Form Engine Derived.

Section Facts.
Variable fields : list FieldMeta.
Variable patient_gender : string.
Variable float_repr : Q -> string.

Local Abbreviation recalc_step := (Derived.recalc_step fields patient_gender float_repr).
Local Abbreviation sync_step := (Derived.sync_step fields).
Local Abbreviation no_chain := (Derived.no_chain fields).
Local Abbreviation no_chain_b := (Derived.no_chain_b fields).
Local Abbreviation untouchable := (Derived.untouchable fields).
Local Abbreviation load_step := (Derived.load_step fields).
Local Abbreviation clear_step := (Derived.clear_step fields).
Local Abbreviation clear_trigger_step := (Derived.clear_trigger_step fields).
Local Abbreviation vis_expected := (Derived.vis_expected fields).

Lemma obind_some {A B} (m : option A) (k : A -> option B) (b : B) :
  obind m k = Some b -> exists a, m = Some a /\ k a = Some b.
Proof. destruct m as [a|]; simpl; [eauto | discriminate]. Qed.

Lemma fold_none {A B} (f : A -> B -> option A) (l : list B) :
  fold_left (fun acc x => st <- acc;; f st x) l None = None.
Proof. induction l; simpl; auto. Qed.

(** *** Looking fields up *)

Lemma find_field_some (x : Z) (m : FieldMeta) :
  find_field fields x = Some m -> In m fields /\ fm_id m = x.
Proof.
  unfold find_field; intro H. apply find_some in H as [H1 H2].
  split; [exact H1 | now apply Z.eqb_eq].
Qed.

Lemma find_field_in (m : FieldMeta) :
  In m fields -> exists m', find_field fields (fm_id m) = Some m'.
Proof.
  unfold find_field. induction fields as [|a l IH]; simpl; intros Hin; [contradiction|].
  destruct (Z.eqb (fm_id a) (fm_id m)) eqn:E; [eauto|].
  destruct Hin as [<-|Hin]; [now rewrite Z.eqb_refl in E | auto].
Qed.

Lemma in_fields_of (m : FieldMeta) : In m fields -> in_fields fields (fm_id m) = true.
Proof.
  intro H. apply find_field_in in H as [m' Hm]. unfold in_fields. now rewrite Hm.
Qed.

Lemma find_field_nodup (m : FieldMeta) :
  NoDup (map fm_id fields) -> In m fields -> find_field fields (fm_id m) = Some m.
Proof.
  unfold find_field. induction fields as [|a l IH]; simpl; intros Hnd Hin; [contradiction|].
  inversion Hnd as [|? ? Hnotin Hnd']; subst.
  destruct Hin as [<-|Hin]; [now rewrite Z.eqb_refl|].
  destruct (Z.eqb (fm_id a) (fm_id m)) eqn:E.
  - apply Z.eqb_eq in E. exfalso. apply Hnotin. rewrite E. now apply in_map.
  - auto.
Qed.

(** *** The [hidden_by_trigger] table *)

Lemma lk_setdefault (acc : list (Z * list Z)) (t h k : Z) :
  lk (setdefault_append acc t h) k = if Z.eqb k t then lk acc k ++ [h] else lk acc k.
Proof.
  unfold lk. induction acc as [|[t' hs] r IH]; simpl.
  - rewrite Z.eqb_sym. destruct (Z.eqb k t); reflexivity.
  - destruct (Z.eqb_spec t t') as [E1|E1]; simpl;
      destruct (Z.eqb_spec t' k) as [E2|E2]; simpl;
      destruct (Z.eqb_spec k t) as [E3|E3]; subst; simpl;
      try (rewrite Z.eqb_refl); try reflexivity; try congruence.
Qed.

Lemma lk_hidden_by_trigger (k : Z) :
  lk (hidden_by_trigger fields) k = map fm_id (filter (trig_is k) fields).
Proof.
  unfold hidden_by_trigger.
  assert (G : forall l acc,
    lk (fold_left (fun acc m =>
                     if registered m then
                       match fm_trigger_field_id m with
                       | Some t => setdefault_append acc t (fm_id m)
                       | None => acc
                       end
                     else acc) l acc) k = lk acc k ++ map fm_id (filter (trig_is k) l)).
  { induction l as [|m l IH]; intros acc; simpl.
    - now rewrite app_nil_r.
    - rewrite IH. unfold trig_is. destruct (registered m) eqn:R; simpl.
      + destruct (fm_trigger_field_id m) as [t|]; simpl.
        * rewrite lk_setdefault, (Z.eqb_sym t k). destruct (Z.eqb k t); simpl;
            [now rewrite <- app_assoc | reflexivity].
        * reflexivity.
      + reflexivity. }
  now rewrite G.
Qed.

Lemma hidden_of_lk (t : Z) (hs : list Z) :
  hidden_of fields t = Some hs -> hs = lk (hidden_by_trigger fields) t.
Proof.
  unfold hidden_of, lk. destruct (find _ _) as [[k l]|]; congruence.
Qed.

Lemma in_lk (t h : Z) :
  In h (lk (hidden_by_trigger fields) t) <->
  exists hm, In hm fields /\ fm_id hm = h /\ trig_is t hm = true.
Proof.
  rewrite lk_hidden_by_trigger, in_map_iff. split.
  - intros [hm [<- Hf]]. apply filter_In in Hf as [H1 H2]. eauto.
  - intros [hm [H1 [<- H2]]]. exists hm. split; [reflexivity|]. now apply filter_In.
Qed.

Lemma hidden_of_in_fields (t h : Z) (hs : list Z) :
  hidden_of fields t = Some hs -> In h hs -> find_field fields h <> None.
Proof.
  intros Hh Hin. apply hidden_of_lk in Hh; subst.
  apply in_lk in Hin as [hm [H1 [<- _]]].
  apply find_field_in in H1 as [m' ->]. discriminate.
Qed.

Lemma hidden_of_none_lk (t : Z) :
  hidden_of fields t = None -> lk (hidden_by_trigger fields) t = [].
Proof. unfold hidden_of, lk. destruct (find _ _) as [[k l]|]; congruence. Qed.

(** *** [_update_hidden] *)

Lemma update_hidden_spec (t : Z) (st st' : State) :
  update_hidden fields t st = Some st' ->
  value st' = value st /\ flagged st' = flagged st /\ loading st' = loading st /\
  forall x, visible st' x =
    if existsb (Z.eqb x) (lk (hidden_by_trigger fields) t) then
      match find_field fields t, find_field fields x with
      | Some tm, Some hm => show_for tm (strip (value st t)) hm
      | _, _ => visible st x
      end
    else visible st x.
Proof.
  unfold update_hidden. destruct (hidden_of fields t) as [hs|] eqn:Hh.
  - apply hidden_of_lk in Hh. subst hs.
    destruct (find_field fields t) as [tm|] eqn:Ht; simpl; [|discriminate].
    unfold get_str. generalize (strip (value st t)) as tv. intro tv.
    generalize (lk (hidden_by_trigger fields) t) as l. intro l.
    revert st. induction l as [|h l IH]; intros s Hf; simpl in Hf |- *.
    + injection Hf as <-. auto.
    + destruct (find_field fields h) as [hm|] eqn:Hfh; simpl in Hf;
        [|rewrite fold_none in Hf; discriminate].
      apply IH in Hf as (E1 & E2 & E3 & E4). simpl in E1, E2, E3.
      repeat split; auto. intro x. rewrite E4. simpl.
      destruct (Z.eqb_spec x h) as [->|Hne]; simpl.
      * rewrite Hfh. unfold upd. rewrite Z.eqb_refl.
        destruct (existsb _ l); reflexivity.
      * unfold upd. destruct (Z.eqb_spec x h); [congruence|].
        destruct (existsb _ l); [destruct (find_field fields x)|]; reflexivity.
  - intro H. injection H as <-. rewrite hidden_of_none_lk by exact Hh. auto.
Qed.

Lemma update_hidden_some (t : Z) (st : State) :
  in_fields fields t = true \/ hidden_of fields t = None ->
  exists st', update_hidden fields t st = Some st'.
Proof.
  unfold update_hidden. intro Hc.
  destruct (hidden_of fields t) as [hs|] eqn:Hh; [|eauto].
  destruct (find_field fields t) as [tm|] eqn:Ht; simpl.
  - assert (Hin : forall h, In h hs -> find_field fields h <> None)
      by (intros h; now apply hidden_of_in_fields with t).
    generalize (strip (get_str st t)) as tv. intro tv. clear Hh Hc.
    revert st Hin. induction hs as [|h l IH]; intros s Hin; simpl; [eauto|].
    destruct (find_field fields h) as [hm|] eqn:Hfh; simpl.
    + apply IH. intros h' H'. apply Hin. now right.
    + exfalso. apply (Hin h); auto. now left.
  - unfold in_fields in Hc. rewrite Ht in Hc. destruct Hc; discriminate.
Qed.

Lemma update_hidden_frame (t : Z) (st st' : State) (x : Z) :
  update_hidden fields t st = Some st' ->
  ~ In x (lk (hidden_by_trigger fields) t) -> visible st' x = visible st x.
Proof.
  intros H Hn. apply update_hidden_spec in H as (_ & _ & _ & E). rewrite E.
  destruct (existsb (Z.eqb x) _) eqn:Ex; [|reflexivity].
  apply existsb_exists in Ex as [y [Hy Ey]]. apply Z.eqb_eq in Ey. subst y. contradiction.
Qed.

(** *** [FieldBinding.set_str] with the loading guard *)

Lemma set_str_frame (m : FieldMeta) (v : string) (st : State) :
  visible (set_str m v st) = visible st /\ flagged (set_str m v st) = flagged st /\
  loading (set_str m v st) = loading st /\
  forall x, x <> fm_id m -> value (set_str m v st) x = value st x.
Proof.
  unfold set_str, set_value, upd.
  destruct (widget_of m); try destruct (valid_date v); try destruct (valid_time v);
    simpl; repeat split; intros x Hx; try reflexivity;
    destruct (Z.eqb_spec x (fm_id m)); congruence.
Qed.

Lemma set_str_line (m : FieldMeta) (v : string) (st : State) :
  widget_of m <> WDate -> widget_of m <> WTime -> value (set_str m v st) (fm_id m) = v.
Proof.
  intros H1 H2. unfold set_str, set_value, upd.
  destruct (widget_of m); try congruence; simpl; now rewrite Z.eqb_refl.
Qed.

Lemma set_str_loading_spec (m : FieldMeta) (v : string) (st st' : State) :
  set_str_loading fields m v st = Some st' ->
  value st' = value (set_str m v st) /\ flagged st' = flagged st /\
  loading st' = loading st /\
  (forall x, ~ In x (lk (hidden_by_trigger fields) (fm_id m)) -> visible st' x = visible st x) /\
  (is_connected_trigger fields (fm_id m) = false -> st' = set_str m v st).
Proof.
  destruct (set_str_frame m v st) as (F1 & F2 & F3 & _).
  unfold set_str_loading.
  destruct (emits m (get_str st (fm_id m)) v && is_connected_trigger fields (fm_id m)) eqn:E.
  - intro H. pose proof H as H'. apply update_hidden_spec in H as (E1 & E2 & E3 & _).
    rewrite E1, E2, E3, F2, F3. repeat split; auto.
    + intros x Hx. rewrite (update_hidden_frame _ _ _ _ H' Hx). now rewrite F1.
    + intro Hc. rewrite Hc, andb_false_r in E. discriminate.
  - intro H. injection H as <-. rewrite F1, F2, F3. repeat split; auto.
Qed.

Lemma set_str_loading_some (m : FieldMeta) (v : string) (st : State) :
  exists st', set_str_loading fields m v st = Some st'.
Proof.
  unfold set_str_loading.
  destruct (emits m (get_str st (fm_id m)) v && is_connected_trigger fields (fm_id m)) eqn:E;
    [|eauto].
  apply update_hidden_some. left. apply andb_true_iff in E as [_ E].
  unfold is_connected_trigger in E. destruct (hidden_of fields (fm_id m)); congruence.
Qed.

(** *** [_check_reference] *)

Lemma widget_num (m : FieldMeta) : is_num_or_formula m = true -> widget_of m = WLineEdit.
Proof. unfold is_num_or_formula, widget_of. destruct (fm_type m); simpl; congruence. Qed.

Lemma check_reference_frame (fid : Z) (st st' : State) :
  check_reference fields patient_gender fid st = Some st' ->
  loading st' = loading st /\
  (forall x, x <> fid -> value st' x = value st x /\ flagged st' x = flagged st x) /\
  (forall x, ~ In x (lk (hidden_by_trigger fields) fid) -> visible st' x = visible st x).
Proof.
  unfold check_reference.
  destruct (loading st) eqn:L; [intro H; injection H as <-; auto|].
  destruct (find_field fields fid) as [b|] eqn:Hb; [|intro H; injection H as <-; auto].
  apply find_field_some in Hb as [_ Hid].
  destruct (negb (is_num_or_formula b)); [intro H; injection H as <-; auto|].
  destruct (String.eqb _ _).
  { intro H; injection H as <-. simpl. split; [exact L|split].
    - intros x Hx. unfold upd. destruct (Z.eqb_spec x fid); [congruence|auto].
    - intros x Hx. reflexivity. }
  destruct (Num.parse_float _) as [v|]; [|intro H; injection H as <-; auto].
  intro H. apply obind_some in H as [[val st2] [Hres Hfin]].
  assert (P : loading st2 = false /\
              (forall x, x <> fid -> value st2 x = value st x /\ flagged st2 x = flagged st x) /\
              (forall x, ~ In x (lk (hidden_by_trigger fields) fid) -> visible st2 x = visible st x)).
  { destruct (fm_precision b) as [p|]; [|injection Hres as <- <-; auto].
    destruct (widget_of b); try (injection Hres as <- <-; auto; fail).
    apply obind_some in Hres as [st1 [Hs Hr]]. injection Hr as <- <-.
    apply set_str_loading_spec in Hs as (E1 & E2 & E3 & E4 & _).
    destruct (set_str_frame b (Num.format_comma v p) (set_loading st true)) as (_ & _ & _ & F4).
    simpl. split; [reflexivity|split].
    - intros x Hx. rewrite E1, F4, E2 by congruence. split; reflexivity.
    - intros x Hx. rewrite E4 by congruence. reflexivity. }
  destruct P as (P1 & P2 & P3).
  destruct (current_ref_range patient_gender b) as [[rmin|] [rmax|]];
    injection Hfin as <-; simpl; (split; [exact P1|split]); auto.
  intros x Hx. unfold upd. destruct (Z.eqb_spec x fid); [congruence|auto].
Qed.

Lemma check_reference_some (fid : Z) (st : State) :
  exists st', check_reference fields patient_gender fid st = Some st'.
Proof.
  unfold check_reference.
  destruct (loading st); [eauto|].
  destruct (find_field fields fid) as [b|]; [|eauto].
  destruct (negb (is_num_or_formula b)); [eauto|].
  destruct (String.eqb _ _); [eauto|].
  destruct (Num.parse_float _) as [v|]; [|eauto].
  destruct (fm_precision b) as [p|]; simpl.
  - destruct (widget_of b); simpl;
      try (destruct (current_ref_range patient_gender b) as [[?|] [?|]]; eauto; fail).
    destruct (set_str_loading_some b (Num.format_comma v p) (set_loading st true)) as [st1 ->].
    simpl. destruct (current_ref_range patient_gender b) as [[?|] [?|]]; eauto.
  - destruct (current_ref_range patient_gender b) as [[?|] [?|]]; eauto.
Qed.

Lemma check_reference_spec (fid : Z) (m : FieldMeta) (st st' : State) :
  loading st = false -> find_field fields fid = Some m -> is_num_or_formula m = true ->
  check_reference fields patient_gender fid st = Some st' ->
  (value st' fid, flagged st' fid) =
    check_outcome patient_gender m (value st fid) (flagged st fid).
Proof.
  intros L Hm Hnf. pose proof (find_field_some _ _ Hm) as [_ Hid].
  pose proof (widget_num m Hnf) as Hw.
  unfold check_reference, check_outcome, get_str. rewrite L, Hm, Hnf. simpl.
  destruct (String.eqb _ _).
  { intro H; injection H as <-. simpl. unfold upd. now rewrite Z.eqb_refl. }
  destruct (Num.parse_float _) as [v|]; [|intro H; injection H as <-; reflexivity].
  destruct (fm_precision m) as [p|]; simpl.
  - rewrite Hw. simpl.
    destruct (set_str_loading_some m (Num.format_comma v p) (set_loading st true)) as [st1 Hs].
    rewrite Hs. simpl.
    apply set_str_loading_spec in Hs as (E1 & E2 & _).
    assert (V : value st1 fid = Num.format_comma v p).
    { rewrite E1, <- Hid. apply set_str_line; rewrite Hw; discriminate. }
    destruct (current_ref_range patient_gender m) as [[rmin|] [rmax|]];
      intro H; injection H as <-; simpl; unfold upd; rewrite ?Z.eqb_refl, V, ?E2; reflexivity.
  - destruct (current_ref_range patient_gender m) as [[rmin|] [rmax|]];
      intro H; injection H as <-; simpl; unfold upd; rewrite ?Z.eqb_refl; reflexivity.
Qed.

(** *** [_evaluate_formula] reads only the referenced fields *)

Lemma resolve_all_congr (s1 s2 : State) (refs : list (string * string * string)) :
  (forall r fid, In r refs -> resolve_fid fields r = Some fid ->
                 read_value s1 fid = read_value s2 fid) ->
  forall acc, resolve_all fields s1 refs acc = resolve_all fields s2 refs acc.
Proof.
  induction refs as [|r rs IH]; intros H acc; simpl; [reflexivity|].
  destruct (resolve_fid fields r) as [fid|] eqn:Hr; simpl; [|reflexivity].
  rewrite (H r fid) by (auto; now left).
  destruct (read_value s2 fid); simpl; [|reflexivity].
  apply IH. intros r' fid' Hin. apply H. now right.
Qed.

Lemma evaluate_formula_congr (s1 s2 : State) (f : string) :
  (forall r fid, In r (Refs.findall f) -> resolve_fid fields r = Some fid ->
                 read_value s1 fid = read_value s2 fid) ->
  evaluate_formula fields s1 f = evaluate_formula fields s2 f.
Proof.
  intro H. unfold evaluate_formula. now rewrite (resolve_all_congr s1 s2 _ H).
Qed.

Lemma resolve_fid_in (r : string * string * string) (fid : Z) :
  resolve_fid fields r = Some fid -> exists m, In m fields /\ fm_id m = fid.
Proof.
  assert (Hfind : option_map fm_id
            (find (fun m => String.eqb (strip (fm_name m)) (strip (ref_field_name r))
                            && in_fields fields (fm_id m)) fields) = Some fid ->
          exists m, In m fields /\ fm_id m = fid).
  { destruct (find _ fields) as [m|] eqn:E; simpl; [|discriminate].
    intro H; injection H as <-. apply find_some in E as [E _]. eauto. }
  unfold resolve_fid. destruct (field_id_by_path fields (ref_key r)) as [k|]; [|exact Hfind].
  destruct (in_fields fields k) eqn:Ek; [|exact Hfind].
  intro H; injection H as <-. unfold in_fields in Ek.
  destruct (find_field fields k) as [m|] eqn:Em; [|discriminate].
  apply find_field_some in Em as [E1 E2]. eauto.
Qed.

(** *** [_recalculate_formulas] *)

Lemma not_connected_lk (fid : Z) :
  in_fields fields fid = true -> is_connected_trigger fields fid = false ->
  lk (hidden_by_trigger fields) fid = [].
Proof.
  unfold is_connected_trigger. intros H1 H2.
  destruct (hidden_of fields fid) eqn:Hh; [congruence|]. now apply hidden_of_none_lk.
Qed.

Lemma written_formula (m : FieldMeta) (f : string) :
  written m = true -> fm_formula m = Some f ->
  ftype_eqb (fm_type m) FFormula = true /\ exists c r, f = String c r.
Proof.
  unfold written. intros H Hf. rewrite Hf in H. apply andb_true_iff in H as [H1 H2].
  split; [exact H1|]. destruct f; [discriminate|eauto].
Qed.

Lemma written_num (m : FieldMeta) : written m = true -> is_num_or_formula m = true.
Proof.
  unfold written, is_num_or_formula. intro H. apply andb_true_iff in H as [H _].
  rewrite H. apply orb_true_r.
Qed.

Lemma recalc_field_unwritten (st : State) (m : FieldMeta) :
  written m = false -> recalc_field fields patient_gender float_repr st m = Some st.
Proof.
  unfold recalc_field, written. destruct (ftype_eqb (fm_type m) FFormula); simpl; [|reflexivity].
  destruct (fm_formula m) as [[|c r]|]; simpl; congruence.
Qed.

Lemma recalc_field_some (st : State) (m : FieldMeta) :
  exists st', recalc_field fields patient_gender float_repr st m = Some st'.
Proof.
  unfold recalc_field. destruct (negb _); [eauto|].
  destruct (fm_formula m) as [[|c r]|]; [eauto| |eauto].
  destruct (evaluate_formula fields st _) as [q|].
  - destruct (set_str_loading_some m (format_result float_repr m q) (set_loading st true))
      as [st1 ->].
    simpl. apply check_reference_some.
  - destruct (set_str_loading_some m "" (set_loading st true)) as [st1 ->]. simpl. eauto.
Qed.

Lemma recalc_field_frame (st st' : State) (m : FieldMeta) :
  recalc_field fields patient_gender float_repr st m = Some st' ->
  (loading st = false -> loading st' = false) /\
  (forall x, x <> fm_id m -> value st' x = value st x /\ flagged st' x = flagged st x) /\
  (forall x, ~ In x (lk (hidden_by_trigger fields) (fm_id m)) -> visible st' x = visible st x).
Proof.
  destruct (written m) eqn:W.
  2:{ rewrite recalc_field_unwritten by exact W. intro H; injection H as <-. auto. }
  unfold recalc_field, written in *.
  destruct (ftype_eqb (fm_type m) FFormula); [|discriminate]. simpl.
  destruct (fm_formula m) as [[|c r]|]; try discriminate.
  destruct (evaluate_formula fields st _) as [q|].
  - intro H. apply obind_some in H as [st1 [Hs Hc]].
    apply check_reference_frame in Hc as (C1 & C2 & C3). simpl in C1, C2, C3.
    apply set_str_loading_spec in Hs as (E1 & E2 & E3 & E4 & _).
    destruct (set_str_frame m (format_result float_repr m q) (set_loading st true))
      as (_ & _ & _ & F4).
    split; [intros; exact C1|split].
    + intros x Hx. rewrite (proj1 (C2 x Hx)), (proj2 (C2 x Hx)), E1, F4, E2 by exact Hx.
      split; reflexivity.
    + intros x Hx. rewrite C3, E4 by exact Hx. reflexivity.
  - intro H. apply obind_some in H as [st1 [Hs Hc]]. injection Hc as <-.
    apply set_str_loading_spec in Hs as (E1 & E2 & E3 & E4 & _).
    destruct (set_str_frame m "" (set_loading st true)) as (_ & _ & _ & F4).
    simpl. split; [reflexivity|split].
    + intros x Hx. unfold upd. destruct (Z.eqb_spec x (fm_id m)); [congruence|].
      rewrite E1, F4, E2 by exact Hx. split; reflexivity.
    + intros x Hx. rewrite E4 by exact Hx. reflexivity.
Qed.

Lemma recalc_field_spec (st st' : State) (m : FieldMeta) (f : string) :
  written m = true -> fm_formula m = Some f -> find_field fields (fm_id m) = Some m ->
  recalc_field fields patient_gender float_repr st m = Some st' ->
  (value st' (fm_id m), flagged st' (fm_id m)) =
    recalc_outcome patient_gender float_repr m (evaluate_formula fields st f)
                   (flagged st (fm_id m)) /\
  loading st' = false.
Proof.
  intros W Hf Hm. pose proof (written_formula m f W Hf) as [T [c [r ->]]].
  pose proof (widget_num m (written_num m W)) as Hw.
  unfold recalc_field. rewrite T, Hf. simpl.
  destruct (evaluate_formula fields st _) as [q|]; simpl.
  - intro H. apply obind_some in H as [st1 [Hs Hc]].
    pose proof (check_reference_frame _ _ _ Hc) as (C1 & _). simpl in C1.
    apply check_reference_spec with (m := m) in Hc; [|reflexivity|exact Hm|now apply written_num].
    simpl in Hc. split; [|exact C1]. rewrite Hc.
    apply set_str_loading_spec in Hs as (E1 & E2 & _).
    rewrite E1, E2, set_str_line by (rewrite Hw; discriminate). reflexivity.
  - intro H. apply obind_some in H as [st1 [Hs Hc]]. injection Hc as <-.
    apply set_str_loading_spec in Hs as (E1 & _).
    simpl. unfold upd. rewrite Z.eqb_refl, E1, set_str_line by (rewrite Hw; discriminate).
    split; reflexivity.
Qed.

Lemma recalculate_unfold (st : State) :
  loading st = false ->
  recalculate_formulas fields patient_gender float_repr st =
  fold_left recalc_step fields (Some st).
Proof. intro L. unfold recalculate_formulas. now rewrite L. Qed.

Lemma recalc_fold_some (l : list FieldMeta) (st : State) :
  exists st', fold_left recalc_step l (Some st) = Some st'.
Proof.
  revert st. induction l as [|m l IH]; intro s; simpl; [eauto|].
  destruct (recalc_field_some s m) as [s1 ->]. apply IH.
Qed.

Lemma recalculate_some (st : State) :
  exists st', recalculate_formulas fields patient_gender float_repr st = Some st'.
Proof.
  unfold recalculate_formulas. destruct (loading st); [eauto|]. apply recalc_fold_some.
Qed.

Lemma recalc_fold_frame (l : list FieldMeta) (st st' : State) :
  fold_left recalc_step l (Some st) = Some st' ->
  (loading st = false -> loading st' = false) /\
  (forall x, (forall m, In m l -> written m = true -> fm_id m <> x) ->
             value st' x = value st x /\ flagged st' x = flagged st x) /\
  (forall x, (forall m, In m l -> written m = true ->
                        ~ In x (lk (hidden_by_trigger fields) (fm_id m))) ->
             visible st' x = visible st x).
Proof.
  revert st. induction l as [|m l IH]; intros s H; simpl in H.
  - injection H as <-. auto.
  - 
    destruct (recalc_field_some s m) as [s1 Hs1]. rewrite Hs1 in H.
    apply IH in H as (I1 & I2 & I3).
    destruct (written m) eqn:W.
    + apply recalc_field_frame in Hs1 as (R1 & R2 & R3).
      split; [auto|split].
      * intros x Hx.
        assert (Hl : forall m', In m' l -> written m' = true -> fm_id m' <> x)
          by (intros; apply Hx; auto; now right).
        rewrite (proj1 (I2 x Hl)), (proj2 (I2 x Hl)).
        apply R2. apply not_eq_sym, Hx; auto. now left.
      * intros x Hx. rewrite I3 by (intros; apply Hx; auto; now right).
        apply R3, Hx; auto. now left.
    + rewrite recalc_field_unwritten in Hs1 by exact W. injection Hs1 as <-.
      split; [auto|split].
      * intros x Hx. apply I2. intros; apply Hx; auto. now right.
      * intros x Hx. apply I3. intros; apply Hx; auto. now right.
Qed.

Lemma recalculate_frame (st st' : State) :
  recalculate_formulas fields patient_gender float_repr st = Some st' ->
  (loading st = true -> st' = st) /\
  (loading st = false -> loading st' = false) /\
  (forall x, (forall m, In m fields -> written m = true -> fm_id m <> x) ->
             value st' x = value st x /\ flagged st' x = flagged st x) /\
  (forall x, (forall m, In m fields -> written m = true ->
                        ~ In x (lk (hidden_by_trigger fields) (fm_id m))) ->
             visible st' x = visible st x).
Proof.
  unfold recalculate_formulas. destruct (loading st) eqn:L.
  - intro H; injection H as <-. repeat split; intros; congruence.
  - intro H. fold recalc_step in H. apply recalc_fold_frame in H as (F1 & F2 & F3).
    split; [discriminate|auto].
Qed.

Lemma recalc_fold_spec (l : list FieldMeta) (st st' : State) :
  NoDup (map fm_id fields) -> no_chain ->
  (forall m, In m l -> In m fields) -> NoDup (map fm_id l) ->
  fold_left recalc_step l (Some st) = Some st' ->
  forall m f, In m l -> written m = true -> fm_formula m = Some f ->
    (value st' (fm_id m), flagged st' (fm_id m)) =
      recalc_outcome patient_gender float_repr m (evaluate_formula fields st f)
                     (flagged st (fm_id m)).
Proof.
  intros Hnd Hnc. revert st. induction l as [|m0 l IH]; intros s Hsub Hndl H m f Hin W Hf;
    [destruct Hin|].
  simpl in H.
  destruct (recalc_field_some s m0) as [s1 Hs1]. rewrite Hs1 in H.
  inversion Hndl as [|? ? Hnot Hndl']; subst.
  destruct Hin as [<-|Hin].
  - pose proof (recalc_fold_frame _ _ _ H) as (_ & F2 & _).
    assert (Hx : forall m', In m' l -> written m' = true -> fm_id m' <> fm_id m0).
    { intros m' H1 _ E. apply Hnot. rewrite <- E. now apply in_map. }
    rewrite (proj1 (F2 _ Hx)), (proj2 (F2 _ Hx)).
    apply (recalc_field_spec s s1 m0 f W Hf); [|exact Hs1].
    apply find_field_nodup; auto. apply Hsub. now left.
  - rewrite (IH s1) with (f := f); auto.
    2:{ intros m' Hm'. apply Hsub. now right. }
    destruct (written m0) eqn:W0.
    2:{ rewrite recalc_field_unwritten in Hs1 by exact W0. now injection Hs1 as <-. }
    apply recalc_field_frame in Hs1 as (_ & R2 & _).
    assert (Hne : fm_id m <> fm_id m0).
    { intro E. apply Hnot. rewrite <- E. now apply in_map. }
    rewrite (proj2 (R2 _ Hne)).
    assert (Ev : evaluate_formula fields s1 f = evaluate_formula fields s f).
    { apply evaluate_formula_congr.
    intros r fid Hr Hres. unfold read_value, get_str.
    destruct (resolve_fid_in r fid Hres) as [m' [Hm' <-]].
    assert (Wm' : written m' = false).
    { apply (Hnc m f r (fm_id m') m'); auto. apply Hsub. now right. }
    assert (Hne' : fm_id m' <> fm_id m0).
    { intro E. assert (Hw0 : written m0 = false).
      { apply (Hnc m f r (fm_id m') m0); auto. apply Hsub. now right. apply Hsub. now left. }
      congruence. }
    now rewrite (proj1 (R2 _ Hne')). }
    now rewrite Ev.
Qed.

(** *** The trigger pass of [_load_existing_protocol] and the evaluator *)

Lemma lk_key (acc : list (Z * list Z)) (t h : Z) : In h (lk acc t) -> In t (map fst acc).
Proof.
  unfold lk. destruct (find _ acc) as [[k hs]|] eqn:E; [|intros []].
  intros _. apply find_some in E as [E1 E2]. simpl in E2. apply Z.eqb_eq in E2. subst k.
  change t with (fst (t, hs)). now apply in_map.
Qed.

Lemma lk_target (st : State) (t x : Z) :
  NoDup (map fm_id fields) ->
  in_fields fields t = true -> In x (lk (hidden_by_trigger fields) t) ->
  exists tm hm, find_field fields t = Some tm /\ find_field fields x = Some hm /\
    sync_vis fields st x = show_for tm (strip (value st t)) hm.
Proof.
  intros Hnd Ht Hx. unfold in_fields in Ht.
  destruct (find_field fields t) as [tm|] eqn:Etm; [|discriminate].
  apply in_lk in Hx as [hm [Hin [<- Htr]]].
  rewrite (find_field_nodup hm Hnd Hin).
  exists tm, hm. split; [reflexivity|split; [reflexivity|]].
  unfold sync_vis. rewrite (find_field_nodup hm Hnd Hin).
  unfold trig_is in Htr. apply andb_true_iff in Htr as [R Htr]. rewrite R.
  destruct (fm_trigger_field_id hm) as [t'|]; [|discriminate].
  apply Z.eqb_eq in Htr. subst t'. now rewrite Etm.
Qed.

Lemma sync_fold_some (ks : list Z) (st : State) :
  exists st', fold_left sync_step ks (Some st) = Some st'.
Proof.
  revert st. induction ks as [|t ks IH]; intro s; simpl; [eauto|].
  destruct (in_fields fields t) eqn:E.
  - destruct (update_hidden_some t s (or_introl E)) as [s1 ->]. apply IH.
  - apply IH.
Qed.

Lemma sync_triggers_some (st : State) : exists st', sync_triggers fields st = Some st'.
Proof. apply sync_fold_some. Qed.

Lemma sync_fold_spec (st : State) (ks : list Z) (s s' : State) :
  NoDup (map fm_id fields) ->
  fold_left sync_step ks (Some s) = Some s' -> value s = value st ->
  value s' = value s /\ flagged s' = flagged s /\ loading s' = loading s /\
  forall h, visible s' h =
    if existsb (fun t => in_fields fields t && existsb (Z.eqb h) (lk (hidden_by_trigger fields) t)) ks
    then sync_vis fields st h else visible s h.
Proof.
  intros Hnd. revert s. induction ks as [|t ks IH]; intros s H Hv; simpl in H |- *.
  - injection H as <-. auto.
  - destruct (in_fields fields t) eqn:Et; simpl.
    + destruct (update_hidden_some t s (or_introl Et)) as [s1 Hs1]. rewrite Hs1 in H.
      pose proof (update_hidden_spec _ _ _ Hs1) as (U1 & U2 & U3 & U4).
      apply IH in H as (I1 & I2 & I3 & I4); [|congruence].
      rewrite I1, I2, I3, U1, U2, U3. repeat split. intro h. rewrite I4, U4.
      destruct (existsb (Z.eqb h) _) eqn:Eh; simpl.
      * apply existsb_exists in Eh as [y [Hy Ey]]. apply Z.eqb_eq in Ey. subst y.
        destruct (lk_target st t h Hnd Et Hy) as (tm & hm & E1 & E2 & E3).
        rewrite E1, E2, E3, Hv. destruct (existsb _ ks); reflexivity.
      * reflexivity.
    + apply IH in H as (I1 & I2 & I3 & I4); auto.
Qed.

Lemma sync_triggers_spec (st st' : State) :
  NoDup (map fm_id fields) ->
  sync_triggers fields st = Some st' ->
  value st' = value st /\ flagged st' = flagged st /\ loading st' = loading st /\
  forall h, visible st' h = sync_vis fields st h.
Proof.
  intros Hnd H. apply (sync_fold_spec st) in H as (E1 & E2 & E3 & E4); auto.
  repeat split; auto. intro h. rewrite E4.
  destruct (existsb _ _) eqn:Ex; [reflexivity|].
  unfold sync_vis. destruct (find_field fields h) as [hm|] eqn:Eh; [|reflexivity].
  destruct (registered hm) eqn:R; [|reflexivity].
  destruct (fm_trigger_field_id hm) as [t|] eqn:Et; [|reflexivity].
  destruct (find_field fields t) as [tm|] eqn:Etm; [|reflexivity].
  exfalso. apply find_field_some in Eh as [Hin <-].
  assert (Hl : In (fm_id hm) (lk (hidden_by_trigger fields) t)).
  { apply in_lk. exists hm. repeat split; auto. unfold trig_is. now rewrite R, Et, Z.eqb_refl. }
  assert (Ht : in_fields fields t = true) by (unfold in_fields; now rewrite Etm).
  rewrite <- not_true_iff_false in Ex. apply Ex, existsb_exists.
  exists t. split; [exact (lk_key _ _ _ Hl)|].
  rewrite Ht. simpl. apply existsb_exists. exists (fm_id hm). split; auto. apply Z.eqb_refl.
Qed.

(** *** Failures of [_evaluate_formula] *)

Lemma resolve_all_none (st : State) (refs : list (string * string * string)) :
  (exists r, In r refs /\
     (resolve_fid fields r = None \/
      exists fid, resolve_fid fields r = Some fid /\ blank (value st fid) = true)) ->
  forall acc, resolve_all fields st refs acc = None.
Proof.
  induction refs as [|r0 rs IH]; intros [r [Hin Hr]] acc; [destruct Hin|]. simpl.
  destruct Hin as [<-|Hin].
  - destruct Hr as [-> | [fid [-> Hb]]]; simpl; [reflexivity|].
    unfold read_value, get_str. now rewrite Hb.
  - destruct (resolve_fid fields r0) as [fid0|]; simpl; [|reflexivity].
    destruct (read_value st fid0); simpl; [|reflexivity]. apply IH. eauto.
Qed.

(** *** The outcome of one recomputation *)

Lemma check_outcome_fst (m : FieldMeta) (s : string) (b1 b2 : bool) :
  fst (check_outcome patient_gender m s b1) = fst (check_outcome patient_gender m s b2).
Proof.
  unfold check_outcome. destruct (String.eqb _ _); [reflexivity|].
  destruct (Num.parse_float _) as [v|]; [|reflexivity].
  destruct (fm_precision m); destruct (current_ref_range patient_gender m) as [[?|] [?|]];
    reflexivity.
Qed.

Lemma check_outcome_idem (m : FieldMeta) (s : string) (b : bool) :
  snd (check_outcome patient_gender m s (snd (check_outcome patient_gender m s b))) =
  snd (check_outcome patient_gender m s b).
Proof.
  unfold check_outcome. destruct (String.eqb _ _); [reflexivity|].
  destruct (Num.parse_float _) as [v|]; [|reflexivity].
  destruct (fm_precision m); destruct (current_ref_range patient_gender m) as [[?|] [?|]];
    simpl; rewrite ?Heqb; reflexivity.
Qed.

Lemma recalc_outcome_fst (m : FieldMeta) (r : option Q) (b1 b2 : bool) :
  fst (recalc_outcome patient_gender float_repr m r b1) =
  fst (recalc_outcome patient_gender float_repr m r b2).
Proof. destruct r; simpl; [apply check_outcome_fst|reflexivity]. Qed.

Lemma recalc_outcome_idem (m : FieldMeta) (r : option Q) (b : bool) :
  snd (recalc_outcome patient_gender float_repr m r
         (snd (recalc_outcome patient_gender float_repr m r b))) =
  snd (recalc_outcome patient_gender float_repr m r b).
Proof. destruct r; simpl; [apply check_outcome_idem|reflexivity]. Qed.

Lemma check_outcome_rule (m : FieldMeta) (s : string) (old : bool) :
  flag_rule patient_gender m s old (snd (check_outcome patient_gender m s old)).
Proof.
  unfold flag_rule, check_outcome, blank.
  split; [intro H; now rewrite H|split].
  - intros H1 H2. rewrite H1, H2. reflexivity.
  - intros q H1 H2. rewrite H1, H2. simpl.
    destruct (fm_precision m); destruct (current_ref_range patient_gender m) as [[?|] [?|]];
      reflexivity.
Qed.

(** *** Fields no connected trigger controls *)

Lemma update_hidden_untouch (t : Z) (st st' : State) (x : Z) :
  untouchable x -> in_fields fields t = true ->
  update_hidden fields t st = Some st' -> visible st' x = visible st x.
Proof. intros U Ht H. apply (update_hidden_frame t); auto. Qed.

Lemma set_str_loading_untouch (m : FieldMeta) (v : string) (st st' : State) (x : Z) :
  untouchable x -> set_str_loading fields m v st = Some st' -> visible st' x = visible st x.
Proof.
  intros U H. apply set_str_loading_spec in H as (_ & _ & _ & E4 & E5).
  destruct (in_fields fields (fm_id m)) eqn:Ei; [now apply E4, U|].
  assert (Hc : is_connected_trigger fields (fm_id m) = false).
  { unfold is_connected_trigger. destruct (hidden_of fields _); auto. }
  rewrite (E5 Hc). destruct (set_str_frame m v st) as (F1 & _). now rewrite F1.
Qed.

Lemma check_reference_untouch (fid : Z) (st st' : State) (x : Z) :
  untouchable x -> check_reference fields patient_gender fid st = Some st' ->
  visible st' x = visible st x.
Proof.
  intros U H. destruct (in_fields fields fid) eqn:Ei.
  - apply check_reference_frame in H as (_ & _ & E). now apply E, U.
  - unfold in_fields in Ei. unfold check_reference in H.
    destruct (find_field fields fid); [discriminate|].
    destruct (loading st); injection H as <-; reflexivity.
Qed.

Lemma recalculate_untouch (st st' : State) (x : Z) :
  untouchable x -> recalculate_formulas fields patient_gender float_repr st = Some st' ->
  visible st' x = visible st x.
Proof.
  intros U H. apply recalculate_frame in H as (_ & _ & _ & E). apply E.
  intros m Hm _. apply U, in_fields_of, Hm.
Qed.

Lemma sync_fold_frame (ks : list Z) (st st' : State) :
  fold_left sync_step ks (Some st) = Some st' ->
  value st' = value st /\ flagged st' = flagged st /\ loading st' = loading st /\
  forall x, untouchable x -> visible st' x = visible st x.
Proof.
  revert st. induction ks as [|t ks IH]; intros s H; simpl in H.
  - injection H as <-. auto.
  - destruct (in_fields fields t) eqn:Et.
    + destruct (update_hidden_some t s (or_introl Et)) as [s1 Hs1]. rewrite Hs1 in H.
      pose proof (update_hidden_spec _ _ _ Hs1) as (U1 & U2 & U3 & _).
      apply IH in H as (I1 & I2 & I3 & I4). rewrite I1, I2, I3, U1, U2, U3.
      repeat split. intros x Hx. rewrite I4 by exact Hx.
      exact (update_hidden_untouch t s s1 x Hx Et Hs1).
    + exact (IH s H).
Qed.

Lemma sync_triggers_frame (st st' : State) :
  sync_triggers fields st = Some st' ->
  value st' = value st /\ flagged st' = flagged st /\ loading st' = loading st /\
  forall x, untouchable x -> visible st' x = visible st x.
Proof. apply sync_fold_frame. Qed.

(** *** The slots of a field, and a user edit *)

Lemma on_value_change_some (m : FieldMeta) (st : State) :
  in_fields fields (fm_id m) = true ->
  exists st', on_value_change fields patient_gender float_repr m st = Some st'.
Proof.
  intro Hi. unfold on_value_change.
  destruct (if is_connected_trigger fields (fm_id m) then update_hidden fields (fm_id m) st
            else Some st) as [st1|] eqn:E1.
  2:{ destruct (is_connected_trigger fields (fm_id m)); [|discriminate].
      destruct (update_hidden_some (fm_id m) st (or_introl Hi)) as [? H]. congruence. }
  simpl.
  destruct (if ftype_eqb (fm_type m) FNum || ftype_eqb (fm_type m) FStr
              || ftype_eqb (fm_type m) FDict
            then recalculate_formulas fields patient_gender float_repr st1 else Some st1)
    as [st2|] eqn:E2.
  2:{ destruct (_ || _); [|discriminate].
      destruct (recalculate_some st1) as [? H]. congruence. }
  simpl. destruct (is_num_or_formula m); [apply check_reference_some|eauto].
Qed.

Lemma on_value_change_frame (m : FieldMeta) (st st' : State) :
  on_value_change fields patient_gender float_repr m st = Some st' ->
  loading st' = loading st /\
  (forall x, x <> fm_id m -> (forall m', In m' fields -> written m' = true -> fm_id m' <> x) ->
             value st' x = value st x /\ flagged st' x = flagged st x) /\
  (forall x, untouchable x -> visible st' x = visible st x).
Proof.
  unfold on_value_change. intro H.
  apply obind_some in H as [st1 [H1 H]]. apply obind_some in H as [st2 [H2 H3]].
  assert (P1 : value st1 = value st /\ flagged st1 = flagged st /\ loading st1 = loading st /\
               forall x, untouchable x -> visible st1 x = visible st x).
  { destruct (is_connected_trigger fields (fm_id m)) eqn:Ec.
    - pose proof (update_hidden_spec _ _ _ H1) as (U1 & U2 & U3 & _).
      repeat split; auto. intros x Hx. apply (update_hidden_untouch (fm_id m)); auto.
      unfold is_connected_trigger in Ec. destruct (hidden_of fields _); congruence.
    - injection H1 as <-. auto. }
  destruct P1 as (A1 & A2 & A3 & A4).
  assert (P2 : loading st2 = loading st1 /\
               (forall x, (forall m', In m' fields -> written m' = true -> fm_id m' <> x) ->
                          value st2 x = value st1 x /\ flagged st2 x = flagged st1 x) /\
               forall x, untouchable x -> visible st2 x = visible st1 x).
  { destruct (_ || _).
    - pose proof (recalculate_frame _ _ H2) as (R0 & R1 & R2 & _).
      split; [|split; [exact R2|intros x Hx; exact (recalculate_untouch _ _ _ Hx H2)]].
      destruct (loading st1) eqn:L; [now rewrite (R0 eq_refl)|now apply R1].
    - injection H2 as <-. auto. }
  destruct P2 as (B1 & B2 & B3).
  assert (P3 : loading st' = loading st2 /\
               (forall x, x <> fm_id m -> value st' x = value st2 x /\ flagged st' x = flagged st2 x) /\
               forall x, untouchable x -> visible st' x = visible st2 x).
  { destruct (is_num_or_formula m).
    - pose proof (check_reference_frame _ _ _ H3) as (C1 & C2 & _).
      split; [exact C1|split; [exact C2|intros x Hx; exact (check_reference_untouch _ _ _ _ Hx H3)]].
    - injection H3 as <-. auto. }
  destruct P3 as (C1 & C2 & C3).
  split; [congruence|split].
  - intros x Hx Hw. rewrite (proj1 (C2 x Hx)), (proj2 (C2 x Hx)), (proj1 (B2 x Hw)), (proj2 (B2 x Hw)).
    rewrite A1, A2. split; reflexivity.
  - intros x Hx. rewrite C3, B3, A4 by exact Hx. reflexivity.
Qed.

Lemma edit_some (fid : Z) (v : string) (st : State) :
  in_fields fields fid = true ->
  exists st', edit fields patient_gender float_repr fid v st = Some st'.
Proof.
  intro Hi. unfold edit. unfold in_fields in Hi.
  destruct (find_field fields fid) as [m|] eqn:Em; [|discriminate]. simpl.
  destruct (String.eqb _ _); [eauto|].
  apply find_field_some in Em as [Hin <-]. apply on_value_change_some, in_fields_of, Hin.
Qed.

Lemma edit_frame (fid : Z) (v : string) (st st' : State) :
  edit fields patient_gender float_repr fid v st = Some st' ->
  loading st' = loading st /\
  (forall x, x <> fid -> (forall m', In m' fields -> written m' = true -> fm_id m' <> x) ->
             value st' x = value st x /\ flagged st' x = flagged st x) /\
  (forall x, untouchable x -> visible st' x = visible st x).
Proof.
  unfold edit. intro H. apply obind_some in H as [m [Hm H]].
  apply find_field_some in Hm as [_ Hid].
  destruct (String.eqb _ _); [injection H as <-; auto|].
  apply on_value_change_frame in H as (E1 & E2 & E3). simpl in E1.
  split; [exact E1|split].
  - intros x Hx Hw. rewrite (proj1 (E2 x ltac:(congruence) Hw)), (proj2 (E2 x ltac:(congruence) Hw)).
    simpl. unfold upd. destruct (Z.eqb_spec x fid); [congruence|]. split; reflexivity.
  - intros x Hx. rewrite E3 by exact Hx. reflexivity.
Qed.

(** *** Blank text *)

Lemma rev_str_empty (x acc : string) : rev_str x acc = EmptyString -> x = EmptyString /\ acc = EmptyString.
Proof.
  revert acc. induction x as [|c r IH]; intros acc H; simpl in H; [auto|].
  apply IH in H as [_ H]. discriminate.
Qed.

Lemma lstrip_empty_space (x : string) (n : nat) (c : ascii) :
  lstrip x = EmptyString -> String.get n x = Some c -> is_space c = true.
Proof.
  revert n. induction x as [|c0 r IH]; intros n H Hg; [destruct n; discriminate|].
  simpl in H. destruct (is_space c0) eqn:E; [|discriminate].
  destruct n as [|n]; simpl in Hg; [congruence|]. now apply (IH n).
Qed.

Lemma rev_str_get (x acc : string) (c : ascii) :
  (exists n, String.get n x = Some c) \/ (exists n, String.get n acc = Some c) ->
  exists n, String.get n (rev_str x acc) = Some c.
Proof.
  revert acc. induction x as [|c0 r IH]; intros acc H; simpl.
  - destruct H as [[n Hn]|H]; [destruct n; discriminate|exact H].
  - apply IH. destruct H as [[[|n] Hn]|[n Hn]]; simpl in Hn.
    + right. exists O. simpl. congruence.
    + left. eauto.
    + right. exists (S n). exact Hn.
Qed.

Lemma blank_head (c : ascii) (r : string) :
  is_space c = false -> blank (String c r) = false.
Proof.
  intro Hc. unfold blank, strip. simpl. rewrite Hc.
  destruct (String.eqb_spec (rstrip (String c r)) EmptyString) as [E|]; [|reflexivity].
  exfalso. unfold rstrip in E. apply rev_str_empty in E as [E _].
  destruct (rev_str_get (String c r) EmptyString c) as [n Hn].
  { left. exists O. reflexivity. }
  rewrite (lstrip_empty_space _ n c E Hn) in Hc. discriminate.
Qed.

Lemma digit_not_space (c : ascii) : Py.is_digit c = true -> is_space c = false.
Proof.
  unfold Py.is_digit, is_space, char_code. intro H.
  apply andb_true_iff in H as [H1 H2]. apply Nat.leb_le in H1. apply Nat.leb_le in H2.
  destruct (Nat.leb_spec 9 (nat_of_ascii c)); destruct (Nat.leb_spec (nat_of_ascii c) 13);
    destruct (Nat.leb_spec 28 (nat_of_ascii c)); destruct (Nat.leb_spec (nat_of_ascii c) 32);
    simpl; try reflexivity; lia.
Qed.

Lemma digits_head (s : string) (k : nat) (z : Z) :
  digits_at s (S k) = Some z -> exists c r, s = String c r /\ Py.is_digit c = true.
Proof.
  destruct s as [|c r]; simpl; intro H; [discriminate|].
  destruct (Py.is_digit c) eqn:E; [eauto|discriminate].
Qed.

Lemma valid_date_nonblank (s : string) : valid_date s = true -> blank s = false.
Proof.
  unfold valid_date. destruct (digits_at s 2) as [d|] eqn:E; [|discriminate].
  intros _. apply digits_head in E as [c [r [-> Hd]]]. apply blank_head, digit_not_space, Hd.
Qed.

Lemma valid_time_nonblank (s : string) : valid_time s = true -> blank s = false.
Proof.
  unfold valid_time. destruct (digits_at s 2) as [d|] eqn:E; [|discriminate].
  intros _. apply digits_head in E as [c [r [-> Hd]]]. apply blank_head, digit_not_space, Hd.
Qed.

Lemma blank_strip (s : string) : blank s = true -> strip s = EmptyString.
Proof. unfold blank. now intros H%String.eqb_eq. Qed.

Lemma strip_empty : strip EmptyString = EmptyString.
Proof. reflexivity. Qed.

(** *** Loading saved values *)

Lemma set_str_valid (m : FieldMeta) (v : string) (st : State) :
  (widget_of m = WDate -> valid_date v = true) -> (widget_of m = WTime -> valid_time v = true) ->
  value (set_str m v st) (fm_id m) = v.
Proof.
  intros Hd Ht. unfold set_str, set_value, upd.
  destruct (widget_of m); simpl; rewrite ?Hd, ?Ht by reflexivity; simpl; now rewrite Z.eqb_refl.
Qed.

Lemma load_fold_some (vs : list (Z * string)) (st : State) :
  exists st', fold_left load_step vs (Some st) = Some st'.
Proof.
  revert st. induction vs as [|kv vs IH]; intro s; simpl; [eauto|].
  destruct (find_field fields (fst kv)) as [m|]; [|apply IH].
  destruct (String.eqb (snd kv) EmptyString); [apply IH|].
  destruct (set_str_loading_some m (snd kv) s) as [s1 ->]. apply IH.
Qed.

Lemma load_fold_frame (vs : list (Z * string)) (st st' : State) :
  fold_left load_step vs (Some st) = Some st' ->
  flagged st' = flagged st /\ loading st' = loading st /\
  (forall x, untouchable x -> visible st' x = visible st x) /\
  (forall x, (forall kv, In kv vs -> fst kv <> x) -> value st' x = value st x).
Proof.
  revert st. induction vs as [|kv vs IH]; intros s H; simpl in H.
  - injection H as <-. auto.
  -
    destruct (find_field fields (fst kv)) as [m|] eqn:Em.
    2:{ apply IH in H as (I1 & I2 & I3 & I4). repeat split; auto.
        intros x Hx. apply I4. intros; apply Hx; now right. }
    destruct (String.eqb (snd kv) EmptyString).
    { apply IH in H as (I1 & I2 & I3 & I4). repeat split; auto.
      intros x Hx. apply I4. intros; apply Hx; now right. }
    destruct (set_str_loading_some m (snd kv) s) as [s1 Hs1]. rewrite Hs1 in H.
    apply IH in H as (I1 & I2 & I3 & I4).
    pose proof (set_str_loading_spec _ _ _ _ Hs1) as (E1 & E2 & E3 & _).
    destruct (set_str_frame m (snd kv) s) as (_ & _ & _ & F4).
    apply find_field_some in Em as [_ Hid].
    split; [congruence|split; [congruence|split]].
    + intros x Hx. rewrite I3 by exact Hx. exact (set_str_loading_untouch _ _ _ _ _ Hx Hs1).
    + intros x Hx. rewrite I4 by (intros; apply Hx; now right).
      rewrite E1, F4; [reflexivity|]. rewrite Hid. intro E. apply (Hx kv); [now left|congruence].
Qed.

Lemma load_fold_value (vs : list (Z * string)) (st st' : State) (kv : Z * string) (m : FieldMeta) :
  NoDup (map fst vs) -> fold_left load_step vs (Some st) = Some st' ->
  In kv vs -> find_field fields (fst kv) = Some m -> snd kv <> EmptyString ->
  (widget_of m = WDate -> valid_date (snd kv) = true) ->
  (widget_of m = WTime -> valid_time (snd kv) = true) ->
  value st' (fst kv) = snd kv.
Proof.
  intros Hnd. revert st. induction vs as [|kv0 vs IH]; intros s H Hin Hm Hne Hd Ht;
    [destruct Hin|].
  inversion Hnd as [|? ? Hnot Hnd']; subst.
  simpl in H.
  destruct Hin as [->|Hin].
  - rewrite Hm in H. apply String.eqb_neq in Hne. rewrite Hne in H.
    destruct (set_str_loading_some m (snd kv) s) as [s1 Hs1]. rewrite Hs1 in H.
    apply load_fold_frame in H as (_ & _ & _ & I4).
    rewrite I4.
    + apply set_str_loading_spec in Hs1 as (E1 & _). rewrite E1.
      apply find_field_some in Hm as [_ <-]. now apply set_str_valid.
    + intros kv' H' E. apply Hnot. rewrite <- E. now apply in_map.
  - destruct (find_field fields (fst kv0)) as [m0|];
      [destruct (String.eqb (snd kv0) EmptyString);
       [|destruct (set_str_loading_some m0 (snd kv0) s) as [s1 Hs1]; rewrite Hs1 in H]|];
      eapply IH; eauto.
Qed.

Lemma load_unfold (vs : list (Z * string)) (st : State) :
  load_existing_protocol fields (Some vs) st =
  (st1 <- fold_left load_step vs (Some (set_loading st true));;
   sync_triggers fields (set_loading st1 false)).
Proof. reflexivity. Qed.

Lemma open_form_some (vals : option (list (Z * string))) :
  exists st, open_form fields patient_gender float_repr vals = Some st.
Proof.
  unfold open_form. destruct vals as [vs|].
  - rewrite load_unfold.
    destruct (load_fold_some vs (set_loading (initial_state fields) true)) as [s1 ->]. simpl.
    destruct (sync_triggers_some (set_loading s1 false)) as [s2 ->]. apply recalculate_some.
  - apply recalculate_some.
Qed.

Lemma evaluator_some (st : State) :
  exists st', evaluator fields patient_gender float_repr st = Some st'.
Proof.
  unfold evaluator. destruct (sync_triggers_some st) as [s1 ->]. apply recalculate_some.
Qed.

(** *** Clearing a tab *)

Lemma clear_unfold (tab : Z) (st : State) :
  clear_current_tab fields patient_gender float_repr tab st =
  (st1 <- fold_left (clear_step tab) fields (Some (set_loading st true));;
   st3 <- fold_left (clear_trigger_step tab) (trigger_keys fields) (Some (set_loading st1 false));;
   recalculate_formulas fields patient_gender float_repr st3).
Proof. reflexivity. Qed.

Lemma clear_fold_some (tab : Z) (l : list FieldMeta) (st : State) :
  exists st', fold_left (clear_step tab) l (Some st) = Some st'.
Proof.
  revert st. induction l as [|m l IH]; intro s; simpl; [eauto|]. destruct (Z.eqb (fm_tab_id m) tab); [|apply IH].
  destruct (set_str_loading_some m EmptyString s) as [s1 ->]. apply IH.
Qed.

Lemma clear_fold_spec (tab : Z) (l : list FieldMeta) (st st' : State) :
  fold_left (clear_step tab) l (Some st) = Some st' ->
  flagged st' = flagged st /\ loading st' = loading st /\
  (forall x, untouchable x -> visible st' x = visible st x) /\
  (forall x, value st' x =
     if existsb (fun m => emptied_by tab m && Z.eqb (fm_id m) x) l then EmptyString
     else value st x).
Proof.
  revert st. induction l as [|m l IH]; intros s H; simpl in H.
  - injection H as <-. auto.
  -
    destruct (Z.eqb (fm_tab_id m) tab) eqn:Et.
    + destruct (set_str_loading_some m EmptyString s) as [s1 Hs1]. rewrite Hs1 in H.
      apply IH in H as (I1 & I2 & I3 & I4).
      pose proof (set_str_loading_spec _ _ _ _ Hs1) as (E1 & E2 & E3 & _).
      split; [congruence|split; [congruence|split]].
      * intros x Hx. rewrite I3 by exact Hx. exact (set_str_loading_untouch _ _ _ _ _ Hx Hs1).
      * assert (Em : emptied_by tab m =
                     match widget_of m with WDate | WTime => false | _ => true end)
          by (unfold emptied_by; now rewrite Et).
        intro x. rewrite I4. cbn [existsb]. rewrite Em.
        destruct (existsb _ l); [now rewrite orb_true_r|]. rewrite orb_false_r. rewrite E1.
        unfold set_str, set_value, upd. simpl.
        destruct (widget_of m); simpl; rewrite ?(Z.eqb_sym (fm_id m) x); reflexivity.
    + apply IH in H as (I1 & I2 & I3 & I4). repeat split; auto.
      assert (Em : emptied_by tab m = false) by (unfold emptied_by; now rewrite Et).
      intro x. rewrite I4. cbn [existsb]. rewrite Em. reflexivity.
Qed.

Lemma clear_trigger_fold_spec (tab : Z) (ks : list Z) (st st' : State) :
  fold_left (clear_trigger_step tab) ks (Some st) = Some st' ->
  value st' = value st /\ flagged st' = flagged st /\ loading st' = loading st /\
  forall x, untouchable x -> visible st' x = visible st x.
Proof.
  revert st. induction ks as [|t ks IH]; intros s H; simpl in H.
  - injection H as <-. auto.
  -
    destruct (in_fields fields t && _) eqn:Et.
    + apply andb_true_iff in Et as [Et _].
      destruct (update_hidden_some t s (or_introl Et)) as [s1 Hs1]. rewrite Hs1 in H.
      pose proof (update_hidden_spec _ _ _ Hs1) as (U1 & U2 & U3 & _).
      apply IH in H as (I1 & I2 & I3 & I4). rewrite I1, I2, I3, U1, U2, U3.
      repeat split. intros x Hx. rewrite I4 by exact Hx.
      exact (update_hidden_untouch t s s1 x Hx Et Hs1).
    + exact (IH s H).
Qed.

Lemma clear_trigger_fold_some (tab : Z) (ks : list Z) (st : State) :
  exists st', fold_left (clear_trigger_step tab) ks (Some st) = Some st'.
Proof.
  revert st. induction ks as [|t ks IH]; intro s; simpl; [eauto|].
  destruct (in_fields fields t && _) eqn:Et; [|apply IH].
  apply andb_true_iff in Et as [Et _].
  destruct (update_hidden_some t s (or_introl Et)) as [s1 ->]. apply IH.
Qed.

Lemma clear_some (tab : Z) (st : State) :
  exists st', clear_current_tab fields patient_gender float_repr tab st = Some st'.
Proof.
  rewrite clear_unfold.
  destruct (clear_fold_some tab fields (set_loading st true)) as [s1 ->]. simpl.
  destruct (clear_trigger_fold_some tab (trigger_keys fields) (set_loading s1 false)) as [s2 ->].
  apply recalculate_some.
Qed.

Lemma clear_spec (tab : Z) (st st' : State) :
  clear_current_tab fields patient_gender float_repr tab st = Some st' ->
  loading st' = false /\
  (forall x, (forall m, In m fields -> written m = true -> fm_id m <> x) ->
     value st' x =
       (if existsb (fun m => emptied_by tab m && Z.eqb (fm_id m) x) fields then EmptyString
        else value st x) /\ flagged st' x = flagged st x) /\
  (forall x, untouchable x -> visible st' x = visible st x).
Proof.
  rewrite clear_unfold. intro H.
  apply obind_some in H as [s1 [H1 H]]. apply obind_some in H as [s3 [H3 H]].
  apply clear_fold_spec in H1 as (A1 & A2 & A3 & A4).
  apply clear_trigger_fold_spec in H3 as (B1 & B2 & B3 & B4).
  pose proof (recalculate_frame _ _ H) as (_ & R1 & R2 & _).
  simpl in A1, A2, A3, B1, B2, B3.
  split; [apply R1; now rewrite B3|split].
  - intros x Hx. rewrite (proj1 (R2 x Hx)), (proj2 (R2 x Hx)), B1, B2. simpl.
    rewrite A4, A1. split; reflexivity.
  - intros x Hx. rewrite (recalculate_untouch _ _ _ Hx H), B4 by exact Hx. simpl.
    rewrite A3 by exact Hx. reflexivity.
Qed.

(** *** [collect_values] *)

Lemma in_collect (shown : Z -> bool) (st : State) (fid : Z) (v : string) :
  In (fid, v) (collect_values fields shown st) <->
  exists m, In m fields /\ fm_id m = fid /\
            fm_is_hidden m && negb (container_visible shown st fid) = false /\ v = value st fid.
Proof.
  unfold collect_values. induction fields as [|m l IH]; simpl.
  - split; [intros []|intros [m [[] _]]].
  - destruct (fm_is_hidden m && negb (container_visible shown st (fm_id m))) eqn:E.
    + rewrite IH. split.
      * intros [m' (H1 & H2 & H3 & H4)]. exists m'. auto.
      * intros [m' ([<-|H1] & H2 & H3 & H4)]; [subst; congruence|]. exists m'. auto.
    + simpl. rewrite IH. split.
      * intros [Heq|[m' (H1 & H2 & H3 & H4)]].
        -- injection Heq as <- <-. exists m. auto.
        -- exists m'. auto.
      * intros [m' ([<-|H1] & H2 & H3 & H4)].
        -- left. subst. reflexivity.
        -- right. exists m'. auto.
Qed.

Lemma collect_keys (shown : Z -> bool) (st : State) :
  map fst (collect_values fields shown st) =
  map fm_id (filter (fun m => negb (fm_is_hidden m && negb (container_visible shown st (fm_id m))))
                    fields).
Proof.
  unfold collect_values. induction fields as [|m l IH]; simpl; [reflexivity|].
  destruct (fm_is_hidden m && negb (container_visible shown st (fm_id m))); simpl; congruence.
Qed.

Lemma nodup_map_filter {A} (g : A -> Z) (p : A -> bool) (l : list A) :
  NoDup (map g l) -> NoDup (map g (filter p l)).
Proof.
  induction l as [|a l IH]; simpl; intro H; [constructor|].
  inversion H as [|? ? Hn H']; subst.
  destruct (p a); simpl; [|auto]. constructor; [|auto].
  intro Hin. apply Hn. apply in_map_iff in Hin as [b [Hb Hin]].
  apply filter_In in Hin as [Hin _]. rewrite <- Hb. now apply in_map.
Qed.

(** *** Further consequences *)

Lemma no_chain_b_spec : no_chain_b = true -> no_chain.
Proof.
  unfold no_chain_b, no_chain. intros H m f r fid m' Hm W Hf Hr Hres Hm' Hid.
  rewrite forallb_forall in H. specialize (H m Hm). rewrite W, Hf in H. simpl in H.
  rewrite forallb_forall in H. specialize (H r Hr). rewrite Hres in H.
  rewrite forallb_forall in H. specialize (H m' Hm'). rewrite Hid, Z.eqb_refl in H.
  simpl in H. now apply negb_true_iff in H.
Qed.

Lemma recalculate_spec (st st' : State) :
  NoDup (map fm_id fields) -> no_chain -> loading st = false ->
  recalculate_formulas fields patient_gender float_repr st = Some st' ->
  forall m f, In m fields -> written m = true -> fm_formula m = Some f ->
    (value st' (fm_id m), flagged st' (fm_id m)) =
      recalc_outcome patient_gender float_repr m (evaluate_formula fields st f)
                     (flagged st (fm_id m)).
Proof.
  intros Hnd Hnc L H. rewrite (recalculate_unfold _ L) in H.
  intros m f Hm W Hf. eapply recalc_fold_spec; eauto.
Qed.

Lemma evaluate_none (st : State) (f : string) :
  (exists r, In r (Refs.findall f) /\
     (resolve_fid fields r = None \/
      exists fid, resolve_fid fields r = Some fid /\ blank (value st fid) = true)) ->
  evaluate_formula fields st f = None.
Proof.
  intro H. unfold evaluate_formula. now rewrite (resolve_all_none st _ H).
Qed.

Lemma written_widget (m : FieldMeta) : written m = true -> widget_of m = WLineEdit.
Proof. intro W. apply widget_num, written_num, W. Qed.

Lemma emptied_nodup (tab : Z) (m : FieldMeta) :
  NoDup (map fm_id fields) -> In m fields ->
  existsb (fun m' => emptied_by tab m' && Z.eqb (fm_id m') (fm_id m)) fields = emptied_by tab m.
Proof.
  induction fields as [|a l IH]; simpl; intros Hnd Hin; [contradiction|].
  inversion Hnd as [|? ? Hn Hnd']; subst.
  destruct Hin as [<-|Hin].
  - rewrite Z.eqb_refl, andb_true_r.
    destruct (emptied_by tab a); simpl; [reflexivity|].
    apply not_true_iff_false. intro E. apply existsb_exists in E as [m' [Hm' E]].
    apply andb_true_iff in E as [_ E]. apply Z.eqb_eq in E. apply Hn.
    rewrite <- E. now apply in_map.
  - rewrite IH by assumption.
    destruct (Z.eqb (fm_id a) (fm_id m)) eqn:E.
    + apply Z.eqb_eq in E. exfalso. apply Hn. rewrite E. now apply in_map.
    + now rewrite andb_false_r.
Qed.

Lemma registered_connected (hm : FieldMeta) (t : Z) :
  In hm fields -> registered hm = true -> fm_trigger_field_id hm = Some t ->
  In (fm_id hm) (lk (hidden_by_trigger fields) t).
Proof.
  intros Hin R T. apply in_lk. exists hm. split; [exact Hin|split; [reflexivity|]].
  unfold trig_is. now rewrite R, T, Z.eqb_refl.
Qed.

Lemma connected_of_lk (t h : Z) :
  in_fields fields t = true -> In h (lk (hidden_by_trigger fields) t) ->
  is_connected_trigger fields t = true.
Proof.
  intros Hi Hl. unfold is_connected_trigger.
  destruct (hidden_of fields t) eqn:Hh; [exact Hi|].
  apply hidden_of_none_lk in Hh. rewrite Hh in Hl. destruct Hl.
Qed.

Lemma lk_trigger_nodup (t : Z) (hm : FieldMeta) :
  NoDup (map fm_id fields) -> In hm fields ->
  In (fm_id hm) (lk (hidden_by_trigger fields) t) ->
  registered hm = true /\ fm_trigger_field_id hm = Some t.
Proof.
  intros Hnd Hin Hl. apply in_lk in Hl as [hm' (Hin' & Hid & Ht)].
  assert (hm' = hm) as ->.
  { pose proof (find_field_nodup hm' Hnd Hin') as E1.
    pose proof (find_field_nodup hm Hnd Hin) as E2. congruence. }
  unfold trig_is in Ht. apply andb_true_iff in Ht as [R Ht]. split; [exact R|].
  destruct (fm_trigger_field_id hm) as [t'|]; [|discriminate].
  apply Z.eqb_eq in Ht. now subst.
Qed.

Lemma unwritten_id (m' : FieldMeta) :
  NoDup (map fm_id fields) -> In m' fields -> written m' = false ->
  forall m, In m fields -> written m = true -> fm_id m <> fm_id m'.
Proof.
  intros Hnd Hin' W' m Hin W E.
  assert (m = m') as ->.
  { pose proof (find_field_nodup m Hnd Hin) as E1.
    pose proof (find_field_nodup m' Hnd Hin') as E2. congruence. }
  congruence.
Qed.

Lemma recalc_outcome_norange (m : FieldMeta) (r : option Q) (b : bool) :
  ref_male_min m = None -> ref_female_min m = None ->
  recalc_outcome patient_gender float_repr m r b = recalc_outcome EmptyString float_repr m r b.
Proof.
  intros H1 H2. destruct r as [q|]; [|reflexivity]. unfold recalc_outcome.
  unfold check_outcome, current_ref_range. rewrite H1, H2.
  destruct (String.eqb patient_gender _); reflexivity.
Qed.

Lemma evaluator_unfold (st : State) :
  evaluator fields patient_gender float_repr st =
  (st1 <- sync_triggers fields st;; recalculate_formulas fields patient_gender float_repr st1).
Proof. reflexivity. Qed.

Lemma open_unfold (vals : option (list (Z * string))) :
  open_form fields patient_gender float_repr vals =
  (st1 <- load_existing_protocol fields vals (initial_state fields);;
   recalculate_formulas fields patient_gender float_repr st1).
Proof. reflexivity. Qed.

Lemma orphan_untouchable (hm : FieldMeta) :
  NoDup (map fm_id fields) -> In hm fields ->
  (forall t, fm_trigger_field_id hm = Some t -> find_field fields t = None) ->
  untouchable (fm_id hm).
Proof.
  intros Hnd Hin Ho t Ht Hl. apply lk_trigger_nodup in Hl as [_ Tr]; [|assumption..].
  apply Ho in Tr. unfold in_fields in Ht. rewrite Tr in Ht. discriminate.
Qed.

Lemma initial_visible (hm : FieldMeta) :
  NoDup (map fm_id fields) -> In hm fields ->
  visible (initial_state fields) (fm_id hm) = negb (registered hm).
Proof. intros Hnd Hin. simpl. now rewrite (find_field_nodup hm Hnd Hin). Qed.

Lemma load_untouch (vals : option (list (Z * string))) (st st' : State) (x : Z) :
  untouchable x -> load_existing_protocol fields vals st = Some st' ->
  visible st' x = visible st x.
Proof.
  intros U. destruct vals as [vs|]; [|intro H; now injection H as <-].
  rewrite load_unfold. intro H. apply obind_some in H as [s1 [H1 H]].
  apply load_fold_frame in H1 as (_ & _ & V1 & _).
  apply sync_triggers_frame in H as (_ & _ & _ & V2).
  rewrite V2 by exact U. simpl. rewrite (V1 x U). reflexivity.
Qed.

Lemma evaluator_untouch (st st' : State) (x : Z) :
  untouchable x -> evaluator fields patient_gender float_repr st = Some st' ->
  visible st' x = visible st x.
Proof.
  intros U H. rewrite evaluator_unfold in H. apply obind_some in H as [s1 [H1 H]].
  rewrite (recalculate_untouch _ _ _ U H).
  apply sync_triggers_frame in H1 as (_ & _ & _ & V). now apply V.
Qed.

Lemma read_value_eq (s1 s2 : State) (fid : Z) :
  value s1 fid = value s2 fid -> read_value s1 fid = read_value s2 fid.
Proof. intro E. unfold read_value, get_str. now rewrite E. Qed.

Lemma cond_recalc_frame (b : bool) (st st' : State) :
  (if b then recalculate_formulas fields patient_gender float_repr st else Some st) = Some st' ->
  (loading st = false -> loading st' = false) /\
  (forall x, (forall m, In m fields -> written m = true -> fm_id m <> x) ->
             value st' x = value st x /\ flagged st' x = flagged st x) /\
  (forall x, (forall m, In m fields -> written m = true ->
                        ~ In x (lk (hidden_by_trigger fields) (fm_id m))) ->
             visible st' x = visible st x).
Proof.
  destruct b.
  - intro H. apply recalculate_frame in H as (_ & A & B & C). auto.
  - intro H. injection H as <-. auto.
Qed.

Lemma lk_written_empty :
  (forall hm t m, In hm fields -> registered hm = true -> fm_trigger_field_id hm = Some t ->
                  In m fields -> fm_id m = t -> written m = false) ->
  forall m x, In m fields -> written m = true -> ~ In x (lk (hidden_by_trigger fields) (fm_id m)).
Proof.
  intros Hno m x Hin W Hl. apply in_lk in Hl as [hm (Hhm & _ & Ht)].
  unfold trig_is in Ht. apply andb_true_iff in Ht as [R Ht].
  destruct (fm_trigger_field_id hm) as [t|] eqn:T; [|discriminate].
  apply Z.eqb_eq in Ht. subst t.
  rewrite (Hno hm (fm_id m) m Hhm R T Hin eq_refl) in W. discriminate.
Qed.

Lemma num_not_written (m : FieldMeta) : ftype_eqb (fm_type m) FNum = true -> written m = false.
Proof. unfold written. destruct (fm_type m); simpl; congruence. Qed.

Lemma num_is_num (m : FieldMeta) : ftype_eqb (fm_type m) FNum = true -> is_num_or_formula m = true.
Proof. unfold is_num_or_formula. intro H. now rewrite H. Qed.

Lemma choice_not_num (m : FieldMeta) (items : list string) :
  widget_of m = WCombo items \/ widget_of m = WTemplate items ->
  is_num_or_formula m = false /\ written m = false.
Proof.
  intro Hw. split.
  - destruct (is_num_or_formula m) eqn:E; [|reflexivity].
    apply widget_num in E. destruct Hw; congruence.
  - destruct (written m) eqn:E; [|reflexivity].
    apply written_widget in E. destruct Hw; congruence.
Qed.

Lemma update_hidden_or (b : bool) (t : Z) (st st' : State) :
  (if b then update_hidden fields t st else Some st) = Some st' ->
  value st' = value st /\ flagged st' = flagged st /\ loading st' = loading st.
Proof.
  destruct b.
  - intro H. apply update_hidden_spec in H as (A & B & C & _). auto.
  - intro H. injection H as <-. auto.
Qed.

(** *** Saving, collecting and reopening *)

Lemma filter_keep {A} (p : A -> bool) (l : list A) :
  (forall x, In x l -> p x = true) -> filter p l = l.
Proof.
  induction l as [|a l IH]; simpl; intro H; [reflexivity|].
  rewrite (H a (or_introl eq_refl)), IH; [reflexivity|]. intros x Hx. apply H. now right.
Qed.

Lemma save_disjoint (rows kvs : list (Z * string)) :
  NoDup (map fst kvs) -> (forall kv, In kv kvs -> ~ In (fst kv) (map fst rows)) ->
  save_protocol rows kvs = (rows ++ filter (fun kv => negb (blank (snd kv))) kvs)%list.
Proof.
  unfold save_protocol. revert rows.
  induction kvs as [|kv kvs IH]; intros rows Hnd Hdis; simpl.
  - now rewrite app_nil_r.
  - inversion Hnd as [|? ? Hn Hnd']; subst.
    destruct (blank (snd kv)) eqn:B; simpl.
    + apply IH; [exact Hnd'|]. intros kv' H'. apply Hdis. now right.
    + rewrite filter_keep.
      * rewrite IH; [now rewrite <- app_assoc|exact Hnd'|].
        intros kv' H' Hin. rewrite map_app in Hin. apply in_app_or in Hin as [Hin|[E|[]]].
        -- exact (Hdis kv' (or_intror H') Hin).
        -- apply Hn. simpl in E. rewrite E. now apply in_map.
      * intros r Hr. apply negb_true_iff, Z.eqb_neq. intro E.
        apply (Hdis kv (or_introl eq_refl)). rewrite <- E. now apply in_map.
Qed.

Lemma save_fresh (kvs : list (Z * string)) :
  NoDup (map fst kvs) ->
  save_protocol [] kvs = filter (fun kv => negb (blank (snd kv))) kvs.
Proof. intro H. apply save_disjoint; [exact H|]. intros kv _ []. Qed.

Lemma collect_nodup (shown : Z -> bool) (st : State) :
  NoDup (map fm_id fields) -> NoDup (map fst (collect_values fields shown st)).
Proof. intro H. rewrite collect_keys. now apply nodup_map_filter. Qed.

Lemma collect_ext (shown : Z -> bool) (s1 s2 : State) :
  (forall m, In m fields ->
     fm_is_hidden m && negb (container_visible shown s1 (fm_id m)) =
     fm_is_hidden m && negb (container_visible shown s2 (fm_id m))) ->
  (forall m, In m fields -> fm_is_hidden m && negb (container_visible shown s2 (fm_id m)) = false ->
     (if blank (value s1 (fm_id m)) then EmptyString else value s1 (fm_id m)) =
     (if blank (value s2 (fm_id m)) then EmptyString else value s2 (fm_id m))) ->
  normalize (collect_values fields shown s1) = normalize (collect_values fields shown s2).
Proof.
  unfold collect_values, normalize.
  induction fields as [|a l IH]; intros Hv Hval; simpl; [reflexivity|].
  rewrite (Hv a (or_introl eq_refl)).
  destruct (fm_is_hidden a && negb (container_visible shown s2 (fm_id a))) eqn:E.
  - apply IH; intros m Hm; [apply Hv|apply Hval]; now right.
  - simpl. unfold get_str. f_equal.
    + f_equal. apply Hval; [now left|exact E].
    + apply IH; intros m Hm; [apply Hv|apply Hval]; now right.
Qed.

Lemma untouchable_of (hm : FieldMeta) :
  NoDup (map fm_id fields) -> In hm fields ->
  registered hm = false \/ (forall t, fm_trigger_field_id hm = Some t -> find_field fields t = None) ->
  untouchable (fm_id hm).
Proof.
  intros Hnd Hin [R|Ho].
  - intros t _ Hl. apply lk_trigger_nodup in Hl as [R' _]; [congruence|assumption..].
  - exact (orphan_untouchable hm Hnd Hin Ho).
Qed.

Lemma reopen_value (shown : Z -> bool) (S L1 : State) :
  NoDup (map fm_id fields) ->
  (forall m, In m fields ->
     (widget_of m = WDate -> valid_date (value S (fm_id m)) = true) /\
     (widget_of m = WTime -> valid_time (value S (fm_id m)) = true)) ->
  fold_left load_step (filter (fun kv => negb (blank (snd kv))) (collect_values fields shown S))
            (Some (set_loading (initial_state fields) true)) = Some L1 ->
  forall m, In m fields -> fm_is_hidden m && negb (container_visible shown S (fm_id m)) = false ->
    value L1 (fm_id m) = if blank (value S (fm_id m)) then EmptyString else value S (fm_id m).
Proof.
  intros Hnd Hdt HL m Hin Hc.
  set (vs := filter _ _) in HL.
  destruct (Hdt m Hin) as [Hd Ht].
  destruct (blank (value S (fm_id m))) eqn:B.
  - destruct (load_fold_frame _ _ _ HL) as (_ & _ & _ & F). rewrite F.
    + simpl. rewrite (find_field_nodup m Hnd Hin). unfold initial_value.
      destruct (widget_of m) eqn:W; try reflexivity.
      * rewrite valid_date_nonblank in B by (apply Hd; reflexivity). discriminate.
      * rewrite valid_time_nonblank in B by (apply Ht; reflexivity). discriminate.
    + intros kv Hkv E. unfold vs in Hkv. apply filter_In in Hkv as [Hkv Nb].
      destruct kv as [fid v]. simpl in E, Nb. subst fid.
      apply in_collect in Hkv as [m' (_ & _ & _ & ->)].
      rewrite B in Nb. discriminate.
  - assert (Hkv : In (fm_id m, value S (fm_id m)) vs).
    { unfold vs. apply filter_In. split; [|simpl; now rewrite B].
      apply in_collect. exists m. auto. }
    assert (Hne : value S (fm_id m) <> EmptyString) by (intro E; rewrite E in B; discriminate).
    exact (load_fold_value vs _ L1 (fm_id m, value S (fm_id m)) m
             (nodup_map_filter fst _ _ (collect_nodup shown S Hnd)) HL Hkv
             (find_field_nodup m Hnd Hin) Hne Hd Ht).
Qed.

(** *** The rows of a record across [save_protocol] *)

Lemma stored_append_filter (rows : Store) (kv : Z * string) (fid : Z) :
  stored (filter (fun r => negb (Z.eqb (fst r) (fst kv))) rows ++ [kv]) fid =
  if Z.eqb (fst kv) fid then Some (snd kv) else stored rows fid.
Proof.
  unfold stored. induction rows as [|r rows IH]; simpl.
  - destruct (Z.eqb (fst kv) fid); reflexivity.
  - destruct (Z.eqb_spec (fst r) (fst kv)) as [E|E]; simpl.
    + rewrite IH. destruct (Z.eqb_spec (fst kv) fid) as [E2|E2]; [reflexivity|].
      assert (E3 : Z.eqb (fst r) fid = false) by (apply Z.eqb_neq; congruence).
      now rewrite E3.
    + destruct (Z.eqb_spec (fst r) fid) as [E2|E2]; simpl.
      * destruct (Z.eqb_spec (fst kv) fid); [congruence|reflexivity].
      * exact IH.
Qed.

Lemma save_stored (rows : Store) (kvs : list (Z * string)) (fid : Z) :
  stored (save_protocol rows kvs) fid =
  fold_left (fun acc kv => if Z.eqb (fst kv) fid && negb (blank (snd kv)) then Some (snd kv) else acc)
            kvs (stored rows fid).
Proof.
  unfold save_protocol. revert rows.
  induction kvs as [|kv kvs IH]; intro rows; cbn [fold_left]; [reflexivity|].
  rewrite IH. f_equal.
  destruct (blank (snd kv)); cbn [negb].
  - now rewrite andb_false_r.
  - now rewrite andb_true_r, stored_append_filter.
Qed.

Lemma save_rows_inv (rows : Store) (kvs : list (Z * string)) :
  NoDup (map fst rows) -> (forall r, In r rows -> blank (snd r) = false) ->
  NoDup (map fst (save_protocol rows kvs)) /\
  (forall r, In r (save_protocol rows kvs) -> blank (snd r) = false).
Proof.
  unfold save_protocol. revert rows.
  induction kvs as [|kv kvs IH]; intros rows Hnd Hb; cbn [fold_left]; [auto|].
  apply IH.
  - destruct (blank (snd kv)); [exact Hnd|].
    rewrite map_app. apply (Permutation_NoDup (Permutation_app_comm (map fst [kv]) _)). simpl.
    constructor.
    + intro Hin. apply in_map_iff in Hin as [r [E Hr]].
      apply filter_In in Hr as [_ Hr]. rewrite E, Z.eqb_refl in Hr. discriminate.
    + now apply nodup_map_filter.
  - destruct (blank (snd kv)) eqn:B; [exact Hb|].
    intros r Hr. apply in_app_or in Hr as [Hr|[<-|[]]]; [|exact B].
    apply filter_In in Hr as [Hr _]. now apply Hb.
Qed.




(** *** Loading: values [set_str] does not take *)

Lemma load_fold_keep (vs : list (Z * string)) (st st' : State) (m : FieldMeta) :
  find_field fields (fm_id m) = Some m ->
  (forall kv, In kv vs -> fst kv = fm_id m ->
     forall s, value (set_str m (snd kv) s) (fm_id m) = value s (fm_id m)) ->
  fold_left load_step vs (Some st) = Some st' ->
  value st' (fm_id m) = value st (fm_id m).
Proof.
  intros Hm. revert st. induction vs as [|kv vs IH]; intros s Hk H; simpl in H.
  - now injection H as <-.
  - assert (Hk' : forall kv', In kv' vs -> fst kv' = fm_id m ->
              forall s0, value (set_str m (snd kv') s0) (fm_id m) = value s0 (fm_id m))
      by (intros; apply Hk; auto; now right).
    destruct (find_field fields (fst kv)) as [m0|] eqn:Em; [|now apply (IH s)].
    destruct (String.eqb (snd kv) EmptyString); [now apply (IH s)|].
    destruct (set_str_loading_some m0 (snd kv) s) as [s1 Hs1]. rewrite Hs1 in H.
    rewrite (IH s1 Hk' H).
    apply set_str_loading_spec in Hs1 as (E1 & _). rewrite E1.
    destruct (Z.eqb_spec (fst kv) (fm_id m)) as [E|E].
    + rewrite E, Hm in Em. injection Em as <-. now apply Hk; [now left|].
    + apply find_field_some in Em as [_ Hid].
      destruct (set_str_frame m0 (snd kv) s) as (_ & _ & _ & F). apply F. congruence.
Qed.


End Facts.
End Facts.

(** ** Lemmas on the display order *)

Module RepoFacts.
Import Repo.
Local Open Scope Z_scope.

Ltac zcases :=
  repeat match goal with
         | |- context [Z.ltb ?a ?b] => destruct (Z.ltb_spec a b)
         | |- context [Z.eqb ?a ?b] => destruct (Z.eqb_spec a b)
         | H : context [Z.ltb ?a ?b] |- _ => destruct (Z.ltb_spec a b)
         | H : context [Z.eqb ?a ?b] |- _ => destruct (Z.eqb_spec a b)
         end; simpl in *; try lia; try congruence.

Section Order.
Context {P : Type}.

Lemma key_ltb_asym (r s : Row P) : key_ltb r s = true -> key_ltb s r = false.
Proof. unfold key_ltb. destruct (row_order r), (row_order s); zcases. Qed.

Lemma key_le_trans (r s t : Row P) : key_le r s -> key_le s t -> key_le r t.
Proof. unfold key_le, key_ltb. destruct (row_order r), (row_order s), (row_order t); zcases. Qed.

Lemma key_le_antisym (r s : Row P) : key_le r s -> key_le s r -> row_id r = row_id s.
Proof. unfold key_le, key_ltb. destruct (row_order r), (row_order s); zcases. Qed.

Lemma ord_lt_key_le (r s : Row P) : ord_lt (row_order r) (row_order s) -> key_le r s.
Proof. unfold ord_lt, key_le, key_ltb. destruct (row_order r), (row_order s); zcases; tauto. Qed.

Lemma insert_row_perm (r : Row P) (l : list (Row P)) : Permutation (insert_row r l) (r :: l).
Proof.
  induction l as [|s t IH]; simpl; [auto|].
  destruct (key_ltb s r); [|auto].
  eapply perm_trans; [apply perm_skip, IH|apply perm_swap].
Qed.

Lemma order_by_perm (l : list (Row P)) : Permutation (order_by l) l.
Proof.
  induction l as [|a l IH]; simpl; [auto|].
  eapply perm_trans; [apply insert_row_perm|]. now apply perm_skip.
Qed.

Lemma insert_row_sorted (r : Row P) (l : list (Row P)) :
  Sorted key_le l -> Sorted key_le (insert_row r l).
Proof.
  induction l as [|s t IH]; intro H; simpl; [auto|].
  apply Sorted_inv in H as [Ht Hs].
  destruct (key_ltb s r) eqn:E.
  - constructor; [now apply IH|].
    destruct t as [|u t']; simpl.
    + constructor. unfold key_le. now apply key_ltb_asym.
    + destruct (key_ltb u r); constructor; [now inversion Hs|].
      unfold key_le. now apply key_ltb_asym.
  - constructor; [now constructor|]. constructor. exact E.
Qed.

Lemma order_by_sorted (l : list (Row P)) : Sorted key_le (order_by l).
Proof. induction l; simpl; [constructor|]. now apply insert_row_sorted. Qed.

Lemma sorted_unique (l1 l2 : list (Row P)) :
  Sorted key_le l1 -> Sorted key_le l2 -> Permutation l1 l2 ->
  NoDup (map row_id l1) -> l1 = l2.
Proof.
  intros S1 S2. apply Sorted_StronglySorted in S1; [|exact key_le_trans].
  apply Sorted_StronglySorted in S2; [|exact key_le_trans].
  revert l2 S2. induction S1 as [|x t1 S1 IH H1]; intros l2 S2 Hp Hnd.
  - symmetry. now apply Permutation_nil.
  - destruct l2 as [|y t2]; [now apply Permutation_sym, Permutation_nil_cons in Hp|].
    inversion S2 as [|? ? S2' H2]; subst.
    inversion Hnd as [|? ? Hn Hnd']; subst.
    assert (Exy : x = y).
    { assert (Hy : In y (x :: t1)) by (apply (Permutation_in _ (Permutation_sym Hp)); now left).
      destruct Hy as [Hy|Hy]; [exact Hy|].
      assert (Hx : In x (y :: t2)) by (apply (Permutation_in _ Hp); now left).
      destruct Hx as [Hx|Hx]; [now symmetry|].
      exfalso. apply Hn.
      rewrite (key_le_antisym x y (proj1 (Forall_forall _ _) H1 y Hy)
                 (proj1 (Forall_forall _ _) H2 x Hx)).
      now apply in_map. }
    subst y. f_equal. apply IH; [exact S2'| |exact Hnd'].
    exact (Permutation_cons_inv Hp).
Qed.

Lemma sorted_map {A B} (f : A -> B) (R : B -> B -> Prop) (l : list A) :
  Sorted R (map f l) <-> Sorted (fun u v => R (f u) (f v)) l.
Proof.
  induction l as [|a l IH]; simpl; split; intro H; [constructor|constructor| |].
  - apply Sorted_inv in H as [H1 H2]. constructor; [now apply IH|].
    destruct l; constructor. now inversion H2.
  - apply Sorted_inv in H as [H1 H2]. constructor; [now apply IH|].
    destruct l; simpl; constructor. now inversion H2.
Qed.

Lemma sorted_mono {A} (R R' : A -> A -> Prop) (l : list A) :
  (forall u v, R u v -> R' u v) -> Sorted R l -> Sorted R' l.
Proof.
  intros HR. induction l as [|a l IH]; intro H; [constructor|].
  apply Sorted_inv in H as [H1 H2]. constructor; [auto|].
  destruct l; constructor. inversion H2; auto.
Qed.

Lemma sorted_strict (l : list (Row P)) :
  Sorted key_le l -> (forall r, In r l -> row_order r <> None) ->
  NoDup (map row_order l) -> Sorted (fun u v => ord_lt (row_order u) (row_order v)) l.
Proof.
  induction l as [|u t IH]; intros H Hs Hd; [constructor|].
  apply Sorted_inv in H as [H1 H2]. inversion Hd as [|? ? Hn Hd']; subst.
  constructor; [apply IH; auto; intros r Hr; apply Hs; now right|].
  destruct t as [|v t]; constructor. inversion H2 as [|? ? Hle]; subst.
  assert (Hu := Hs u (or_introl eq_refl)). assert (Hv := Hs v (or_intror (or_introl eq_refl))).
  assert (Hne : row_order u <> row_order v) by (intro E; apply Hn; rewrite E; now left).
  unfold key_le, key_ltb in Hle. unfold ord_lt.
  destruct (row_order u) as [a|], (row_order v) as [b|]; try congruence.
  assert (a <> b) by congruence.
  zcases.
Qed.

Lemma find_id (rows : list (Row P)) (r : Row P) :
  NoDup (map row_id rows) -> In r rows -> find (fun s => row_id s =? row_id r) rows = Some r.
Proof.
  induction rows as [|s t IH]; intros Hnd Hin; [destruct Hin|].
  inversion Hnd as [|? ? Hn Hnd']; subst. simpl.
  destruct Hin as [<-|Hin]; [now rewrite Z.eqb_refl|].
  destruct (Z.eqb_spec (row_id s) (row_id r)) as [E|E]; [|auto].
  exfalso. apply Hn. rewrite E. now apply in_map.
Qed.

Lemma nodup_same_id {A} (f : A -> Z) (l : list A) (a b : A) :
  NoDup (map f l) -> In a l -> In b l -> f a = f b -> a = b.
Proof.
  induction l as [|c l IH]; intros Hnd Ha Hb E; [destruct Ha|].
  inversion Hnd as [|? ? Hn Hnd']; subst.
  destruct Ha as [<-|Ha], Hb as [<-|Hb]; auto.
  - exfalso. apply Hn. rewrite E. now apply in_map.
  - exfalso. apply Hn. rewrite <- E. now apply in_map.
Qed.

Lemma index_of_app (pre post : list Z) (a : Z) :
  NoDup (pre ++ a :: post) -> index_of a (pre ++ a :: post) = Some (length pre).
Proof.
  induction pre as [|b pre IH]; simpl; intro H; [now rewrite Z.eqb_refl|].
  inversion H as [|? ? Hn H']; subst.
  destruct (Z.eqb_spec b a) as [E|E].
  - exfalso. apply Hn. subst. apply in_or_app. now right; left.
  - now rewrite IH.
Qed.

Lemma with_order_id (r : Row P) o : row_id (with_order r o) = row_id r.
Proof. reflexivity. Qed.

Lemma with_order_self (r : Row P) : with_order r (row_order r) = r.
Proof. now destruct r. Qed.

Lemma set_order_ids (id o : Z) (rows : list (Row P)) :
  map row_id (set_order id o rows) = map row_id rows.
Proof.
  unfold set_order. rewrite map_map. apply map_ext. intro r.
  now destruct (row_id r =? id).
Qed.

Lemma set_order_comm (i1 i2 o1 o2 : Z) (rows : list (Row P)) :
  i1 <> i2 -> set_order i1 o1 (set_order i2 o2 rows) = set_order i2 o2 (set_order i1 o1 rows).
Proof.
  intro Hne. unfold set_order. rewrite !map_map. apply map_ext. intro r.
  destruct (Z.eqb_spec (row_id r) i2), (Z.eqb_spec (row_id r) i1); simpl;
    rewrite ?with_order_id; zcases.
Qed.

Lemma set_order_keep (id o : Z) (l : list (Row P)) :
  (forall r, In r l -> row_id r <> id) -> set_order id o l = l.
Proof.
  intro H. unfold set_order. rewrite <- (map_id l) at 2. apply map_ext_in. intros r Hr.
  destruct (Z.eqb_spec (row_id r) id); [now destruct (H r Hr)|reflexivity].
Qed.

Lemma set_order_noop (id o : Z) (l : list (Row P)) :
  (forall r, In r l -> row_id r = id -> row_order r = Some o) -> set_order id o l = l.
Proof.
  intro H. unfold set_order. rewrite <- (map_id l) at 2. apply map_ext_in. intros r Hr.
  destruct (Z.eqb_spec (row_id r) id) as [E|E]; [|reflexivity].
  rewrite <- (H r Hr E). apply with_order_self.
Qed.

Lemma filter_set_order (h : Row P -> bool) (id o : Z) (l : list (Row P)) :
  (forall r o', h (with_order r o') = h r) ->
  filter h (set_order id o l) = set_order id o (filter h l).
Proof.
  intro Hh. unfold set_order. induction l as [|r l IH]; simpl; [reflexivity|].
  destruct (row_id r =? id) eqn:E; rewrite ?Hh; destruct (h r); simpl; rewrite ?E, IH; reflexivity.
Qed.

Lemma filter_set_order_out (h : Row P -> bool) (id o : Z) (l : list (Row P)) :
  (forall r o', h (with_order r o') = h r) ->
  (forall r, In r l -> row_id r = id -> h r = false) ->
  filter h (set_order id o l) = filter h l.
Proof.
  intros Hh Hout. rewrite filter_set_order by exact Hh. apply set_order_keep.
  intros r Hr E. apply filter_In in Hr as [Hr Hhr]. rewrite (Hout r Hr E) in Hhr. discriminate.
Qed.

Lemma select_in (where_ : Row P -> bool) (rows : list (Row P)) (r : Row P) :
  In r (select where_ rows) -> In r rows /\ where_ r = true.
Proof.
  unfold select. intro H. apply (Permutation_in _ (order_by_perm _)) in H.
  now apply filter_In in H.
Qed.

Lemma select_nodup (where_ : Row P -> bool) (rows : list (Row P)) :
  NoDup (map row_id rows) -> NoDup (map row_id (select where_ rows)).
Proof.
  intro H. unfold select.
  apply (Permutation_NoDup (Permutation_map _ (Permutation_sym (order_by_perm _)))).
  induction rows as [|a l IH]; simpl; [constructor|].
  inversion H as [|? ? Hn H']; subst.
  destruct (where_ a); simpl; [|auto]. constructor; [|auto].
  intro Hin. apply Hn. apply in_map_iff in Hin as [b [Hb Hin]].
  apply filter_In in Hin as [Hin _]. rewrite <- Hb. now apply in_map.
Qed.

Lemma set_order_twice (id o o' : Z) (l : list (Row P)) :
  set_order id o (set_order id o' l) = set_order id o l.
Proof.
  unfold set_order. rewrite map_map. apply map_ext. intro r.
  destruct (Z.eqb_spec (row_id r) id); simpl; [now rewrite (proj2 (Z.eqb_eq _ _))|].
  now rewrite (proj2 (Z.eqb_neq _ _)).
Qed.

Lemma set_order_app (id o : Z) (l1 l2 : list (Row P)) :
  set_order id o (l1 ++ l2) = set_order id o l1 ++ set_order id o l2.
Proof. apply map_app. Qed.

Lemma set_order_cons (id o : Z) (r : Row P) (l : list (Row P)) :
  set_order id o (r :: l) = (if row_id r =? id then with_order r (Some o) else r) :: set_order id o l.
Proof. reflexivity. Qed.

Lemma split_ids (pre mid post : list (Row P)) (x y : Row P) :
  NoDup (map row_id (pre ++ x :: mid ++ y :: post)) ->
  row_id x <> row_id y /\
  (forall r, In r pre \/ In r mid \/ In r post -> row_id r <> row_id x /\ row_id r <> row_id y).
Proof.
  intro H. rewrite map_app in H. simpl in H. rewrite map_app in H. simpl in H.
  assert (Ha := NoDup_remove_2 _ _ _ H).
  assert (H' : NoDup ((map row_id pre ++ row_id x :: map row_id mid) ++ row_id y :: map row_id post))
    by now rewrite <- app_assoc.
  assert (Hb := NoDup_remove_2 _ _ _ H').
  split.
  - intro E. apply Ha. rewrite E. apply in_or_app. right. apply in_or_app. right. now left.
  - intros r Hr. split; intro E.
    + apply Ha. rewrite <- E. rewrite !in_app_iff. simpl.
      destruct Hr as [Hr|[Hr|Hr]]; apply (in_map row_id) in Hr; tauto.
    + apply Hb. rewrite <- E. rewrite !in_app_iff. simpl.
      destruct Hr as [Hr|[Hr|Hr]]; apply (in_map row_id) in Hr; tauto.
Qed.

Lemma perm_exchange (pre mid post : list (Row P)) (a b : Row P) :
  Permutation (pre ++ a :: mid ++ b :: post) (pre ++ b :: mid ++ a :: post).
Proof.
  apply Permutation_app_head.
  eapply perm_trans; [apply perm_skip, Permutation_sym, Permutation_middle|].
  eapply perm_trans; [apply perm_swap|].
  apply perm_skip, Permutation_middle.
Qed.

End Order.

Section Move.
Context {P : Type} (where_ : Row P -> bool).
Hypothesis where_order : forall r o, where_ (with_order r o) = where_ r.

Lemma move_among_explicit (rows pre mid post : list (Row P)) (x y : Row P) (target dir : Z) :
  NoDup (map row_id rows) -> select where_ rows = pre ++ x :: mid ++ y :: post ->
  (target = row_id x /\ dir = Z.of_nat (S (length mid)) \/
   target = row_id y /\ dir = - Z.of_nat (S (length mid))) ->
  move_among where_ target dir rows =
  set_order (row_id y) (or0 (row_order x)) (set_order (row_id x) (or0 (row_order y)) rows).
Proof.
  intros Hnd HL Hd. assert (Hn := select_nodup where_ rows Hnd). rewrite HL in Hn.
  destruct (split_ids pre mid post x y Hn) as [Hxy _].
  unfold move_among. cbv zeta. rewrite HL.
  rewrite length_map, !length_app. simpl length. rewrite length_app. simpl length.
  destruct Hd as [[-> ->]|[-> ->]].
  - assert (Ei : map row_id (pre ++ x :: mid ++ y :: post) =
                 map row_id pre ++ row_id x :: map row_id (mid ++ y :: post))
      by (rewrite map_app; reflexivity).
    rewrite Ei. rewrite Ei in Hn. rewrite index_of_app by exact Hn. rewrite length_map.
    match goal with |- (if ?c then _ else _) = _ => replace c with false end.
    2:{ symmetry. apply orb_false_intro; [apply Z.ltb_ge|rewrite Z.geb_leb; apply Z.leb_gt]; lia. }
    rewrite nth_error_app2, Nat.sub_diag by lia. simpl.
    match goal with |- context [Z.to_nat ?e] =>
      replace (Z.to_nat e) with (length pre + S (length mid))%nat by lia end.
    rewrite nth_error_app2 by lia.
    replace (length pre + S (length mid) - length pre)%nat with (S (length mid)) by lia.
    simpl. rewrite nth_error_app2, Nat.sub_diag by lia. reflexivity.
  - assert (Ei : map row_id (pre ++ x :: mid ++ y :: post) =
                 map row_id (pre ++ x :: mid) ++ row_id y :: map row_id post)
      by (rewrite !map_app; simpl; rewrite !map_app, <- app_assoc; reflexivity).
    rewrite Ei. rewrite Ei in Hn. rewrite index_of_app by exact Hn.
    rewrite length_map, length_app. simpl length.
    match goal with |- (if ?c then _ else _) = _ => replace c with false end.
    2:{ symmetry. apply orb_false_intro; [apply Z.ltb_ge|rewrite Z.geb_leb; apply Z.leb_gt]; lia. }
    replace (pre ++ x :: mid ++ y :: post) with ((pre ++ x :: mid) ++ y :: post)
      by (rewrite <- app_assoc; reflexivity).
    rewrite nth_error_app2 by (rewrite length_app; simpl; lia).
    rewrite length_app. simpl length. rewrite Nat.sub_diag. simpl.
    match goal with |- context [Z.to_nat ?e] =>
      replace (Z.to_nat e) with (length pre) by lia end.
    rewrite nth_error_app1 by (rewrite length_app; simpl; lia).
    rewrite nth_error_app2, Nat.sub_diag by lia. simpl.
    apply set_order_comm. congruence.
Qed.

Lemma move_among_listing (rows pre mid post : list (Row P)) (x y : Row P) (target dir : Z) :
  NoDup (map row_id rows) -> select where_ rows = pre ++ x :: mid ++ y :: post ->
  (forall r, In r (select where_ rows) -> row_order r <> None) ->
  NoDup (map row_order (select where_ rows)) ->
  (target = row_id x /\ dir = Z.of_nat (S (length mid)) \/
   target = row_id y /\ dir = - Z.of_nat (S (length mid))) ->
  select where_ (move_among where_ target dir rows) =
  pre ++ with_order y (row_order x) :: mid ++ with_order x (row_order y) :: post.
Proof.
  intros Hnd HL Hs Ho Hd.
  rewrite (move_among_explicit rows pre mid post x y target dir Hnd HL Hd).
  assert (Hn := select_nodup where_ rows Hnd). rewrite HL in Hn.
  destruct (split_ids pre mid post x y Hn) as [Hxy Hr].
  assert (Hsx : row_order x <> None) by (apply Hs; rewrite HL; apply in_or_app; right; now left).
  assert (Hsy : row_order y <> None)
    by (apply Hs; rewrite HL; apply in_or_app; right; right; apply in_or_app; right; now left).
  assert (SL : Sorted key_le (pre ++ x :: mid ++ y :: post))
    by (rewrite <- HL; apply order_by_sorted).
  destruct (row_order x) as [a|] eqn:Ex; [|congruence].
  destruct (row_order y) as [b|] eqn:Ey; [|congruence]. simpl or0.
  unfold select at 1. rewrite !filter_set_order by exact where_order.
  assert (HF : Permutation (filter where_ rows) (pre ++ x :: mid ++ y :: post))
    by (rewrite <- HL; apply Permutation_sym, order_by_perm).
  assert (Hmap : set_order (row_id y) a (set_order (row_id x) b (pre ++ x :: mid ++ y :: post)) =
                 pre ++ with_order x (Some b) :: mid ++ with_order y (Some a) :: post).
  { rewrite !set_order_app, !set_order_cons, !set_order_app, !set_order_cons.
    rewrite !(set_order_keep _ _ pre), !(set_order_keep _ _ mid), !(set_order_keep _ _ post);
      try (intros r Hin; apply (Hr r); tauto).
    rewrite Z.eqb_refl, with_order_id. rewrite (proj2 (Z.eqb_neq _ _) Hxy).
    rewrite (proj2 (Z.eqb_neq (row_id y) (row_id x)) (not_eq_sym Hxy)), Z.eqb_refl.
    reflexivity. }
  apply sorted_unique.
  - apply order_by_sorted.
  - apply (sorted_mono (fun u v => ord_lt (row_order u) (row_order v)));
      [intros u v; apply ord_lt_key_le|].
    apply (sorted_map row_order ord_lt).
    replace (map row_order (pre ++ with_order y (Some a) :: mid ++ with_order x (Some b) :: post))
      with (map row_order (pre ++ x :: mid ++ y :: post))
      by (rewrite !map_app; simpl; rewrite !map_app; simpl; now rewrite Ex, Ey).
    apply sorted_map. rewrite <- HL. apply sorted_strict; [now rewrite HL| |]; assumption.
  - eapply perm_trans; [apply order_by_perm|].
    eapply perm_trans; [apply Permutation_map, Permutation_map, HF|].
    change (Permutation (set_order (row_id y) a (set_order (row_id x) b (pre ++ x :: mid ++ y :: post)))
              (pre ++ with_order y (Some a) :: mid ++ with_order x (Some b) :: post)).
    rewrite Hmap. apply perm_exchange.
  - apply (Permutation_NoDup (Permutation_map row_id (Permutation_sym (order_by_perm _)))).
    rewrite !set_order_ids. apply (Permutation_NoDup (Permutation_map row_id (Permutation_sym HF))).
    exact Hn.
Qed.

Lemma in_set_order (id o : Z) (rows : list (Row P)) (r : Row P) :
  In r (set_order id o rows) -> exists r0, In r0 rows /\ row_id r0 = row_id r /\ row_parent r0 = row_parent r.
Proof.
  unfold set_order. intro H. apply in_map_iff in H as [r0 [E H]].
  exists r0. destruct (row_id r0 =? id); subst; auto.
Qed.

Lemma move_among_out (h : Row P -> bool) (rows : list (Row P)) (target dir : Z) :
  (forall r o, h (with_order r o) = h r) ->
  (forall r s, row_parent r = row_parent s -> h r = h s) ->
  (forall r, where_ r = true -> h r = false) ->
  NoDup (map row_id rows) ->
  filter h (move_among where_ target dir rows) = filter h rows.
Proof.
  intros Hh Hp Hout Hnd. unfold move_among. cbv zeta.
  destruct (index_of target _) as [i|]; [|reflexivity].
  destruct (_ || _); [reflexivity|].
  destruct (nth_error (select where_ rows) i) as [a|] eqn:Ea; [|reflexivity].
  destruct (nth_error (select where_ rows) (Z.to_nat (Z.of_nat i + dir))) as [b|] eqn:Eb; [|reflexivity].
  apply nth_error_In, select_in in Ea as [Ha Wa].
  apply nth_error_In, select_in in Eb as [Hb Wb].
  rewrite filter_set_order_out by
    (try exact Hh; intros r Hr E; apply in_set_order in Hr as (r0 & Hr0 & Er & Pr);
     rewrite <- (Hp _ _ Pr), (nodup_same_id row_id rows r0 b Hnd Hr0 Hb ltac:(congruence));
     now apply Hout).
  apply filter_set_order_out; [exact Hh|].
  intros r Hr E. rewrite (nodup_same_id row_id rows r a Hnd Hr Ha E). now apply Hout.
Qed.

Lemma move_among_edge (rows pre post : list (Row P)) (x : Row P) (dir : Z) :
  NoDup (map row_id rows) -> select where_ rows = pre ++ x :: post ->
  (dir < - Z.of_nat (length pre) \/ Z.of_nat (length post) < dir) ->
  move_among where_ (row_id x) dir rows = rows.
Proof.
  intros Hnd HL Hd. assert (Hn := select_nodup where_ rows Hnd). rewrite HL, map_app in Hn.
  unfold move_among. cbv zeta. rewrite HL, map_app. simpl map.
  rewrite index_of_app by exact Hn. rewrite length_app, length_map. simpl length. rewrite length_map.
  match goal with |- (if ?c then _ else _) = _ => replace c with true end; [reflexivity|].
  symmetry. apply orb_true_intro.
  destruct Hd; [left; apply Z.ltb_lt|right; rewrite Z.geb_leb; apply Z.leb_le]; lia.
Qed.

Lemma move_among_same_order (rows pre mid post : list (Row P)) (x y : Row P) (target dir o : Z) :
  NoDup (map row_id rows) -> select where_ rows = pre ++ x :: mid ++ y :: post ->
  row_order x = Some o -> row_order y = Some o ->
  (target = row_id x /\ dir = Z.of_nat (S (length mid)) \/
   target = row_id y /\ dir = - Z.of_nat (S (length mid))) ->
  move_among where_ target dir rows = rows.
Proof.
  intros Hnd HL Ox Oy Hd. rewrite (move_among_explicit rows pre mid post x y target dir Hnd HL Hd).
  assert (Hx : In x rows)
    by (apply (select_in where_); rewrite HL; apply in_or_app; right; now left).
  assert (Hy : In y rows)
    by (apply (select_in where_); rewrite HL; apply in_or_app; right; right;
        apply in_or_app; right; now left).
  rewrite Ox, Oy. simpl or0.
  rewrite (set_order_noop (row_id x)), (set_order_noop (row_id y)); [reflexivity| |];
    intros r Hr E; [rewrite (nodup_same_id row_id rows r y Hnd Hr Hy E); exact Oy
                   |rewrite (nodup_same_id row_id rows r x Hnd Hr Hx E); exact Ox].
Qed.

Lemma move_among_listing_props (rows pre mid post : list (Row P)) (x y : Row P) (target dir : Z) :
  NoDup (map row_id rows) -> select where_ rows = pre ++ x :: mid ++ y :: post ->
  (forall r, In r (select where_ rows) -> row_order r <> None) ->
  NoDup (map row_order (select where_ rows)) ->
  (target = row_id x /\ dir = Z.of_nat (S (length mid)) \/
   target = row_id y /\ dir = - Z.of_nat (S (length mid))) ->
  let rows' := move_among where_ target dir rows in
  NoDup (map row_id rows') /\
  (forall r, In r (select where_ rows') -> row_order r <> None) /\
  NoDup (map row_order (select where_ rows')).
Proof.
  intros Hnd HL Hs Ho Hd rows'.
  assert (HL' := move_among_listing rows pre mid post x y target dir Hnd HL Hs Ho Hd).
  fold rows' in HL'.
  assert (Eo : map row_order (select where_ rows') = map row_order (select where_ rows)).
  { rewrite HL', HL, !map_app. simpl. now rewrite !map_app. }
  split; [|split].
  - unfold rows'. rewrite (move_among_explicit rows pre mid post x y target dir Hnd HL Hd).
    now rewrite !set_order_ids.
  - intros r Hr E. apply (in_map row_order) in Hr. rewrite Eo, E in Hr.
    apply in_map_iff in Hr as [r0 [E0 Hr0]]. exact (Hs r0 Hr0 E0).
  - now rewrite Eo.
Qed.

Lemma move_among_back (rows pre mid post : list (Row P)) (x y : Row P) (target dir : Z) :
  NoDup (map row_id rows) -> select where_ rows = pre ++ x :: mid ++ y :: post ->
  (forall r, In r (select where_ rows) -> row_order r <> None) ->
  (target = row_id x /\ dir = Z.of_nat (S (length mid)) \/
   target = row_id y /\ dir = - Z.of_nat (S (length mid))) ->
  NoDup (map row_order (select where_ rows)) ->
  move_among where_ target (- dir) (move_among where_ target dir rows) = rows.
Proof.
  intros Hnd HL Hs Hd Ho.
  assert (HL' := move_among_listing rows pre mid post x y target dir Hnd HL Hs Ho Hd).
  destruct (move_among_listing_props rows pre mid post x y target dir Hnd HL Hs Ho Hd)
    as [Hnd' _].
  rewrite (move_among_explicit rows pre mid post x y target dir Hnd HL Hd) in Hnd', HL' |- *.
  assert (Hd' : target = row_id (with_order y (row_order x)) /\
                  - dir = Z.of_nat (S (length mid)) \/
                target = row_id (with_order x (row_order y)) /\
                  - dir = - Z.of_nat (S (length mid))) by (simpl; lia).
  rewrite (move_among_explicit _ pre mid post _ _ target (- dir) Hnd' HL' Hd'). simpl row_id.
  assert (Hx : In x rows)
    by (apply (select_in where_); rewrite HL; apply in_or_app; right; now left).
  assert (Hy : In y rows)
    by (apply (select_in where_); rewrite HL; apply in_or_app; right; right;
        apply in_or_app; right; now left).
  assert (Hsx : row_order x <> None) by (apply Hs; rewrite HL; apply in_or_app; right; now left).
  assert (Hsy : row_order y <> None)
    by (apply Hs; rewrite HL; apply in_or_app; right; right; apply in_or_app; right; now left).
  destruct (row_order x) as [a|] eqn:Ex; [|congruence].
  destruct (row_order y) as [b|] eqn:Ey; [|congruence]. simpl.
  assert (Hxy : row_id x <> row_id y).
  { intro E. assert (Hn := select_nodup where_ rows Hnd). rewrite HL in Hn.
    exact (proj1 (split_ids pre mid post x y Hn) E). }
  rewrite set_order_twice, (set_order_comm (row_id y) (row_id x)) by exact (not_eq_sym Hxy).
  rewrite set_order_twice, set_order_comm by exact Hxy.
  rewrite (set_order_noop (row_id x)), (set_order_noop (row_id y)); [reflexivity| |];
    intros r Hr E; [rewrite (nodup_same_id row_id rows r y Hnd Hr Hy E); exact Ey
                   |rewrite (nodup_same_id row_id rows r x Hnd Hr Hx E); exact Ex].
Qed.

End Move.

Section Create.
Context {P : Type}.

Lemma insert_row_last (r n : Row P) (l : list (Row P)) :
  key_ltb r n = true -> insert_row r (l ++ [n]) = insert_row r l ++ [n].
Proof.
  intro Hr. induction l as [|s t IH]; simpl.
  - now rewrite (key_ltb_asym r n Hr).
  - destruct (key_ltb s r); [now rewrite IH|reflexivity].
Qed.

Lemma order_by_last (n : Row P) (l : list (Row P)) :
  (forall s, In s l -> key_ltb s n = true) -> order_by (l ++ [n]) = order_by l ++ [n].
Proof.
  induction l as [|a l IH]; intro H; [reflexivity|].
  simpl. rewrite IH by (intros s Hs; apply H; now right).
  apply insert_row_last. apply H. now left.
Qed.

Lemma max_order_fold (l : list (Row P)) (acc : option Z) :
  let res := fold_left (fun acc r =>
                    match row_order r with
                    | Some z => match acc with Some m => Some (Z.max m z) | None => Some z end
                    | None => acc
                    end) l acc in
  (forall m0, acc = Some m0 -> exists m, res = Some m /\ m0 <= m) /\
  (forall r z, In r l -> row_order r = Some z -> exists m, res = Some m /\ z <= m).
Proof.
  revert acc. induction l as [|r l IH]; intros acc res; simpl in res.
  - split; [intros m0 ->; exists m0; subst res; split; [reflexivity|lia]|intros ? ? []].
  - destruct (IH (match row_order r with
                  | Some z => match acc with Some m => Some (Z.max m z) | None => Some z end
                  | None => acc end)) as [I1 I2].
    fold res in I1, I2. split.
    + intros m0 ->. destruct (row_order r) as [z|].
      * destruct (I1 (Z.max m0 z) eq_refl) as [m [E L]]. exists m. split; [exact E|lia].
      * exact (I1 m0 eq_refl).
    + intros r' z [<-|Hin] Ez; [|exact (I2 r' z Hin Ez)].
      rewrite Ez in I1. destruct acc as [m0|].
      * destruct (I1 _ eq_refl) as [m [E L]]. exists m. split; [exact E|lia].
      * destruct (I1 _ eq_refl) as [m [E L]]. exists m. split; [exact E|lia].
Qed.

Lemma max_order_ge (where_ : Row P -> bool) (rows : list (Row P)) (r : Row P) (z : Z) :
  In r (filter where_ rows) -> row_order r = Some z -> z <= max_order where_ rows.
Proof.
  intros Hin Ez. unfold max_order.
  destruct (proj2 (max_order_fold (filter where_ rows) None) r z Hin Ez) as [m [E L]].
  rewrite E. exact L.
Qed.

End Create.

Lemma move_child_as_among (rows : list (Row Z)) (p : Z) (r : Row Z) (dir : Z) :
  NoDup (map row_id rows) -> In r (list_children p rows) ->
  move_child (row_id r) dir rows = move_among (fun s => row_parent s =? p) (row_id r) dir rows.
Proof.
  intros Hnd Hin. apply select_in in Hin as [Hin Hp].
  unfold move_child. rewrite find_id by assumption.
  apply Z.eqb_eq in Hp. now rewrite Hp.
Qed.

Lemma move_field_as_among (rows : list (Row (Z * option Z))) (g c : Z) (r : Row (Z * option Z)) (dir : Z) :
  NoDup (map row_id rows) -> In r (select (in_column g c) rows) -> c <> 0 ->
  move_field (row_id r) dir rows = move_among (in_column g c) (row_id r) dir rows.
Proof.
  intros Hnd Hin Hc. apply select_in in Hin as [Hin Hw].
  unfold move_field. rewrite find_id by assumption.
  unfold in_column in Hw |- *. apply andb_true_iff in Hw as [Hg Hcol].
  apply Z.eqb_eq in Hg. rewrite Hg.
  destruct (snd (row_parent r)) as [c'|]; [|discriminate]. apply Z.eqb_eq in Hcol. subst c'.
  unfold or1. now rewrite (proj2 (Z.eqb_neq c 0) Hc).
Qed.

Lemma index_of_none (x : Z) (l : list Z) : ~ In x l -> index_of x l = None.
Proof.
  induction l as [|y l IH]; intro H; [reflexivity|]. simpl.
  destruct (Z.eqb_spec y x) as [E|E]; [exfalso; apply H; now left|].
  rewrite IH; [reflexivity|]. intro; apply H; now right.
Qed.

End RepoFacts.

(** ** Number text: [_check_reference]'s rewrite read back *)

Module NumFacts.
Import Text Form Engine Derived Num.
Local Open Scope string_scope.

Lemma str_app_assoc (a b c : string) : (a ++ b) ++ c = a ++ (b ++ c).
Proof. induction a; simpl; congruence. Qed.

Lemma str_app_nil (a : string) : a ++ "" = a.
Proof. induction a; simpl; congruence. Qed.

Lemma str_length_app (a b : string) : String.length (a ++ b) = (String.length a + String.length b)%nat.
Proof. induction a; simpl; congruence. Qed.

Lemma digits_acc_pos (d : Decimal.uint) (acc : positive) :
  Py.digits_value_acc (Z.pos acc) (NilEmpty.string_of_uint d) = Z.pos (Pos.of_uint_acc d acc).
Proof.
  revert acc. induction d; intro acc;
    cbn [NilEmpty.string_of_uint Py.digits_value_acc Pos.of_uint_acc]; try reflexivity;
    rewrite <- IHd; f_equal; unfold Py.digit_val;
    match goal with |- context [Z.of_nat (nat_of_ascii ?c - 48)] =>
      let v := eval compute in (Z.of_nat (nat_of_ascii c - 48)) in
      change (Z.of_nat (nat_of_ascii c - 48)) with v end; lia.
Qed.

Lemma digits_uint (d : Decimal.uint) :
  Py.digits_value (NilEmpty.string_of_uint d) = Z.of_N (Pos.of_uint d).
Proof.
  unfold Py.digits_value.
  induction d; cbn [NilEmpty.string_of_uint Py.digits_value_acc Pos.of_uint Z.of_N]; try reflexivity;
    [exact IHd|..]; rewrite <- digits_acc_pos; reflexivity.
Qed.

Lemma nat_digits_value (n : N) : Py.digits_value (nat_digits n) = Z.of_N n.
Proof.
  unfold nat_digits. rewrite <- (DecimalN.Unsigned.of_to n) at 2.
  destruct (N.to_uint n) eqn:E; [reflexivity|..]; unfold NilZero.string_of_uint;
    rewrite digits_uint; reflexivity.
Qed.

Lemma all_digits_uint (d : Decimal.uint) : all_digits (NilEmpty.string_of_uint d) = true.
Proof. induction d; simpl; auto. Qed.

Lemma nat_digits_ok (n : N) : all_digits (nat_digits n) = true /\ nat_digits n <> "".
Proof.
  unfold nat_digits, NilZero.string_of_uint.
  destruct (N.to_uint n); split; try discriminate; try reflexivity; apply all_digits_uint.
Qed.

Lemma all_digits_zeros (k : nat) : all_digits (zeros k) = true.
Proof. induction k; simpl; auto. Qed.

Lemma all_digits_app (a b : string) : all_digits (a ++ b) = all_digits a && all_digits b.
Proof. induction a; simpl; [reflexivity|]. rewrite IHa. now rewrite andb_assoc. Qed.

Lemma all_digits_substring (n m : nat) (s : string) :
  all_digits s = true -> all_digits (substring n m s) = true.
Proof.
  revert n m. induction s as [|c s IH]; intros n m H; destruct n, m; simpl; auto.
  - simpl in H. apply andb_true_iff in H as [H1 H2]. simpl. rewrite H1. now apply IH.
  - simpl in H. apply andb_true_iff in H as [_ H2]. now apply IH.
  - simpl in H. apply andb_true_iff in H as [_ H2]. now apply IH.
Qed.

Lemma digits_acc_app (acc : Z) (a b : string) :
  Py.digits_value_acc acc (a ++ b) = Py.digits_value_acc (Py.digits_value_acc acc a) b.
Proof. revert acc. induction a; intro acc; simpl; auto. Qed.

Lemma digits_acc_zeros (k : nat) : Py.digits_value_acc 0 (zeros k) = 0%Z.
Proof. induction k; simpl; auto. Qed.

Lemma substring_full (s : string) : substring 0 (String.length s) s = s.
Proof. induction s; simpl; congruence. Qed.

Lemma substring_split (k : nat) (s : string) :
  (k <= String.length s)%nat ->
  substring 0 k s ++ substring k (String.length s - k) s = s.
Proof.
  revert k. induction s as [|c s IH]; intros k Hk; destruct k; simpl in *; try lia.
  - reflexivity.
  - now rewrite substring_full.
  - f_equal. apply IH. lia.
Qed.

Lemma substring_length (k m : nat) (s : string) :
  (k + m <= String.length s)%nat -> String.length (substring k m s) = m.
Proof.
  revert k m. induction s as [|c s IH]; intros k m H; destruct k, m; simpl in *; try lia; auto.
  - f_equal. apply IH. lia.
  - apply IH. lia.
  - apply IH. lia.
Qed.

Lemma take_digits_app (a b : string) :
  all_digits a = true -> (match b with String c _ => Py.is_digit c = false | EmptyString => True end) ->
  Py.take_digits (a ++ b) = (a, b).
Proof.
  intros Ha Hb. induction a as [|c a IH]; simpl.
  - destruct b as [|c r]; [reflexivity|]. simpl. now rewrite Hb.
  - simpl in Ha. apply andb_true_iff in Ha as [H1 H2]. rewrite H1, IH by exact H2. reflexivity.
Qed.

Lemma replace_all_digits (a b : ascii) (s : string) :
  Py.is_digit a = false -> all_digits s = true -> replace_char a b s = s.
Proof.
  intros Ha. induction s as [|c s IH]; simpl; intro H; [reflexivity|].
  apply andb_true_iff in H as [H1 H2]. rewrite IH by exact H2.
  destruct (Ascii.eqb_spec c a); [subst; congruence|reflexivity].
Qed.

Lemma replace_app (a b : ascii) (s t : string) :
  replace_char a b (s ++ t) = replace_char a b s ++ replace_char a b t.
Proof. induction s; simpl; congruence. Qed.

Lemma zeros_length (k : nat) : String.length (zeros k) = k.
Proof. induction k; simpl; congruence. Qed.

Lemma format_fixed_parts (m : Z) (p : nat) :
  exists ip fr,
    format_fixed m p =
      (if (m <? 0)%Z then "-" else "") ++ ip ++ (match p with O => "" | _ => "." ++ fr end) /\
    all_digits ip = true /\ ip <> "" /\ all_digits fr = true /\ String.length fr = p /\
    Py.digits_value (ip ++ fr) = Z.abs m.
Proof.
  unfold format_fixed. cbv zeta.
  set (nd := nat_digits (Z.abs_N m)). set (ds := zeros (S p - String.length nd) ++ nd).
  set (n := String.length ds).
  destruct (nat_digits_ok (Z.abs_N m)) as [Hnd Hne]. fold nd in Hnd, Hne.
  assert (Hnl : (1 <= String.length nd)%nat) by (destruct nd; [congruence|simpl; lia]).
  assert (Hn : (S p <= n)%nat) by (unfold n, ds; rewrite str_length_app, zeros_length; lia).
  assert (Hd : all_digits ds = true) by (unfold ds; now rewrite all_digits_app, all_digits_zeros, Hnd).
  exists (substring 0 (n - p) ds), (substring (n - p) p ds).
  split; [destruct p; reflexivity|].
  split; [now apply all_digits_substring|].
  split.
  { intro E. assert (L := substring_length 0 (n - p) ds ltac:(unfold n; lia)).
    rewrite E in L. simpl in L. lia. }
  split; [now apply all_digits_substring|].
  split; [apply substring_length; unfold n; lia|].
  assert (Hs : substring 0 (n - p) ds ++ substring (n - p) p ds = ds).
  { replace p with (n - (n - p))%nat at 3 by lia. unfold n. apply substring_split. lia. }
  rewrite Hs.
  unfold ds, Py.digits_value. rewrite digits_acc_app, digits_acc_zeros.
  change (Py.digits_value nd = Z.abs m). unfold nd. rewrite nat_digits_value.
  apply Zabs2N.id_abs.
Qed.

Lemma parse_format_fixed (m : Z) (p : nat) :
  exists v, parse_float (format_fixed m p) = Some v /\ v == scaled m p.
Proof.
  destruct (format_fixed_parts m p) as (ip & fr & E & Hip & Hne & Hfr & Hl & Hv).
  rewrite E. destruct ip as [|c r]; [congruence|].
  assert (Hc : Py.is_digit c = true) by (simpl in Hip; now apply andb_true_iff in Hip as [? _]).
  assert (Hneg : Ascii.eqb c "-"%char = false)
    by (destruct (Ascii.eqb_spec c "-"%char); [subst; discriminate|reflexivity]).
  assert (Hpos : Ascii.eqb c "+"%char = false)
    by (destruct (Ascii.eqb_spec c "+"%char); [subst; discriminate|reflexivity]).
  set (tail := match p with O => "" | _ => "." ++ fr end).
  assert (Ht : Py.take_digits (String c r ++ tail) = (String c r, tail)).
  { apply take_digits_app; [exact Hip|]. unfold tail. destruct p; simpl; [exact I|reflexivity]. }
  assert (Hf : match tail with
               | String c0 r0 => if Ascii.eqb c0 "."%char then Py.take_digits r0 else (EmptyString, tail)
               | EmptyString => (EmptyString, tail)
               end = (fr, EmptyString)).
  { unfold tail. destruct p as [|p'].
    - destruct fr; [reflexivity|discriminate].
    - simpl. rewrite <- (str_app_nil fr) at 1. apply take_digits_app; [exact Hfr|exact I]. }
  assert (D : ~ inject_Z (10 ^ Z.of_nat p) == 0).
  { unfold Qeq. simpl. rewrite Z.mul_1_r. apply Z.pow_nonzero; lia. }
  unfold parse_float.
  destruct (m <? 0)%Z eqn:Hm; cbn [String.append].
  - rewrite (Ascii.eqb_refl "-"%char). change (String c (r ++ tail)) with (String c r ++ tail). rewrite Ht, Hf.
    eexists. split; [reflexivity|].
    unfold Py.float_lit, scaled. rewrite Hv, Hl. apply Z.ltb_lt in Hm.
    rewrite Z.abs_neq by lia. change (Qmake (- m) (Pos.of_nat 1)) with (inject_Z (- m)).
    rewrite inject_Z_opp. unfold Qdiv. ring.
  - rewrite Hneg, Hpos. change (String c (r ++ tail)) with (String c r ++ tail).
    rewrite Ht, Hf.
    eexists. split; [reflexivity|].
    unfold Py.float_lit, scaled. rewrite Hv, Hl. apply Z.ltb_ge in Hm.
    rewrite Z.abs_eq by lia. reflexivity.
Qed.

Lemma py_round_comp (a b : Q) (p : nat) : a == b -> py_round a p = py_round b p.
Proof.
  intro H. unfold py_round. cbv zeta.
  assert (Ey : a * inject_Z (10 ^ Z.of_nat p) == b * inject_Z (10 ^ Z.of_nat p)) by (rewrite H; reflexivity).
  rewrite (Qfloor_comp _ _ Ey).
  assert (Ec : ((a * inject_Z (10 ^ Z.of_nat p) - inject_Z (Qfloor (b * inject_Z (10 ^ Z.of_nat p))) ?= 1 # 2) =
               (b * inject_Z (10 ^ Z.of_nat p) - inject_Z (Qfloor (b * inject_Z (10 ^ Z.of_nat p))) ?= 1 # 2))%Q)
    by (apply Qcompare_comp; [rewrite Ey; reflexivity|reflexivity]).
  now rewrite Ec.
Qed.

Lemma py_round_scaled (m : Z) (p : nat) : py_round (scaled m p) p = m.
Proof.
  assert (D : ~ inject_Z (10 ^ Z.of_nat p) == 0).
  { unfold Qeq. simpl. rewrite Z.mul_1_r. apply Z.pow_nonzero; lia. }
  unfold py_round, scaled. cbv zeta.
  assert (Ey : inject_Z m / inject_Z (10 ^ Z.of_nat p) * inject_Z (10 ^ Z.of_nat p) == inject_Z m)
    by (rewrite Qmult_comm; now apply Qmult_div_r).
  rewrite (Qfloor_comp _ _ Ey), Qfloor_Z.
  assert (Ec : ((inject_Z m / inject_Z (10 ^ Z.of_nat p) * inject_Z (10 ^ Z.of_nat p) - inject_Z m ?= 1 # 2)
               = (0 ?= 1 # 2))%Q)
    by (apply Qcompare_comp; [rewrite Ey; ring|reflexivity]).
  now rewrite Ec.
Qed.

Lemma replace_back (m : Z) (p : nat) :
  replace_char ","%char "."%char (replace_char "."%char ","%char (format_fixed m p)) = format_fixed m p.
Proof.
  destruct (format_fixed_parts m p) as (ip & fr & E & Hip & _ & Hfr & _ & _).
  rewrite E, !replace_app, !(replace_all_digits _ _ ip) by (reflexivity || exact Hip).
  f_equal; [destruct (m <? 0)%Z; reflexivity|]. f_equal.
  destruct p; [reflexivity|]. simpl.
  rewrite !(replace_all_digits _ _ fr) by (reflexivity || exact Hfr). reflexivity.
Qed.

Lemma format_comma_reparse (q : Q) (p : nat) :
  exists v, parse_float (replace_char ","%char "."%char (format_comma q p)) = Some v /\
            v == round_q q p /\ py_round v p = py_round q p /\ format_comma v p = format_comma q p.
Proof.
  unfold format_comma at 1. rewrite replace_back.
  destruct (parse_format_fixed (py_round q p) p) as [v [Hv E]].
  exists v. split; [exact Hv|]. split; [exact E|].
  assert (R : py_round v p = py_round q p) by (rewrite (py_round_comp _ _ p E); apply py_round_scaled).
  split; [exact R|]. unfold format_comma. now rewrite R.
Qed.

Lemma rev_str_acc (s acc : string) : rev_str s acc = rev_str s "" ++ acc.
Proof.
  revert acc. induction s as [|c s IH]; intro acc; simpl; [reflexivity|].
  rewrite IH, (IH (String c "")), str_app_assoc. reflexivity.
Qed.

Lemma rev_str_snoc (s : string) (c : ascii) :
  rev_str (s ++ String c "") "" = String c (rev_str s "").
Proof.
  induction s as [|d s IH]; simpl; [reflexivity|].
  rewrite (rev_str_acc _ (String d "")), IH, (rev_str_acc s (String d "")). reflexivity.
Qed.

Lemma rev_str_involutive (s : string) : rev_str (rev_str s "") "" = s.
Proof.
  induction s as [|c s IH]; simpl; [reflexivity|].
  rewrite (rev_str_acc s (String c "")), rev_str_snoc, IH. reflexivity.
Qed.

Lemma rstrip_snoc (t : string) (c : ascii) :
  is_space c = false -> rstrip (t ++ String c "") = t ++ String c "".
Proof.
  intro Hc. unfold rstrip. rewrite rev_str_snoc. simpl. rewrite Hc. simpl.
  rewrite rev_str_acc, rev_str_involutive. reflexivity.
Qed.

Lemma all_digits_snoc (s : string) :
  all_digits s = true -> s <> "" -> exists x c, s = x ++ String c "" /\ Py.is_digit c = true.
Proof.
  induction s as [|c s IH]; intros H Hne; [congruence|].
  simpl in H. apply andb_true_iff in H as [H1 H2].
  destruct s as [|d s'].
  - exists "", c. split; [reflexivity|exact H1].
  - destruct (IH H2 ltac:(discriminate)) as (x & e & E & He).
    exists (String c x), e. rewrite E. split; [reflexivity|exact He].
Qed.

Lemma format_fixed_ends (m : Z) (p : nat) :
  exists c r x e, format_fixed m p = String c r /\ String c r = x ++ String e "" /\
    (c = "-"%char \/ Py.is_digit c = true) /\ Py.is_digit e = true.
Proof.
  destruct (format_fixed_parts m p) as (ip & fr & E & Hip & Hne & Hfr & Hl & _).
  rewrite E.
  assert (Hlast : exists x e, ip ++ match p with O => "" | _ => "." ++ fr end = x ++ String e "" /\
                              Py.is_digit e = true).
  { destruct p as [|p'].
    - destruct (all_digits_snoc ip Hip Hne) as (x & e & -> & He). exists x, e.
      rewrite str_app_nil. split; [reflexivity|exact He].
    - destruct (all_digits_snoc fr Hfr) as (x & e & -> & He).
      { intros ->. discriminate. }
      exists (ip ++ "." ++ x), e. rewrite !str_app_assoc. split; [reflexivity|exact He]. }
  destruct Hlast as (x & e & Ex & He).
  destruct ip as [|c r]; [congruence|].
  assert (Hc : Py.is_digit c = true) by (simpl in Hip; now apply andb_true_iff in Hip as [? _]).
  destruct (m <? 0)%Z.
  - exists "-"%char, (String c r ++ match p with O => "" | _ => "." ++ fr end),
      ("-" ++ x), e. split; [reflexivity|split; [simpl; f_equal; exact Ex|auto]].
  - exists c, (r ++ match p with O => "" | _ => "." ++ fr end), x, e.
    split; [reflexivity|split; [exact Ex|auto]].
Qed.

Lemma replace_char_cons (a b c : ascii) (r : string) :
  String (if Ascii.eqb c a then b else c) (replace_char a b r) = replace_char a b (String c r).
Proof. reflexivity. Qed.

Lemma strip_format_comma (q : Q) (p : nat) :
  strip (format_comma q p) = format_comma q p /\ format_comma q p <> "".
Proof.
  unfold format_comma.
  destruct (format_fixed_ends (py_round q p) p) as (c & r & x & e & E & Ex & Hc & He).
  rewrite E.
  set (c' := if Ascii.eqb c "."%char then ","%char else c).
  assert (HS1 : replace_char "."%char ","%char (String c r) = String c' (replace_char "."%char ","%char r))
    by reflexivity.
  assert (HS2 : replace_char "."%char ","%char (String c r) =
                replace_char "."%char ","%char x ++ String e "").
  { rewrite Ex, replace_app. simpl.
    replace (Ascii.eqb e "."%char) with false
      by (destruct (Ascii.eqb_spec e "."%char); [subst; discriminate|reflexivity]).
    reflexivity. }
  assert (Hc' : is_space c' = false).
  { unfold c'. destruct Hc as [-> | Hc]; [reflexivity|].
    destruct (Ascii.eqb_spec c "."%char); [subst; discriminate|now apply Facts.digit_not_space]. }
  split; [|rewrite HS1; discriminate].
  unfold strip. rewrite HS1 at 1. simpl. rewrite Hc'. rewrite <- HS1, HS2.
  rewrite rstrip_snoc by now apply Facts.digit_not_space. rewrite <- HS2. reflexivity.
Qed.


(** [check_outcome] on a text [format_comma] wrote. *)
Lemma check_outcome_comma (g : string) (m : FieldMeta) (v : Q) (p : nat) (b : bool) :
  fm_precision m = Some p ->
  check_outcome g m (format_comma v p) b =
    match current_ref_range g m with
    | (Some rmin, Some rmax) =>
        (format_comma v p, negb (Qle_bool rmin (round_q v p) && Qle_bool (round_q v p) rmax))
    | _ => (format_comma v p, b)
    end.
Proof.
  intro Hp. unfold check_outcome.
  destruct (strip_format_comma v p) as [S N]. rewrite S.
  destruct (String.eqb_spec (format_comma v p) ""); [contradiction|].
  destruct (format_comma_reparse v p) as (v' & Pv & _ & R & F).
  rewrite Pv, Hp. unfold round_q. rewrite R, F. reflexivity.
Qed.

(** One more [check_outcome] on its own result changes nothing. *)
Lemma check_outcome_stable (g : string) (m : FieldMeta) (s : string) (b : bool) :
  check_outcome g m (fst (check_outcome g m s b)) (snd (check_outcome g m s b)) =
  check_outcome g m s b.
Proof.
  unfold check_outcome at 2 3 4.
  destruct (String.eqb (strip s) "") eqn:B.
  { simpl. unfold check_outcome. now rewrite B. }
  destruct (parse_float (replace_char ","%char "."%char (strip s))) as [v|] eqn:P.
  2: { simpl. unfold check_outcome. now rewrite B, P. }
  destruct (fm_precision m) as [p|] eqn:Hp.
  - destruct (current_ref_range g m) as [[rmin|] [rmax|]] eqn:Rg;
      cbn [fst snd]; rewrite (check_outcome_comma g m v p _ Hp), Rg; reflexivity.
  - destruct (current_ref_range g m) as [[rmin|] [rmax|]] eqn:Rg;
      cbn [fst snd]; unfold check_outcome; rewrite B, P, Hp, Rg; reflexivity.
Qed.

End NumFacts.

(** ** The claims *)

Module Claims.
Import Text Form Engine Examples Derived Facts.
Local Open Scope string_scope.

Ltac nodup_ids := vm_compute; repeat constructor; simpl; intuition discriminate.

Lemma bmi_nodup : NoDup (map fm_id bmi_fields).
Proof. nodup_ids. Qed.

Lemma bmi_no_chain : no_chain bmi_fields.
Proof. apply no_chain_b_spec. vm_compute. reflexivity. Qed.

Lemma sqrt_nodup : NoDup (map fm_id sqrt_fields).
Proof. nodup_ids. Qed.

Lemma sqrt_no_chain : no_chain sqrt_fields.
Proof. apply no_chain_b_spec. vm_compute. reflexivity. Qed.

(** *** C1 *)

(** Claim C1 (counterexample): two states reached by edits whose collected
    map does not survive saving and reopening.  In [hidden_input_fields]
    the formula F reads the hidden field H: with Trigger = A, H = 5 and then
    Trigger = none, F holds 10 and H is hidden, so H is not collected and
    not saved, and after reopening F is empty.  In [line_fields] a
    whitespace-only note is collected, not saved, and reads back empty.
    In [tab_trigger_fields] the detail field of tab 2, shown by its trigger
    and holding "x", is not collected when the record is saved while tab 1
    is current ([container.isVisible()] is false on a page that is not
    current); collected after reopening while tab 2 is current, it is "". *)
Lemma roundtrip_counterexample :
  (let F := hidden_input_fields in
   let S := (s <- open_form F male some_repr None;;
             s <- edit F male some_repr 1 "A" s;;
             s <- edit F male some_repr 2 "5" s;;
             edit F male some_repr 1 "none" s) in
   option_map (collect_values F (on_tab F 1)) S = Some [(1%Z, "none"); (3%Z, "10")] /\
   option_map (collect_values F (on_tab F 1))
     (s <- S;; open_form F male some_repr
                 (Some (load_protocol_values (save_protocol [] (collect_values F (on_tab F 1) s)))))
   = Some [(1%Z, "none"); (3%Z, "")]) /\
  (let F := line_fields in
   let S := (s <- open_form F male some_repr None;; edit F male some_repr 1 "  " s) in
   option_map (collect_values F (on_tab F 1)) S = Some [(1%Z, "  ")] /\
   option_map (collect_values F (on_tab F 1))
     (s <- S;; open_form F male some_repr
                 (Some (load_protocol_values (save_protocol [] (collect_values F (on_tab F 1) s)))))
   = Some [(1%Z, "")]) /\
  (let F := tab_trigger_fields in
   let S := (s <- open_form F male some_repr None;;
             s <- edit F male some_repr 1 "A" s;;
             edit F male some_repr 2 "x" s) in
   option_map (fun s => (visible s 2, value s 2, collect_values F (on_tab F 1) s)) S =
     Some (true, "x", [(1%Z, "A")]) /\
   option_map (collect_values F (on_tab F 2))
     (s <- S;; open_form F male some_repr
                 (Some (load_protocol_values (save_protocol [] (collect_values F (on_tab F 1) s)))))
   = Some [(1%Z, "A"); (2%Z, "")]).
Proof. vm_compute. repeat split; reflexivity. Qed.

(** *** C4 *)

(** Claim C4: with X holding "4", the formula "sqrt(Tab1.G1.X)" has no
    result: after substitution the text "sqrt(4)" contains letters, which
    the character whitelist of [_evaluate_formula] rejects, and the formula
    pass leaves the field Root empty instead of 2. *)
Theorem sqrt_formula_rejected (g : string) (rep : Q -> string) (st st' : State) :
  loading st = false -> value st 1 = "4" ->
  recalculate_formulas sqrt_fields g rep st = Some st' ->
  evaluate_formula sqrt_fields st "sqrt(Tab1.G1.X)" = None /\ value st' 2 = "".
Proof.
  intros L H1 H.
  assert (Ev : evaluate_formula sqrt_fields st "sqrt(Tab1.G1.X)" = None).
  { rewrite (evaluate_formula_congr sqrt_fields st (with_values [(1%Z, "4")])).
    - vm_compute. reflexivity.
    - intros r fid Hr Hres. vm_compute in Hr.
      destruct Hr as [<-|[]]; vm_compute in Hres; injection Hres as <-.
      apply read_value_eq. exact H1. }
  split; [exact Ev|].
  pose proof (recalculate_spec sqrt_fields g rep st st' sqrt_nodup sqrt_no_chain L H
                root_field "sqrt(Tab1.G1.X)" (or_intror (or_introl eq_refl)) eq_refl eq_refl)
    as E.
  rewrite Ev in E. injection E as E1 _. exact E1.
Qed.

Lemma sqrt_formula_rejected_witness :
  exists st', recalculate_formulas sqrt_fields male some_repr (with_values [(1%Z, "4")]) = Some st'
              /\ value st' 2 = "".
Proof.
  destruct (recalculate_some sqrt_fields male some_repr (with_values [(1%Z, "4")])) as [st' H].
  exists st'. split; [exact H|].
  exact (proj2 (sqrt_formula_rejected male some_repr (with_values [(1%Z, "4")]) st'
                 eq_refl eq_refl H)).
Defined.

(** *** C5 *)

(** Claim C5: in the formula pass, for any record gender, the BMI formula
    field becomes "21,76" when Weight holds "70,5" and Height "1,80", and
    becomes the empty string when Height is blank. *)
Theorem bmi_formula_example (g : string) (rep : Q -> string) (st st' : State) :
  loading st = false ->
  recalculate_formulas bmi_fields g rep st = Some st' ->
  (value st 1 = "70,5" -> value st 2 = "1,80" -> value st' 3 = "21,76") /\
  (blank (value st 2) = true -> value st' 3 = "").
Proof.
  intros L H.
  pose proof (recalculate_spec bmi_fields g rep st st' bmi_nodup bmi_no_chain L H
                bmi_field bmi_formula (or_intror (or_intror (or_introl eq_refl))) eq_refl eq_refl)
    as E.
  apply (f_equal fst) in E. cbn [fst] in E. change (fm_id bmi_field) with 3%Z in E.
  rewrite recalc_outcome_norange in E by reflexivity.
  split.
  - intros H1 H2. rewrite E.
    rewrite (evaluate_formula_congr bmi_fields st (with_values [(1%Z, "70,5"); (2%Z, "1,80")])).
    + vm_compute. reflexivity.
    + intros r fid Hr Hres. vm_compute in Hr.
      destruct Hr as [<-|[<-|[<-|[]]]]; vm_compute in Hres; injection Hres as <-;
        apply read_value_eq; assumption.
  - intro Hb. rewrite E. rewrite evaluate_none; [reflexivity|].
    exists ("Tab1", "G1", "Height "). split.
    + vm_compute. right; left; reflexivity.
    + right. exists 2%Z. split; [vm_compute; reflexivity|exact Hb].
Qed.

Lemma bmi_formula_example_witness :
  (exists st', recalculate_formulas bmi_fields male some_repr
                 (with_values [(1%Z, "70,5"); (2%Z, "1,80")]) = Some st' /\
               value st' 3 = "21,76") /\
  (exists st', recalculate_formulas bmi_fields male some_repr
                 (with_values [(1%Z, "70,5")]) = Some st' /\ value st' 3 = "").
Proof.
  split.
  - destruct (recalculate_some bmi_fields male some_repr
                (with_values [(1%Z, "70,5"); (2%Z, "1,80")])) as [st' H].
    exists st'. split; [exact H|].
    apply (proj1 (bmi_formula_example male some_repr
                    (with_values [(1%Z, "70,5"); (2%Z, "1,80")]) st' eq_refl H)); reflexivity.
  - destruct (recalculate_some bmi_fields male some_repr (with_values [(1%Z, "70,5")]))
      as [st' H].
    exists st'. split; [exact H|].
    apply (proj2 (bmi_formula_example male some_repr (with_values [(1%Z, "70,5")]) st'
                    eq_refl H)); reflexivity.
Defined.

(** *** C6 *)

(** Claim C6: when a reference of the formula is unresolvable or resolves
    to a blank field, or the substituted text has a character outside the
    whitelist, recomputing the formula field succeeds and leaves it empty
    (and not out of range). *)
Theorem formula_failure_clears (fields : list FieldMeta) (g : string) (rep : Q -> string)
  (st : State) (m : FieldMeta) (f : string) :
  find_field fields (fm_id m) = Some m -> written m = true -> fm_formula m = Some f ->
  ((exists r, In r (Refs.findall f) /\
      (resolve_fid fields r = None \/
       exists fid, resolve_fid fields r = Some fid /\ blank (value st fid) = true)) \/
   (exists vals, resolve_all fields st (Refs.findall f) [] = Some vals /\
                 all_allowed (substitute vals f) = false)) ->
  exists st', recalc_field fields g rep st m = Some st' /\
              value st' (fm_id m) = "" /\ flagged st' (fm_id m) = false.
Proof.
  intros Hm W Hf Hc.
  assert (Ev : evaluate_formula fields st f = None).
  { destruct Hc as [Hc | [vals [Hr Ha]]].
    - now apply evaluate_none.
    - unfold evaluate_formula. rewrite Hr. cbn [Form.obind]. now rewrite Ha. }
  destruct (recalc_field_some fields g rep st m) as [st' H].
  exists st'. split; [exact H|].
  apply (recalc_field_spec fields g rep st st' m f W Hf Hm) in H as [E _].
  rewrite Ev in E. injection E as E1 E2. now split.
Qed.

Lemma formula_failure_clears_witness :
  exists st', recalc_field bmi_fields male some_repr (initial_state bmi_fields) bmi_field = Some st'
              /\ value st' 3 = "" /\ flagged st' 3 = false.
Proof.
  apply (formula_failure_clears bmi_fields male some_repr (initial_state bmi_fields)
           bmi_field bmi_formula eq_refl eq_refl eq_refl).
  left. exists ("Tab1", "G1", "Height "). split.
  - vm_compute. right; left; reflexivity.
  - right. exists 2%Z. split; reflexivity.
Defined.

(** *** C10 *)

(** Claim C10: [collect_values] has one entry per field that is not both
    hidden by default and invisible ([container.isVisible()] false: its
    trigger hid it, or in the display state [shown] its tab is not current
    or its group is collapsed), in field order, with its current text, the
    empty string included; [save_protocol] then skips a blank value and
    stores a non-blank one in place of the record's row for that field. *)
Theorem collect_then_save (fields : list FieldMeta) (shown : Z -> bool) (st : State) (fid : Z)
  (v : string) (rows : Store) :
  (In (fid, v) (collect_values fields shown st) <->
   exists m, In m fields /\ fm_id m = fid /\
             fm_is_hidden m && negb (container_visible shown st fid) = false /\ v = value st fid) /\
  map fst (collect_values fields shown st) =
    map fm_id (filter (fun m => negb (fm_is_hidden m && negb (container_visible shown st (fm_id m))))
                      fields) /\
  save_protocol rows [(fid, v)] =
    (if blank v then rows else (filter (fun r => negb (Z.eqb (fst r) fid)) rows ++ [(fid, v)])%list).
Proof.
  split; [apply in_collect|split; [apply collect_keys|reflexivity]].
Qed.

(** *** C2 *)

(** Claim C2 (counterexample): with the options none, A, B, setting the
    trigger to "none " (a trailing space: non-empty and different from
    none) hides the detail field, since the trigger text is stripped. *)
Lemma trigger_strip_counterexample :
  option_map (fun s => (value s 1, visible s 2))
    (s <- open_form trigger_fields male some_repr None;;
     edit trigger_fields male some_repr 1 "none " s) = Some ("none ", false).
Proof. vm_compute. reflexivity. Qed.

(** Claim C2 (amended): when the user changes the text of a choice or
    template trigger whose first option is [i0] to [v], every hidden field
    registered under it becomes visible iff the stripped [v] is non-empty
    and differs from the stripped [i0]; its own text is left unchanged. *)
Theorem trigger_edit_visibility (fields : list FieldMeta) (g : string) (rep : Q -> string)
  (t : Z) (v : string) (st st' : State) (tm hm : FieldMeta) (i0 : string)
  (items : list string) :
  NoDup (map fm_id fields) ->
  find_field fields t = Some tm ->
  widget_of tm = WCombo (i0 :: items) \/ widget_of tm = WTemplate (i0 :: items) ->
  In hm fields -> registered hm = true -> fm_trigger_field_id hm = Some t ->
  value st t <> v ->
  edit fields g rep t v st = Some st' ->
  visible st' (fm_id hm) =
    negb (String.eqb (strip v) "") && negb (String.eqb (strip v) (strip i0)) /\
  (fm_id hm <> t -> written hm = false -> value st' (fm_id hm) = value st (fm_id hm)).
Proof.
  intros Hnd Htm Hw Hin R T Hne H.
  destruct (choice_not_num tm _ Hw) as [Nn Nw].
  destruct (find_field_some fields t tm Htm) as [Htin Htid].
  assert (Lk : In (fm_id hm) (lk (hidden_by_trigger fields) t))
    by exact (registered_connected fields hm t Hin R T).
  assert (Con : is_connected_trigger fields t = true).
  { apply (connected_of_lk fields t (fm_id hm)); [|exact Lk].
    unfold in_fields. now rewrite Htm. }
  unfold edit in H. rewrite Htm in H. cbn [Form.obind] in H. unfold get_str in H.
  apply String.eqb_neq in Hne. rewrite Hne in H.
  unfold on_value_change in H. rewrite Htid, Con, Nn in H.
  apply obind_some in H as [s1 [H1 H]]. apply obind_some in H as [s2 [H2 H]].
  injection H as <-.
  destruct (update_hidden_spec fields t _ _ H1) as (U1 & _ & _ & U4).
  destruct (cond_recalc_frame fields g rep _ _ _ H2) as (_ & C2 & C3).
  assert (NoW : forall m, In m fields -> written m = true ->
                  ~ In (fm_id hm) (lk (hidden_by_trigger fields) (fm_id m))).
  { intros m Hm W Hl.
    destruct (lk_trigger_nodup fields (fm_id m) hm Hnd Hin Hl) as [_ T'].
    rewrite T in T'. injection T' as E.
    pose proof (find_field_nodup fields m Hnd Hm) as Em.
    rewrite <- E, Htm in Em. injection Em as ->. congruence. }
  split.
  - rewrite (C3 _ NoW), U4.
    replace (existsb (Z.eqb (fm_id hm)) (lk (hidden_by_trigger fields) t)) with true
      by (symmetry; apply existsb_exists; exists (fm_id hm); split; [exact Lk|apply Z.eqb_refl]).
    rewrite Htm, (find_field_nodup fields hm Hnd Hin).
    assert (Vt : value (set_value st t v) t = v)
      by (unfold set_value, upd; simpl; now rewrite Z.eqb_refl).
    rewrite Vt. unfold show_for, first_choice_text.
    destruct Hw as [Hw|Hw]; rewrite Hw; destruct (String.eqb (strip v) ""); reflexivity.
  - intros Hne' Wh.
    rewrite (proj1 (C2 _ (unwritten_id fields hm Hnd Hin Wh))), U1.
    unfold set_value, upd; simpl. now rewrite (proj2 (Z.eqb_neq _ _) Hne').
Qed.

Lemma trigger_fields_nodup : NoDup (map fm_id trigger_fields).
Proof. nodup_ids. Qed.

Lemma trigger_edit_visibility_witness :
  exists st', edit trigger_fields male some_repr 1 "A" (initial_state trigger_fields) = Some st'
              /\ visible st' 2 = true /\ value st' 2 = "".
Proof.
  destruct (edit_some trigger_fields male some_repr 1 "A" (initial_state trigger_fields) eq_refl)
    as [st' H].
  exists st'.
  destruct (trigger_edit_visibility trigger_fields male some_repr 1 "A"
              (initial_state trigger_fields) st' (hd bmi_field trigger_fields)
              (nth 1 trigger_fields bmi_field) "none" ["A"; "B"]
              trigger_fields_nodup eq_refl (or_introl eq_refl)
              (or_intror (or_introl eq_refl)) eq_refl eq_refl ltac:(discriminate) H)
    as [V E].
  split; [exact H|split].
  - exact V.
  - exact (E ltac:(discriminate) eq_refl).
Defined.

(** *** C3 *)

(** Claim C3 (counterexample): in [tab_fields], with X = 3 and Day =
    05.03.2024 in tab 1, the formula Double of tab 2 holds 6.  Clearing
    tab 1 empties X, but Day keeps 05.03.2024: [set_str("")] on a date edit
    parses the empty string with [QDate.fromString], gets an invalid date
    and does nothing.  The formula pass that follows runs over all fields,
    so Double, a field of tab 2, becomes empty as well. *)
Lemma clear_tab_counterexample :
  option_map (fun s => (value s 1, value s 2, value s 3))
    (s <- edit tab_fields male some_repr 1 "3" (initial_state tab_fields);;
     edit tab_fields male some_repr 2 "05.03.2024" s) = Some ("3", "05.03.2024", "6") /\
  option_map (fun s => (value s 1, value s 2, value s 3))
    (s <- edit tab_fields male some_repr 1 "3" (initial_state tab_fields);;
     s <- edit tab_fields male some_repr 2 "05.03.2024" s;;
     clear_current_tab tab_fields male some_repr 1 s) = Some ("", "05.03.2024", "").
Proof. vm_compute. split; reflexivity. Qed.

(** What [clear_current_tab] does, for distinct field ids and no formula
    reading a formula field: every field the formula pass does not write is
    empty if it is a non-date, non-time field of [tab] and unchanged
    otherwise (other tabs included); every formula field, of any tab, is
    recomputed from the resulting values. *)
Theorem clear_tab_effect (fields : list FieldMeta) (g : string) (rep : Q -> string) (tab : Z)
  (st st' : State) :
  NoDup (map fm_id fields) -> no_chain fields ->
  clear_current_tab fields g rep tab st = Some st' ->
  (forall m, In m fields -> written m = false ->
     value st' (fm_id m) = if emptied_by tab m then "" else value st (fm_id m)) /\
  (forall m f, In m fields -> written m = true -> fm_formula m = Some f ->
     value st' (fm_id m) = fst (recalc_outcome g rep m (evaluate_formula fields st' f) false)).
Proof.
  intros Hnd Hnc H.
  destruct (clear_spec fields g rep tab st st' H) as (_ & V & _).
  split.
  - intros m Hin W. rewrite (proj1 (V (fm_id m) (unwritten_id fields m Hnd Hin W))).
    now rewrite emptied_nodup.
  - intros m f Hin W Hf.
    rewrite clear_unfold in H.
    apply obind_some in H as [s1 [_ H]]. apply obind_some in H as [s3 [H3 H]].
    destruct (clear_trigger_fold_spec fields tab _ _ _ H3) as (_ & _ & L3 & _).
    pose proof (recalculate_spec fields g rep s3 st' Hnd Hnc L3 H m f Hin W Hf) as E.
    apply (f_equal fst) in E. cbn [fst] in E. rewrite E.
    rewrite (recalc_outcome_fst g rep m _ _ false).
    enough (Ev : evaluate_formula fields s3 f = evaluate_formula fields st' f)
      by now rewrite Ev.
    apply evaluate_formula_congr. intros r fid Hr Hres. apply read_value_eq.
    destruct (resolve_fid_in fields r fid Hres) as [m' [Hin' Hid']].
    pose proof (Hnc m f r fid m' Hin W Hf Hr Hres Hin' Hid') as W'.
    destruct (recalculate_frame fields g rep s3 st' H) as (_ & _ & F & _).
    subst fid. symmetry. exact (proj1 (F _ (unwritten_id fields m' Hnd Hin' W'))).
Qed.

Lemma tab_nodup : NoDup (map fm_id tab_fields).
Proof. nodup_ids. Qed.

Lemma tab_no_chain : no_chain tab_fields.
Proof. apply no_chain_b_spec. vm_compute. reflexivity. Qed.

(** *** C7 *)

(** Claim C7 (counterexample): opening a record whose saved value of the
    number field with male range [3.0, 5.0] is "6,0" changes its text from
    empty to "6,0" and does not flag it; the same change made by the user
    does. *)
Lemma range_open_counterexample :
  option_map (fun s => (value s 1, flagged s 1))
    (open_form range_fields male some_repr (Some [(1%Z, "6,0")])) = Some ("6,0", false) /\
  option_map (fun s => (value s 1, flagged s 1))
    (edit range_fields male some_repr 1 "6,0" (initial_state range_fields)) = Some ("6,0", true).
Proof. vm_compute. split; reflexivity. Qed.

(** Claim C7 (amended): when the user changes the text of a number field
    to [v], and when the formula pass writes a formula field, the
    out-of-range flag follows [flag_rule]: cleared for a blank text,
    unchanged for an unparsable one, and otherwise set iff the value,
    rounded to the precision, lies outside an active range (kept when the
    range for the record's gender is not active).  Values restored when a
    record is opened are not checked. *)
Theorem range_flag_on_change (fields : list FieldMeta) (g : string) (rep : Q -> string) :
  NoDup (map fm_id fields) ->
  (forall fid v st st' m,
     find_field fields fid = Some m -> ftype_eqb (fm_type m) FNum = true ->
     loading st = false -> value st fid <> v ->
     edit fields g rep fid v st = Some st' ->
     flag_rule g m v (flagged st fid) (flagged st' fid) /\
     value st' fid = fst (check_outcome g m v (flagged st fid))) /\
  (forall st st' m f,
     find_field fields (fm_id m) = Some m -> written m = true -> fm_formula m = Some f ->
     recalc_field fields g rep st m = Some st' ->
     exists s, flag_rule g m s (flagged st (fm_id m)) (flagged st' (fm_id m)) /\
               value st' (fm_id m) = fst (check_outcome g m s (flagged st (fm_id m)))).
Proof.
  intro Hnd. split.
  - intros fid v st st' m Hm Ty L Hne H.
    destruct (find_field_some fields fid m Hm) as [Hin Hid].
    unfold edit in H. rewrite Hm in H. cbn [Form.obind] in H. unfold get_str in H.
    apply String.eqb_neq in Hne. rewrite Hne in H.
    unfold on_value_change in H. rewrite Hid, (num_is_num m Ty) in H.
    apply obind_some in H as [s1 [H1 H]]. apply obind_some in H as [s2 [H2 H]].
    destruct (update_hidden_or fields _ fid _ _ H1) as (U1 & U2 & U3).
    destruct (cond_recalc_frame fields g rep _ _ _ H2) as (C1 & C2 & _).
    assert (Nw : forall m', In m' fields -> written m' = true -> fm_id m' <> fid).
    { rewrite <- Hid. exact (unwritten_id fields m Hnd Hin (num_not_written m Ty)). }
    destruct (C2 fid Nw) as [V2 F2].
    assert (L2 : loading s2 = false) by (apply C1; rewrite U3; exact L).
    pose proof (check_reference_spec fields g fid m s2 st' L2 Hm (num_is_num m Ty) H) as E.
    rewrite V2, F2, U1, U2 in E.
    assert (Vv : value (set_value st fid v) fid = v)
      by (unfold set_value, upd; simpl; now rewrite Z.eqb_refl).
    assert (Fv : flagged (set_value st fid v) fid = flagged st fid) by reflexivity.
    rewrite Vv, Fv in E. split.
    + apply (f_equal snd) in E. cbn [snd] in E. rewrite E. apply check_outcome_rule.
    + apply (f_equal fst) in E. exact E.
  - intros st st' m f Hm W Hf H.
    destruct (recalc_field_spec fields g rep st st' m f W Hf Hm H) as [E _].
    destruct (evaluate_formula fields st f) as [q|].
    + exists (format_result rep m q).
      change (recalc_outcome g rep m (Some q) (flagged st (fm_id m)))
        with (check_outcome g m (format_result rep m q) (flagged st (fm_id m))) in E.
      split.
      * apply (f_equal snd) in E. cbn [snd] in E. rewrite E. apply check_outcome_rule.
      * apply (f_equal fst) in E. exact E.
    + exists "". injection E as E1 E2. rewrite E1, E2. split.
      * exact (check_outcome_rule g m "" (flagged st (fm_id m))).
      * reflexivity.
Qed.

Lemma range_nodup : NoDup (map fm_id range_fields).
Proof. nodup_ids. Qed.

Lemma range_flag_on_change_witness :
  (exists st', edit range_fields male some_repr 1 "6,0" (initial_state range_fields) = Some st'
               /\ flagged st' 1 = true) /\
  (exists st', edit range_fields male some_repr 1 "4,0" (initial_state range_fields) = Some st'
               /\ flagged st' 1 = false).
Proof.
  split.
  - destruct (edit_some range_fields male some_repr 1 "6,0" (initial_state range_fields) eq_refl)
      as [st' H].
    exists st'. split; [exact H|].
    destruct (proj1 (range_flag_on_change range_fields male some_repr range_nodup)
                1%Z "6,0" (initial_state range_fields) st' (hd bmi_field range_fields) eq_refl eq_refl eq_refl
                ltac:(discriminate) H) as [[_ [_ R]] _].
    exact (R (60 # 10) eq_refl eq_refl).
  - destruct (edit_some range_fields male some_repr 1 "4,0" (initial_state range_fields) eq_refl)
      as [st' H].
    exists st'. split; [exact H|].
    destruct (proj1 (range_flag_on_change range_fields male some_repr range_nodup)
                1%Z "4,0" (initial_state range_fields) st' (hd bmi_field range_fields) eq_refl eq_refl eq_refl
                ltac:(discriminate) H) as [[_ [_ R]] _].
    exact (R (40 # 10) eq_refl eq_refl).
Defined.

(** *** C8 *)

(** Claim C8 (counterexample): a hidden field whose trigger id names no
    field, and a hidden field whose trigger is a free-text field, are both
    hidden when the form is opened, not always visible. *)
Lemma malformed_trigger_counterexample :
  option_map (fun s => visible s 2) (open_form orphan_fields male some_repr None) = Some false /\
  option_map (fun s => visible s 2) (open_form legacy_fields male some_repr None) = Some false.
Proof. vm_compute. split; reflexivity. Qed.

(** Claim C8 (amended): with malformed trigger data the engine never
    fails: opening, editing a field of the form, clearing a tab and the
    dependency evaluator all return a state.  A registered hidden field
    whose trigger id names no field is hidden after opening and no edit,
    clear or evaluator run changes its visibility.  A registered hidden
    field whose trigger has no choice list follows the legacy rule: shown
    iff its trigger value is non-empty and equals the trigger's text, both
    stripped. *)
Theorem malformed_trigger_behaviour (fields : list FieldMeta) (g : string) (rep : Q -> string) :
  NoDup (map fm_id fields) ->
  (forall vals, exists st, open_form fields g rep vals = Some st) /\
  (forall fid v st, in_fields fields fid = true ->
     exists st', edit fields g rep fid v st = Some st') /\
  (forall tab st, exists st', clear_current_tab fields g rep tab st = Some st') /\
  (forall st, exists st', evaluator fields g rep st = Some st') /\
  (forall hm, In hm fields -> registered hm = true ->
     (forall t, fm_trigger_field_id hm = Some t -> find_field fields t = None) ->
     (forall vals st, open_form fields g rep vals = Some st -> visible st (fm_id hm) = false) /\
     (forall fid v st st', edit fields g rep fid v st = Some st' ->
        visible st' (fm_id hm) = visible st (fm_id hm)) /\
     (forall tab st st', clear_current_tab fields g rep tab st = Some st' ->
        visible st' (fm_id hm) = visible st (fm_id hm)) /\
     (forall st st', evaluator fields g rep st = Some st' ->
        visible st' (fm_id hm) = visible st (fm_id hm))) /\
  (forall t tm hm st st',
     find_field fields t = Some tm -> first_choice_text tm = None ->
     In hm fields -> registered hm = true -> fm_trigger_field_id hm = Some t ->
     update_hidden fields t st = Some st' ->
     visible st' (fm_id hm) =
       match fm_trigger_value hm with
       | Some tv => negb (String.eqb tv "") && String.eqb (strip (value st t)) (strip tv)
       | None => false
       end).
Proof.
  intro Hnd.
  split; [apply open_form_some|].
  split; [intros; now apply edit_some|].
  split; [apply clear_some|].
  split; [apply evaluator_some|].
  split.
  - intros hm Hin R Ho.
    pose proof (orphan_untouchable fields hm Hnd Hin Ho) as U.
    split; [|split; [|split]].
    + intros vals st H. rewrite open_unfold in H.
      apply obind_some in H as [s1 [H1 H]].
      rewrite (recalculate_untouch fields g rep _ _ _ U H), (load_untouch fields _ _ _ _ U H1).
      rewrite (initial_visible fields hm Hnd Hin), R. reflexivity.
    + intros fid v st st' H. destruct (edit_frame fields g rep fid v st st' H) as (_ & _ & E).
      now apply E.
    + intros tab st st' H. destruct (clear_spec fields g rep tab st st' H) as (_ & _ & E).
      now apply E.
    + intros st st' H. exact (evaluator_untouch fields g rep st st' _ U H).
  - intros t tm hm st st' Htm Hfc Hin R T H.
    destruct (update_hidden_spec fields t st st' H) as (_ & _ & _ & U4).
    rewrite U4.
    replace (existsb (Z.eqb (fm_id hm)) (lk (hidden_by_trigger fields) t)) with true
      by (symmetry; apply existsb_exists; exists (fm_id hm);
          split; [exact (registered_connected fields hm t Hin R T)|apply Z.eqb_refl]).
    rewrite Htm, (find_field_nodup fields hm Hnd Hin).
    unfold show_for. rewrite Hfc. reflexivity.
Qed.

Lemma orphan_nodup : NoDup (map fm_id orphan_fields).
Proof. nodup_ids. Qed.

Lemma malformed_trigger_behaviour_witness :
  (exists st, open_form orphan_fields male some_repr None = Some st /\ visible st 2 = false) /\
  (exists st, open_form legacy_fields male some_repr None = Some st).
Proof.
  destruct (malformed_trigger_behaviour orphan_fields male some_repr orphan_nodup)
    as (O & _ & _ & _ & Orph & _).
  split.
  - destruct (O None) as [st H]. exists st. split; [exact H|].
    destruct (Orph (nth 1 orphan_fields bmi_field) (or_intror (or_introl eq_refl)) eq_refl)
      as [V _].
    + intros t Ht. injection Ht as <-. reflexivity.
    + exact (V None st H).
  - apply open_form_some.
Defined.

(** *** C9 *)

(** Claim C9 (counterexample): in [chain_fields] (F1 reads F2, F2 reads F3,
    F3 reads X, in field order) opened with X = 1, a first evaluator run
    leaves F1 empty and a second one sets it to 6. *)
Lemma evaluator_twice_counterexample :
  let S := open_form chain_fields male some_repr (Some [(1%Z, "1")]) in
  option_map (fun s => value s 2) (s <- S;; evaluator chain_fields male some_repr s) = Some "" /\
  option_map (fun s => value s 2)
    (s <- S;; s <- evaluator chain_fields male some_repr s;; evaluator chain_fields male some_repr s)
  = Some "6".
Proof. vm_compute. split; reflexivity. Qed.

(** Claim C9 (amended): when no formula reads a field the formula pass
    writes and no formula field is a trigger, a second evaluator run
    leaves every value, visibility, out-of-range flag and the loading flag
    as the first run left them. *)
Theorem evaluator_idempotent (fields : list FieldMeta) (g : string) (rep : Q -> string)
  (st s1 s2 : State) :
  NoDup (map fm_id fields) -> no_chain fields ->
  (forall hm t m, In hm fields -> registered hm = true -> fm_trigger_field_id hm = Some t ->
                  In m fields -> fm_id m = t -> written m = false) ->
  evaluator fields g rep st = Some s1 -> evaluator fields g rep s1 = Some s2 ->
  st_eq s2 s1.
Proof.
  intros Hnd Hnc Htr H1 H2.
  rewrite evaluator_unfold in H1, H2.
  apply obind_some in H1 as [a [Ha H1]]. apply obind_some in H2 as [b [Hb H2]].
  destruct (sync_triggers_spec fields st a Hnd Ha) as (Av & Af & Al & Avis).
  destruct (sync_triggers_spec fields s1 b Hnd Hb) as (Bv & Bf & Bl & Bvis).
  pose proof (lk_written_empty fields Htr) as NoLk.
  destruct (recalculate_frame fields g rep a s1 H1) as (R1t & R1f & R1v & R1vis).
  destruct (recalculate_frame fields g rep b s2 H2) as (R2t & R2f & R2v & R2vis).
  (* visibility and loading do not depend on the formula results *)
  assert (Vis1 : forall h, visible s1 h = visible a h) by (intro h; apply R1vis; eauto).
  assert (Vis2 : forall h, visible s2 h = visible b h) by (intro h; apply R2vis; eauto).
  (* the triggers are not written, so the first pass keeps their texts *)
  assert (Trig : forall hm t, In hm fields -> registered hm = true ->
                   fm_trigger_field_id hm = Some t -> find_field fields t <> None ->
                   value s1 t = value st t).
  { intros hm t Hin R T Hf. destruct (find_field fields t) as [tm|] eqn:Htm; [|congruence].
    destruct (find_field_some fields t tm Htm) as [Htin Htid].
    rewrite <- Av. destruct (loading a) eqn:La.
    - now rewrite (R1t eq_refl).
    - refine (proj1 (R1v t _)). intros m Hm W E. subst t.
      rewrite (Htr hm (fm_id tm) m Hin R T Hm E) in W. discriminate. }
  split; [|split; [|split]].
  - (* values *)
    intro x. destruct (loading a) eqn:La.
    + rewrite (R1t eq_refl) in *. assert (Lb : loading b = true) by congruence.
      rewrite (R2t Lb), Bv. reflexivity.
    + assert (Lb : loading b = false) by (rewrite Bl; now apply R1f).
      destruct (existsb (fun m => written m && Z.eqb (fm_id m) x) fields) eqn:Ex.
      * apply existsb_exists in Ex as [m [Hm Ex]]. apply andb_true_iff in Ex as [W Ex].
        apply Z.eqb_eq in Ex. subst x.
        destruct (fm_formula m) as [f|] eqn:Hf.
        2:{ unfold written in W. rewrite Hf in W. now rewrite andb_false_r in W. }
        pose proof (recalculate_spec fields g rep a s1 Hnd Hnc La H1 m f Hm W Hf) as E1.
        pose proof (recalculate_spec fields g rep b s2 Hnd Hnc Lb H2 m f Hm W Hf) as E2.
        assert (Ev : evaluate_formula fields b f = evaluate_formula fields a f).
        { apply evaluate_formula_congr. intros r fid Hr Hres. apply read_value_eq.
          destruct (resolve_fid_in fields r fid Hres) as [m' [Hin' Hid']].
          pose proof (Hnc m f r fid m' Hm W Hf Hr Hres Hin' Hid') as W'.
          subst fid. rewrite Bv.
          exact (proj1 (R1v _ (unwritten_id fields m' Hnd Hin' W'))). }
        rewrite Ev, Bf in E2. apply (f_equal fst) in E1. apply (f_equal fst) in E2.
        cbn [fst] in E1, E2. rewrite E2, E1. apply recalc_outcome_fst.
      * assert (Nw : forall m, In m fields -> written m = true -> fm_id m <> x).
        { intros m Hm W E. apply not_true_iff_false in Ex. apply Ex, existsb_exists.
          exists m. split; [exact Hm|]. now rewrite W, E, Z.eqb_refl. }
        rewrite (proj1 (R2v x Nw)), Bv. reflexivity.
  - (* visibility *)
    intro h. rewrite Vis2, Bvis.
    unfold sync_vis at 1.
    destruct (find_field fields h) as [hm|] eqn:Hh; [|reflexivity].
    destruct (find_field_some fields h hm Hh) as [Hin Hid].
    destruct (registered hm) eqn:R; [|reflexivity].
    destruct (fm_trigger_field_id hm) as [t|] eqn:T; [|reflexivity].
    destruct (find_field fields t) as [tm|] eqn:Htm; [|reflexivity].
    rewrite Vis1, Avis. unfold sync_vis. rewrite Hh, R, T, Htm.
    rewrite (Trig hm t Hin R T) by congruence. reflexivity.
  - (* flags *)
    intro x. destruct (loading a) eqn:La.
    + rewrite (R1t eq_refl) in *. assert (Lb : loading b = true) by congruence.
      rewrite (R2t Lb), Bf. reflexivity.
    + assert (Lb : loading b = false) by (rewrite Bl; now apply R1f).
      destruct (existsb (fun m => written m && Z.eqb (fm_id m) x) fields) eqn:Ex.
      * apply existsb_exists in Ex as [m [Hm Ex]]. apply andb_true_iff in Ex as [W Ex].
        apply Z.eqb_eq in Ex. subst x.
        destruct (fm_formula m) as [f|] eqn:Hf.
        2:{ unfold written in W. rewrite Hf in W. now rewrite andb_false_r in W. }
        pose proof (recalculate_spec fields g rep a s1 Hnd Hnc La H1 m f Hm W Hf) as E1.
        pose proof (recalculate_spec fields g rep b s2 Hnd Hnc Lb H2 m f Hm W Hf) as E2.
        assert (Ev : evaluate_formula fields b f = evaluate_formula fields a f).
        { apply evaluate_formula_congr. intros r fid Hr Hres. apply read_value_eq.
          destruct (resolve_fid_in fields r fid Hres) as [m' [Hin' Hid']].
          pose proof (Hnc m f r fid m' Hm W Hf Hr Hres Hin' Hid') as W'.
          subst fid. rewrite Bv.
          exact (proj1 (R1v _ (unwritten_id fields m' Hnd Hin' W'))). }
        rewrite Ev, Bf in E2. apply (f_equal snd) in E1. apply (f_equal snd) in E2.
        cbn [snd] in E1, E2. rewrite E2, E1. apply recalc_outcome_idem.
      * assert (Nw : forall m, In m fields -> written m = true -> fm_id m <> x).
        { intros m Hm W E. apply not_true_iff_false in Ex. apply Ex, existsb_exists.
          exists m. split; [exact Hm|]. now rewrite W, E, Z.eqb_refl. }
        rewrite (proj2 (R2v x Nw)), Bf. reflexivity.
  - (* loading *)
    destruct (loading a) eqn:La.
    + rewrite (R1t eq_refl) in *. assert (Lb : loading b = true) by congruence.
      now rewrite (R2t Lb).
    + assert (Lb : loading b = false) by (rewrite Bl; now apply R1f).
      rewrite (R2f Lb), (R1f eq_refl). reflexivity.
Qed.

Lemma evaluator_idempotent_witness :
  exists s1 s2, evaluator bmi_fields male some_repr (initial_state bmi_fields) = Some s1 /\
                evaluator bmi_fields male some_repr s1 = Some s2 /\ st_eq s2 s1.
Proof.
  destruct (evaluator_some bmi_fields male some_repr (initial_state bmi_fields)) as [s1 H1].
  destruct (evaluator_some bmi_fields male some_repr s1) as [s2 H2].
  exists s1, s2. split; [exact H1|split; [exact H2|]].
  apply (evaluator_idempotent bmi_fields male some_repr (initial_state bmi_fields) s1 s2
           bmi_nodup bmi_no_chain); [|exact H1|exact H2].
  intros hm t m Hin R. simpl in Hin.
  destruct Hin as [<-|[<-|[<-|[]]]]; discriminate R.
Defined.

(** *** C1 (amended) *)

(** Claim C1 (amended): the round trip holds, up to blank values read back
    as empty, for a settled record saved fresh: when the field ids are
    distinct, no formula reads another formula field, trigger fields are
    plain visible input fields, every formula reads only collected fields,
    date and time fields hold valid values, the visibility of each field
    follows its trigger and each formula field holds its formula's result,
    then saving [collect_values] into an empty store, reopening and
    collecting again in the same display state [shown] (the same tab
    current, the same groups expanded) gives the same map, once blank values
    are written as the empty string. *)
Theorem roundtrip_fresh_record (fields : list FieldMeta) (g : string) (rep : Q -> string)
    (shown : Z -> bool) (S R : State) :
  NoDup (map fm_id fields) ->
  no_chain fields ->
  (forall hm t m, In hm fields -> registered hm = true -> fm_trigger_field_id hm = Some t ->
                  In m fields -> fm_id m = t -> written m = false /\ fm_is_hidden m = false) ->
  (forall m f r fid, In m fields -> written m = true -> fm_formula m = Some f ->
                     In r (Refs.findall f) -> resolve_fid fields r = Some fid ->
                     forall m', In m' fields -> fm_id m' = fid ->
                                fm_is_hidden m' && negb (container_visible shown S fid) = false) ->
  (forall m, In m fields ->
     (widget_of m = WDate -> valid_date (value S (fm_id m)) = true) /\
     (widget_of m = WTime -> valid_time (value S (fm_id m)) = true)) ->
  (forall m, In m fields -> visible S (fm_id m) = vis_expected fields S (fm_id m)) ->
  (forall m f, In m fields -> written m = true -> fm_formula m = Some f ->
               value S (fm_id m) =
                 fst (recalc_outcome g rep m (evaluate_formula fields S f) false)) ->
  open_form fields g rep
    (Some (load_protocol_values (save_protocol [] (collect_values fields shown S)))) = Some R ->
  normalize (collect_values fields shown R) = normalize (collect_values fields shown S).
Proof.
  intros Hnd Hnc Htr Href Hdt Hvis Hset HR.
  rewrite open_unfold, load_unfold in HR. unfold load_protocol_values in HR.
  rewrite save_fresh in HR by (now apply collect_nodup).
  apply obind_some in HR as [L [HLd HR]].
  apply obind_some in HLd as [L1 [H1 HL]].
  pose proof (reopen_value fields shown S L1 Hnd Hdt H1) as VL1.
  destruct (sync_triggers_spec fields _ _ Hnd HL) as (Lv & _ & Ll & Lvis).
  change (value (set_loading L1 false)) with (value L1) in Lv.
  change (loading (set_loading L1 false)) with false in Ll.
  destruct (recalculate_frame fields g rep L R HR) as (_ & _ & Rv & Rvis).
  pose proof (lk_written_empty fields
                (fun hm t m a b c d e => proj1 (Htr hm t m a b c d e))) as Lk.
  assert (Tv : forall hm t tm, In hm fields -> registered hm = true ->
                 fm_trigger_field_id hm = Some t -> find_field fields t = Some tm ->
                 strip (value L1 t) = strip (value S t)).
  { intros hm t tm Hin R0 T F.
    destruct (find_field_some fields t tm F) as [Htm Hid].
    destruct (Htr hm t tm Hin R0 T Htm Hid) as [_ Hh].
    rewrite <- Hid, (VL1 tm Htm) by (now rewrite Hh).
    destruct (blank (value S (fm_id tm))) eqn:B; [|reflexivity].
    rewrite (blank_strip _ B). reflexivity. }
  assert (VisR : forall m, In m fields -> visible R (fm_id m) = visible S (fm_id m)).
  { intros m Hin. rewrite Rvis by (intros m' Hm' W; exact (Lk m' (fm_id m) Hm' W)).
    rewrite Lvis, (Hvis m Hin). unfold sync_vis, vis_expected.
    rewrite (find_field_nodup fields m Hnd Hin).
    assert (U : untouchable fields (fm_id m) ->
                visible (set_loading L1 false) (fm_id m) = negb (registered m)).
    { intro U. change (visible (set_loading L1 false)) with (visible L1).
      destruct (load_fold_frame fields _ _ _ H1) as (_ & _ & F & _).
      rewrite (F _ U). exact (initial_visible fields m Hnd Hin). }
    destruct (registered m) eqn:R0.
    - destruct (fm_trigger_field_id m) as [t|] eqn:T.
      + destruct (find_field fields t) as [tm|] eqn:F.
        * change (value (set_loading L1 false)) with (value L1).
          now rewrite (Tv m t tm Hin R0 T F).
        * rewrite U; [reflexivity|].
          apply untouchable_of; auto. right; intros t' T'; congruence.
      + rewrite U; [reflexivity|].
        apply untouchable_of; auto. right; intros t' T'; congruence.
    - rewrite U; [reflexivity|]. apply untouchable_of; auto. }
  assert (ValR : forall m, In m fields ->
            fm_is_hidden m && negb (container_visible shown S (fm_id m)) = false ->
            (if blank (value R (fm_id m)) then EmptyString else value R (fm_id m)) =
            (if blank (value S (fm_id m)) then EmptyString else value S (fm_id m))).
  { intros m Hin Hc.
    destruct (written m) eqn:W.
    - destruct (fm_formula m) as [f|] eqn:Hf;
        [|unfold written in W; rewrite Hf in W; now rewrite andb_false_r in W].
      pose proof (recalculate_spec fields g rep L R Hnd Hnc Ll HR m f Hin W Hf) as E.
      assert (Ev : evaluate_formula fields L f = evaluate_formula fields S f).
      { apply evaluate_formula_congr. intros r fid Hr Hres.
        destruct (resolve_fid_in fields r fid Hres) as [m' [Hm' Hid]].
        pose proof (Href m f r fid Hin W Hf Hr Hres m' Hm' Hid) as Hc'.
        subst fid. unfold read_value, get_str. rewrite Lv, (VL1 m' Hm' Hc').
        destruct (blank (value S (fm_id m'))) eqn:B; [reflexivity|now rewrite B]. }
      assert (Vm : value R (fm_id m) = value S (fm_id m)).
      { rewrite (Hset m f Hin W Hf).
        change (value R (fm_id m)) with (fst (value R (fm_id m), flagged R (fm_id m))).
        rewrite E, Ev. apply recalc_outcome_fst. }
      now rewrite Vm.
    - rewrite (proj1 (Rv (fm_id m) (unwritten_id fields m Hnd Hin W))), Lv, (VL1 m Hin Hc).
      destruct (blank (value S (fm_id m))) eqn:B; [reflexivity|now rewrite B]. }
  apply collect_ext; [intros m Hin; unfold container_visible; now rewrite VisR | exact ValR].
Qed.

Ltac bmi_cases H := simpl in H; destruct H as [<-|[<-|[<-|[]]]].

Lemma roundtrip_fresh_record_witness :
  let S := with_values [(1%Z, "70,5"); (2%Z, "1,80"); (3%Z, "21,76")] in
  let shown := on_tab bmi_fields 1 in
  exists R,
    open_form bmi_fields male some_repr
      (Some (load_protocol_values (save_protocol [] (collect_values bmi_fields shown S)))) = Some R /\
    normalize (collect_values bmi_fields shown R) = normalize (collect_values bmi_fields shown S).
Proof.
  intros S shown.
  destruct (open_form_some bmi_fields male some_repr
              (Some (load_protocol_values (save_protocol [] (collect_values bmi_fields shown S)))))
    as [R HR].
  exists R. split; [exact HR|].
  apply (roundtrip_fresh_record bmi_fields male some_repr shown S R).
  - exact bmi_nodup.
  - exact bmi_no_chain.
  - intros hm t m Hin Hr. bmi_cases Hin; vm_compute in Hr; discriminate.
  - intros m f r fid Hin W Hf Hr Hres m' Hm' Hid. bmi_cases Hm'; reflexivity.
  - intros m Hin. bmi_cases Hin; split; intro W; vm_compute in W; discriminate.
  - intros m Hin. bmi_cases Hin; vm_compute; reflexivity.
  - intros m f Hin W Hf. bmi_cases Hin; vm_compute in W; try discriminate.
    simpl in Hf. injection Hf as <-. vm_compute. reflexivity.
  - exact HR.
Defined.

End Claims.

(** ** Further properties of the engine and of the record store *)

Module Extras.
Import Text Form Engine Examples Derived Facts.
Local Open Scope string_scope.

Ltac nodup_ids := vm_compute; repeat constructor; simpl; intuition discriminate.

(** *** The record store: [repo.save_protocol] *)

(** After [save_protocol] the stored value of a field is the last non-blank
    value given for it in this save, and the previously stored value when
    every value given for it is blank or none is given: a blank value never
    removes or replaces a stored one. *)
Theorem save_protocol_stored (rows : Store) (kvs : list (Z * string)) (fid : Z) :
  stored (save_protocol rows kvs) fid =
  fold_left (fun acc kv => if Z.eqb (fst kv) fid && negb (blank (snd kv)) then Some (snd kv) else acc)
            kvs (stored rows fid).
Proof. apply save_stored. Qed.

(** [save_protocol] keeps one row per field and never stores a blank value:
    if the rows of the record have distinct field ids and no blank value,
    so do the rows after the save. *)
Theorem save_protocol_rows_invariant (rows : Store) (kvs : list (Z * string)) :
  NoDup (map fst rows) -> (forall r, In r rows -> blank (snd r) = false) ->
  NoDup (map fst (save_protocol rows kvs)) /\
  (forall r, In r (save_protocol rows kvs) -> blank (snd r) = false).
Proof. apply save_rows_inv. Qed.

Lemma save_protocol_rows_invariant_witness :
  NoDup (map fst (save_protocol [(1%Z, "70,5"); (2%Z, "1,80")]
                                [(1%Z, ""); (2%Z, "1,75"); (3%Z, "x")])) /\
  save_protocol [(1%Z, "70,5"); (2%Z, "1,80")] [(1%Z, ""); (2%Z, "1,75"); (3%Z, "x")] =
    [(1%Z, "70,5"); (2%Z, "1,75"); (3%Z, "x")].
Proof.
  split; [|reflexivity].
  refine (proj1 (save_protocol_rows_invariant _ _ _ _)).
  - nodup_ids.
  - intros r Hr. simpl in Hr. destruct Hr as [<-|[<-|[]]]; reflexivity.
Defined.



(** *** Visibility of fields no trigger governs *)

(** A field is hidden only through [hidden_by_trigger]: a field that is not
    registered there (not marked hidden, or marked hidden with trigger id 0
    or none) is shown when the form is opened, and no edit, tab clearing or
    evaluator run changes its visibility. *)
Theorem unregistered_field_visible (fields : list FieldMeta) (g : string) (rep : Q -> string)
    (m : FieldMeta) :
  NoDup (map fm_id fields) -> In m fields -> registered m = false ->
  (forall vals R, open_form fields g rep vals = Some R -> visible R (fm_id m) = true) /\
  (forall fid v st st', edit fields g rep fid v st = Some st' ->
                        visible st' (fm_id m) = visible st (fm_id m)) /\
  (forall tab st st', clear_current_tab fields g rep tab st = Some st' ->
                      visible st' (fm_id m) = visible st (fm_id m)) /\
  (forall st st', evaluator fields g rep st = Some st' ->
                  visible st' (fm_id m) = visible st (fm_id m)).
Proof.
  intros Hnd Hin Hr.
  assert (U : untouchable fields (fm_id m)) by (apply untouchable_of; auto).
  split; [|split; [|split]].
  - intros vals R H. unfold open_form in H. apply obind_some in H as [L [HL H]].
    rewrite (recalculate_untouch fields g rep L R (fm_id m) U H).
    rewrite (load_untouch fields vals _ L (fm_id m) U HL).
    rewrite (initial_visible fields m Hnd Hin), Hr. reflexivity.
  - intros fid v st st' H. exact (proj2 (proj2 (edit_frame fields g rep fid v st st' H)) _ U).
  - intros tab st st' H. exact (proj2 (proj2 (clear_spec fields g rep tab st st' H)) _ U).
  - intros st st' H. exact (evaluator_untouch fields g rep st st' (fm_id m) U H).
Qed.

Lemma unregistered_field_visible_witness :
  exists R, open_form zero_trigger_fields male some_repr None = Some R /\ visible R 2 = true.
Proof.
  destruct (open_form_some zero_trigger_fields male some_repr None) as [R H].
  exists R. split; [exact H|].
  exact (proj1 (unregistered_field_visible zero_trigger_fields male some_repr
                  (mk_field 2 1 "T" "G" "Detail" FStr None None true (Some 0%Z) None [])
                  ltac:(nodup_ids) ltac:(right; now left) eq_refl) None R H).
Defined.

End Extras.

(** ** Properties of the display-order functions of [repo.py] *)

Module RepoExtras.
Import Repo RepoFacts.
Local Open Scope Z_scope.

Ltac nodup_z := vm_compute; repeat constructor; simpl; lia.

(** [move_tab], [move_group] and [move_dictionary_value] (all [move_child]):
    when the rows under parent [p] have distinct ids and distinct non-NULL
    display orders, moving [x] by [dir] onto the row [y] that sits [dir]
    places further in [p]'s listing (or [y] back onto [x]) exchanges the two:
    the listing afterwards has [y] in [x]'s place with [x]'s order and [x]
    in [y]'s place with [y]'s order, everything else unchanged. *)
Theorem move_child_swaps (rows : list (Row Z)) (p : Z) (pre mid post : list (Row Z))
    (x y : Row Z) (target dir : Z) :
  NoDup (map row_id rows) ->
  list_children p rows = pre ++ x :: mid ++ y :: post ->
  (forall r, In r (list_children p rows) -> row_order r <> None) ->
  NoDup (map row_order (list_children p rows)) ->
  (target = row_id x /\ dir = Z.of_nat (S (length mid)) \/
   target = row_id y /\ dir = - Z.of_nat (S (length mid))) ->
  list_children p (move_child target dir rows) =
  pre ++ with_order y (row_order x) :: mid ++ with_order x (row_order y) :: post.
Proof.
  intros Hnd HL Hs Ho Hd.
  assert (Hx : In x (list_children p rows)) by (rewrite HL; apply in_or_app; right; now left).
  assert (Hy : In y (list_children p rows))
    by (rewrite HL; apply in_or_app; right; right; apply in_or_app; right; now left).
  assert (E : move_child target dir rows = move_among (fun s => row_parent s =? p) target dir rows)
    by (destruct Hd as [[-> _]|[-> _]]; now apply move_child_as_among).
  rewrite E. now apply (move_among_listing (fun s => row_parent s =? p) (fun r o => eq_refl)).
Qed.

Lemma move_child_swaps_witness :
  list_children 10 (move_child 2 1 example_tabs) =
  [mkRow 1 10 (Some 1)] ++ with_order (mkRow 3 10 (Some 3)) (Some 2) ::
    [] ++ with_order (mkRow 2 10 (Some 2)) (Some 3) :: [].
Proof.
  apply (move_child_swaps example_tabs 10 [mkRow 1 10 (Some 1)] [] []
           (mkRow 2 10 (Some 2)) (mkRow 3 10 (Some 3)) 2 1).
  - nodup_z.
  - reflexivity.
  - intros r Hr. vm_compute in Hr. destruct Hr as [<-|[<-|[<-|[]]]]; discriminate.
  - vm_compute. repeat constructor; simpl; intuition discriminate.
  - left. split; reflexivity.
Defined.

(** Moving a row never changes the listing of a parent the row does not
    belong to. *)
Theorem move_child_other_parents (rows : list (Row Z)) (target dir q : Z) :
  NoDup (map row_id rows) ->
  (forall r, In r rows -> row_id r = target -> row_parent r <> q) ->
  list_children q (move_child target dir rows) = list_children q rows.
Proof.
  intros Hnd Hq. unfold move_child.
  destruct (find (fun r => row_id r =? target) rows) as [row|] eqn:F; [|reflexivity].
  apply find_some in F as [Hrow Ht]. apply Z.eqb_eq in Ht.
  unfold list_children, select. f_equal.
  apply move_among_out; [reflexivity|intros r r' E; simpl; now rewrite E| |exact Hnd].
  intros r Hw. apply Z.eqb_eq in Hw. apply Z.eqb_neq. rewrite Hw. exact (Hq row Hrow Ht).
Qed.

Lemma move_child_other_parents_witness :
  list_children 20 (move_child 2 1 example_tabs) = list_children 20 example_tabs.
Proof.
  apply move_child_other_parents.
  - nodup_z.
  - intros r Hr E. vm_compute in Hr.
    destruct Hr as [<-|[<-|[<-|[<-|[]]]]]; vm_compute in E |- *; congruence.
Defined.

(** When the row moved and the row it is swapped with have the same display
    order, the move leaves the table unchanged. *)
Theorem move_child_same_order (rows : list (Row Z)) (p : Z) (pre mid post : list (Row Z))
    (x y : Row Z) (target dir o : Z) :
  NoDup (map row_id rows) ->
  list_children p rows = pre ++ x :: mid ++ y :: post ->
  row_order x = Some o -> row_order y = Some o ->
  (target = row_id x /\ dir = Z.of_nat (S (length mid)) \/
   target = row_id y /\ dir = - Z.of_nat (S (length mid))) ->
  move_child target dir rows = rows.
Proof.
  intros Hnd HL Ox Oy Hd.
  assert (Hx : In x (list_children p rows)) by (rewrite HL; apply in_or_app; right; now left).
  assert (Hy : In y (list_children p rows))
    by (rewrite HL; apply in_or_app; right; right; apply in_or_app; right; now left).
  assert (E : move_child target dir rows = move_among (fun s => row_parent s =? p) target dir rows)
    by (destruct Hd as [[-> _]|[-> _]]; now apply move_child_as_among).
  rewrite E. exact (move_among_same_order (fun s => row_parent s =? p)
                      rows pre mid post x y target dir o Hnd HL Ox Oy Hd).
Qed.

Lemma move_child_same_order_witness : move_child 1 1 example_tied_tabs = example_tied_tabs.
Proof.
  apply (move_child_same_order example_tied_tabs 10 [] [] [mkRow 3 10 (Some 2)]
           (mkRow 1 10 (Some 1)) (mkRow 2 10 (Some 1)) 1 1 1).
  - nodup_z.
  - reflexivity.
  - reflexivity.
  - reflexivity.
  - left. split; reflexivity.
Defined.

(** Under distinct non-NULL display orders, moving a row by [dir] and then by
    [-dir] restores the table exactly. *)
Theorem move_child_back (rows : list (Row Z)) (p : Z) (pre mid post : list (Row Z))
    (x y : Row Z) (target dir : Z) :
  NoDup (map row_id rows) ->
  list_children p rows = pre ++ x :: mid ++ y :: post ->
  (forall r, In r (list_children p rows) -> row_order r <> None) ->
  NoDup (map row_order (list_children p rows)) ->
  (target = row_id x /\ dir = Z.of_nat (S (length mid)) \/
   target = row_id y /\ dir = - Z.of_nat (S (length mid))) ->
  move_child target (- dir) (move_child target dir rows) = rows.
Proof.
  intros Hnd HL Hs Ho Hd.
  set (w := fun s : Row Z => row_parent s =? p).
  assert (Hw : forall r o, w (with_order r o) = w r) by reflexivity.
  assert (Hx : In x (list_children p rows)) by (rewrite HL; apply in_or_app; right; now left).
  assert (Hy : In y (list_children p rows))
    by (rewrite HL; apply in_or_app; right; right; apply in_or_app; right; now left).
  assert (E : move_child target dir rows = move_among w target dir rows)
    by (destruct Hd as [[-> _]|[-> _]]; now apply move_child_as_among).
  assert (HL' := move_among_listing w Hw rows pre mid post x y target dir Hnd HL Hs Ho Hd).
  destruct (move_among_listing_props w Hw rows pre mid post x y target dir Hnd HL Hs Ho Hd)
    as [Hnd' _].
  rewrite E.
  assert (E' : move_child target (- dir) (move_among w target dir rows) =
               move_among w target (- dir) (move_among w target dir rows)).
  { destruct Hd as [[-> _]|[-> _]].
    - assert (Hin : In (with_order x (row_order y)) (list_children p (move_among w (row_id x) dir rows))).
      { unfold list_children. fold w. rewrite HL'.
        apply in_or_app; right; right; apply in_or_app; right; now left. }
      exact (move_child_as_among _ p _ (- dir) Hnd' Hin).
    - assert (Hin : In (with_order y (row_order x)) (list_children p (move_among w (row_id y) dir rows))).
      { unfold list_children. fold w. rewrite HL'.
        apply in_or_app; right; now left. }
      exact (move_child_as_among _ p _ (- dir) Hnd' Hin). }
  rewrite E'. exact (move_among_back w Hw rows pre mid post x y target dir Hnd HL Hs Hd Ho).
Qed.

Lemma move_child_back_witness :
  move_child 2 (- 1) (move_child 2 1 example_tabs) = example_tabs.
Proof.
  apply (move_child_back example_tabs 10 [mkRow 1 10 (Some 1)] [] []
           (mkRow 2 10 (Some 2)) (mkRow 3 10 (Some 3)) 2 1).
  - nodup_z.
  - reflexivity.
  - intros r Hr. vm_compute in Hr. destruct Hr as [<-|[<-|[<-|[]]]]; discriminate.
  - vm_compute. repeat constructor; simpl; intuition discriminate.
  - left. split; reflexivity.
Defined.

(** A move whose destination index lies before the first or after the last
    row of the parent's listing leaves the table unchanged. *)
Theorem move_child_at_edge (rows : list (Row Z)) (p : Z) (pre post : list (Row Z))
    (x : Row Z) (dir : Z) :
  NoDup (map row_id rows) ->
  list_children p rows = pre ++ x :: post ->
  (dir < - Z.of_nat (length pre) \/ Z.of_nat (length post) < dir) ->
  move_child (row_id x) dir rows = rows.
Proof.
  intros Hnd HL Hd.
  rewrite (move_child_as_among rows p x dir Hnd) by (rewrite HL; apply in_or_app; right; now left).
  exact (move_among_edge (fun s => row_parent s =? p) rows pre post x dir Hnd HL Hd).
Qed.

Lemma move_child_at_edge_witness : move_child 1 (- 1) example_tabs = example_tabs.
Proof.
  apply (move_child_at_edge example_tabs 10 [] [mkRow 2 10 (Some 2); mkRow 3 10 (Some 3)]
           (mkRow 1 10 (Some 1)) (- 1)).
  - nodup_z.
  - reflexivity.
  - left. simpl. lia.
Defined.

(** [create_tab], [create_group] and [create_dictionary_value]
    ([create_child]): the new row, with display order [MAX(display_order) + 1]
    over its parent's rows, comes last in its parent's listing after the
    existing rows in their order, and every other parent's listing is
    unchanged. *)
Theorem create_child_last (rows : list (Row Z)) (p new_id : Z) :
  list_children p (create_child p new_id rows) =
  list_children p rows ++ [mkRow new_id p (Some (max_order (fun r => row_parent r =? p) rows + 1))] /\
  (forall q, q <> p -> list_children q (create_child p new_id rows) = list_children q rows).
Proof.
  unfold create_child, list_children, select. split.
  - rewrite filter_app. simpl. rewrite Z.eqb_refl. apply order_by_last.
    intros s Hs. unfold key_ltb. simpl.
    destruct (row_order s) as [z|] eqn:Ez; [|reflexivity].
    assert (L := max_order_ge (fun r => row_parent r =? p) rows s z Hs Ez).
    apply orb_true_intro. left. apply Z.ltb_lt. lia.
  - intros q Hq. rewrite filter_app. simpl.
    rewrite (proj2 (Z.eqb_neq p q)) by congruence. now rewrite app_nil_r.
Qed.

(** [move_field]: in a column [c <> 0] of group [g], with distinct ids and
    distinct non-NULL orders in that column, moving a field by [dir] onto
    the field [dir] places further in the column's listing exchanges the two
    fields' places and display orders, everything else unchanged. *)
Theorem move_field_swaps (rows : list (Row (Z * option Z))) (g c : Z)
    (pre mid post : list (Row (Z * option Z))) (x y : Row (Z * option Z)) (target dir : Z) :
  NoDup (map row_id rows) -> c <> 0 ->
  select (in_column g c) rows = pre ++ x :: mid ++ y :: post ->
  (forall r, In r (select (in_column g c) rows) -> row_order r <> None) ->
  NoDup (map row_order (select (in_column g c) rows)) ->
  (target = row_id x /\ dir = Z.of_nat (S (length mid)) \/
   target = row_id y /\ dir = - Z.of_nat (S (length mid))) ->
  select (in_column g c) (move_field target dir rows) =
  pre ++ with_order y (row_order x) :: mid ++ with_order x (row_order y) :: post.
Proof.
  intros Hnd Hc HL Hs Ho Hd.
  assert (Hx : In x (select (in_column g c) rows)) by (rewrite HL; apply in_or_app; right; now left).
  assert (Hy : In y (select (in_column g c) rows))
    by (rewrite HL; apply in_or_app; right; right; apply in_or_app; right; now left).
  assert (E : move_field target dir rows = move_among (in_column g c) target dir rows)
    by (destruct Hd as [[-> _]|[-> _]]; now apply move_field_as_among).
  rewrite E. now apply (move_among_listing (in_column g c) (fun r o => eq_refl)).
Qed.

Lemma move_field_swaps_witness :
  select (in_column 5 1) (move_field 2 (- 1) example_fields) =
  [] ++ with_order (mkRow 2 (5, Some 1) (Some 2)) (Some 1) ::
    [] ++ with_order (mkRow 1 (5, Some 1) (Some 1)) (Some 2) :: [].
Proof.
  apply (move_field_swaps example_fields 5 1 [] [] [] (mkRow 1 (5, Some 1) (Some 1))
           (mkRow 2 (5, Some 1) (Some 2)) 2 (- 1)).
  - nodup_z.
  - lia.
  - reflexivity.
  - intros r Hr. vm_compute in Hr. destruct Hr as [<-|[<-|[]]]; discriminate.
  - vm_compute. repeat constructor; simpl; intuition discriminate.
  - right. split; reflexivity.
Defined.

(** [move_field] on a field whose [column_num] is NULL or 0 changes nothing:
    the query [column_num = int(column_num or 1)] does not select the field
    itself, and [if field_id not in ids: return]. *)
Theorem move_field_unplaced (rows : list (Row (Z * option Z))) (r : Row (Z * option Z)) (dir : Z) :
  NoDup (map row_id rows) -> In r rows ->
  snd (row_parent r) = None \/ snd (row_parent r) = Some 0 ->
  move_field (row_id r) dir rows = rows.
Proof.
  intros Hnd Hin Hc. unfold move_field. rewrite find_id by assumption.
  unfold move_among. cbv zeta. rewrite index_of_none; [reflexivity|].
  intro Hs. apply in_map_iff in Hs as [s [Es Hs]]. apply select_in in Hs as [Hs Hw].
  rewrite (nodup_same_id row_id rows s r Hnd Hs Hin Es) in Hw.
  unfold in_column in Hw. destruct Hc as [Hc|Hc]; rewrite Hc in Hw; simpl in Hw.
  - now rewrite andb_false_r in Hw.
  - rewrite andb_true_iff in Hw. destruct Hw as [_ Hw]. discriminate.
Qed.

Lemma move_field_unplaced_witness :
  move_field 4 (- 1) example_fields = example_fields /\
  move_field 5 (- 1) example_fields = example_fields.
Proof.
  split.
  - apply (move_field_unplaced example_fields (mkRow 4 (5, None) (Some 3)) (- 1)).
    + nodup_z.
    + simpl. tauto.
    + now left.
  - apply (move_field_unplaced example_fields (mkRow 5 (5, Some 0) (Some 4)) (- 1)).
    + nodup_z.
    + simpl. tauto.
    + now right.
Defined.

(** [move_study_type]: with distinct ids and distinct non-NULL orders,
    moving a study type by [dir] onto the one [dir] places further in the
    ordered list exchanges the two's places and display orders. *)
Theorem move_study_type_swaps (rows : list (Row unit)) (pre mid post : list (Row unit))
    (x y : Row unit) (target dir : Z) :
  NoDup (map row_id rows) ->
  select (fun _ => true) rows = pre ++ x :: mid ++ y :: post ->
  (forall r, In r rows -> row_order r <> None) ->
  NoDup (map row_order rows) ->
  (target = row_id x /\ dir = Z.of_nat (S (length mid)) \/
   target = row_id y /\ dir = - Z.of_nat (S (length mid))) ->
  select (fun _ => true) (move_study_type target dir rows) =
  pre ++ with_order y (row_order x) :: mid ++ with_order x (row_order y) :: post.
Proof.
  intros Hnd HL Hs Ho Hd. unfold move_study_type.
  apply (move_among_listing (fun _ => true) (fun r o => eq_refl)); try assumption.
  - intros r Hr. apply Hs. now apply select_in in Hr.
  - assert (F : filter (fun _ : Row unit => true) rows = rows)
      by (clear; induction rows; simpl; congruence).
    unfold select. rewrite F.
    exact (Permutation_NoDup (Permutation_map row_order (Permutation_sym (order_by_perm rows))) Ho).
Qed.

Lemma move_study_type_swaps_witness :
  select (fun _ => true) (move_study_type 2 1 example_study_types) =
  [] ++ with_order (mkRow 1 tt (Some 2)) (Some 1) :: [] ++ with_order (mkRow 2 tt (Some 1)) (Some 2) :: [].
Proof.
  apply (move_study_type_swaps example_study_types [] [] [] (mkRow 2 tt (Some 1))
           (mkRow 1 tt (Some 2)) 2 1).
  - nodup_z.
  - reflexivity.
  - intros r Hr. destruct Hr as [<-|[<-|[]]]; discriminate.
  - vm_compute. repeat constructor; simpl; intuition discriminate.
  - left. split; reflexivity.
Defined.

End RepoExtras.

(** ** Further properties: [_check_reference] *)

Module NumExtras.
Import Text Form Engine Derived Facts Num NumFacts Examples.
Local Open Scope string_scope.

(** The text [_check_reference] writes into a field with precision [p],
    [f"{round(v, p):.{p}f}".replace(".", ",")], is its own [strip()], and
    read back through [float(txt.replace(",", "."))] it gives exactly the
    rounded value [round(v, p)], which formats to the same text again. *)
Theorem format_comma_roundtrip (q : Q) (p : nat) :
  strip (format_comma q p) = format_comma q p /\
  exists v, parse_float (replace_char ","%char "."%char (format_comma q p)) = Some v /\
            v == round_q q p /\ format_comma v p = format_comma q p.
Proof.
  split; [apply strip_format_comma|].
  destruct (format_comma_reparse q p) as (v & P & E & _ & F).
  exists v. auto.
Qed.

(** Running [_check_reference] twice on a number or formula field, outside
    loading, leaves every field's text and out-of-range flag as the first
    run left them. *)
Theorem check_reference_idempotent (fields : list FieldMeta) (g : string) (fid : Z)
    (m : FieldMeta) (st st1 st2 : State) :
  loading st = false -> find_field fields fid = Some m -> is_num_or_formula m = true ->
  check_reference fields g fid st = Some st1 ->
  check_reference fields g fid st1 = Some st2 ->
  forall x, value st2 x = value st1 x /\ flagged st2 x = flagged st1 x.
Proof.
  intros L Hm Hnf H1 H2 x.
  pose proof (check_reference_frame fields g fid st st1 H1) as (L1 & _).
  rewrite L in L1.
  pose proof (check_reference_spec fields g fid m st st1 L Hm Hnf H1) as E1.
  pose proof (check_reference_spec fields g fid m st1 st2 L1 Hm Hnf H2) as E2.
  destruct (Z.eq_dec x fid) as [->|Hx].
  - assert (V1 : value st1 fid = fst (check_outcome g m (value st fid) (flagged st fid)))
      by (rewrite <- E1; reflexivity).
    assert (B1 : flagged st1 fid = snd (check_outcome g m (value st fid) (flagged st fid)))
      by (rewrite <- E1; reflexivity).
    rewrite V1, B1, check_outcome_stable, <- E1 in E2.
    injection E2 as -> ->. auto.
  - pose proof (check_reference_frame fields g fid st1 st2 H2) as (_ & F & _).
    now apply F.
Qed.

Lemma check_reference_idempotent_witness :
  exists st1 st2,
    check_reference range_fields male 1 (with_values [(1%Z, "4,26")]) = Some st1 /\
    check_reference range_fields male 1 st1 = Some st2 /\
    value st2 1 = value st1 1 /\ flagged st2 1 = flagged st1 1.
Proof.
  destruct (check_reference_some range_fields male 1 (with_values [(1%Z, "4,26")])) as [st1 H1].
  destruct (check_reference_some range_fields male 1 st1) as [st2 H2].
  exists st1, st2. split; [exact H1|split; [exact H2|]].
  destruct (find_field range_fields 1) as [m|] eqn:Hm; [|discriminate].
  exact (check_reference_idempotent range_fields male 1 m (with_values [(1%Z, "4,26")]) st1 st2
           eq_refl Hm ltac:(injection Hm as <-; reflexivity) H1 H2 1).
Defined.

End NumExtras.
